(** * The bucket clean-up engine ("mop") of firecloud/fiss.py

    A shallow embedding of [list_bucket_files], [choose_keepers],
    [get_files_to_keep], [can_delete], [human_readable_size] and the
    candidate-selection and execution part of [mop], with the properties
    the design document states about them. *)

From Stdlib Require Import ZArith Ascii String.
From stdpp Require Import gmap strings list sorting pretty.

Local Open Scope Z_scope.

(** ** Python exceptions and the result monad *)

Inductive exn : Type :=
  | IndexError
  | ValueError
  | KeyError
  | SystemExit (code : Z).

Inductive res (A : Type) : Type :=
  | Ok (a : A)
  | Raise (e : exn).
Arguments Ok {A} a.
Arguments Raise {A} e.

Definition res_bind {A B} (f : A → res B) (m : res A) : res B :=
  match m with
  | Ok a => f a
  | Raise e => Raise e
  end.

Module ResMonad.
#[export] Instance res_ret : MRet res := @Ok.
#[export] Instance res_mbind : MBind res := @res_bind.
End ResMonad.
Import ResMonad.

(** [l[i]] for a non-negative literal index, and [l[-1]]. *)
Definition py_getitem {A} (l : list A) (i : nat) : res A :=
  match l !! i with
  | Some x => Ok x
  | None => Raise IndexError
  end.

Definition py_getitem_last {A} (l : list A) : res A :=
  match last l with
  | Some x => Ok x
  | None => Raise IndexError
  end.

(** ** Python string operations used by the code *)

Module PyStr.

(** [s.split(sep, maxsplit)] for a one-character separator; [None] is
    Python's default [maxsplit = -1] (no limit). *)
Definition may_split (maxsplit : option nat) : bool :=
  match maxsplit with
  | Some O => false
  | _ => true
  end.

Definition one_less (maxsplit : option nat) : option nat :=
  Nat.pred <$> maxsplit.

Fixpoint split (sep : ascii) (maxsplit : option nat) (s : string)
    : list string :=
  match s with
  | EmptyString => [EmptyString]
  | String c s' =>
      if bool_decide (c = sep) && may_split maxsplit
      then EmptyString :: split sep (one_less maxsplit) s'
      else match split sep maxsplit s' with
           | h :: t => String c h :: t
           | [] => [String c EmptyString]
           end
  end.

(** [s.rsplit(sep, maxsplit)]: the same, counted from the right. *)
Definition rsplit (sep : ascii) (maxsplit : option nat) (s : string)
    : list string :=
  reverse (String.rev <$> split sep maxsplit (String.rev s)).

(** [c in s] for a character [c]. *)
Fixpoint has_char (c : ascii) (s : string) : bool :=
  match s with
  | EmptyString => false
  | String d s' => bool_decide (d = c) || has_char c s'
  end.

(** [s.startswith(p)] and [s.endswith(p)]. *)
Definition startswith (s p : string) : bool := String.prefix p s.

Definition endswith (s p : string) : bool :=
  String.prefix (String.rev p) (String.rev s).

(** [s.rjust(width)] pads with spaces on the left. *)
Definition rjust (s : string) (width : nat) : string :=
  String.string_of_list_ascii
    (replicate (width - String.length s)%nat " "%char) +:+ s.

(** [s.rstrip()] removes the white space at the end. *)
Fixpoint rstrip (s : string) : string :=
  match s with
  | EmptyString => EmptyString
  | String c s' =>
      match rstrip s' with
      | EmptyString => if Ascii.is_space c then EmptyString else String c EmptyString
      | r => String c r
      end
  end.

(** [sep.join(l)]. *)
Fixpoint join (sep : string) (l : list string) : string :=
  match l with
  | [] => ""
  | [x] => x
  | x :: l' => x +:+ sep +:+ join sep l'
  end.

End PyStr.

(** ** The inventory *)

(** What the storage client reports for one object of the bucket. *)
Record blob : Type := Blob {
  blob_name : string;
  blob_md5_hash : string;
  blob_size : Z;
  blob_time_created : Z;
  blob_updated : Z
}.

(** The per-file dictionary [file_metadata]. The keys ['to_delete'] and
    ['size_human_readable'] are absent until [mop] adds them for the
    manifest. Times are [datetime] values, here points on the time line. *)
Record file_metadata : Type := FileMetadata {
  file_name : string;
  file_path : string;
  submission_id : string;
  size : Z;
  md5 : string;
  time_created : Z;
  time_updated : Z;
  unique_key : string;
  is_in_data_table : bool;
  to_delete : option bool;
  size_human_readable : option string
}.

(** A Python [dict] with string keys: insertion-ordered, one entry per key.
    Assigning to an existing key keeps its position. *)
Definition pydict (V : Type) : Type := list (string * V).

Module PyDict.

Definition get {V} (d : pydict V) (k : string) : res V :=
  match list_find (λ kv, kv.1 = k) d with
  | Some (_, kv) => Ok kv.2
  | None => Raise KeyError
  end.

Fixpoint set {V} (d : pydict V) (k : string) (v : V) : pydict V :=
  match d with
  | [] => [(k, v)]
  | (k', v') :: d' =>
      if decide (k' = k) then (k, v) :: d' else (k', v') :: set d' k v
  end.

Definition keys {V} (d : pydict V) : list string := fst <$> d.
Definition values {V} (d : pydict V) : list V := snd <$> d.

End PyDict.

(** The body of the loop of [list_bucket_files] for one blob that is not a
    directory placeholder. *)
Definition blob_metadata (bucket_name : string) (referenced_files : gset string)
    (b : blob) : res file_metadata :=
  let filename := blob_name b in
  let md5 := blob_md5_hash b in
  let size := blob_size b in
  let time_created := blob_time_created b in
  let time_updated := blob_updated b in
  let full_file_path := "gs://" +:+ bucket_name +:+ "/" +:+ filename in
  submission_id ← py_getitem (PyStr.split "/" (Some 4%nat) full_file_path) 3;
  file_name ← py_getitem_last (PyStr.split "/" None filename);
  let unique_key := file_name +:+ "." +:+ md5 +:+ "." +:+ pretty size in
  let is_in_data_table := bool_decide (full_file_path ∈ referenced_files) in
  Ok {| file_name := file_name;
        file_path := full_file_path;
        submission_id := submission_id;
        size := size;
        md5 := md5;
        time_created := time_created;
        time_updated := time_updated;
        unique_key := unique_key;
        is_in_data_table := is_in_data_table;
        to_delete := None;
        size_human_readable := None |}.

(** The loop of [list_bucket_files] over the listed blobs. *)
Fixpoint collect_blobs (bucket_name : string) (referenced_files : gset string)
    (blobs : list blob) (bucket_dict : pydict file_metadata)
    : res (pydict file_metadata) :=
  match blobs with
  | [] => Ok bucket_dict
  | b :: blobs' =>
      if negb (PyStr.endswith (blob_name b) "/") then
        file_metadata ← blob_metadata bucket_name referenced_files b;
        collect_blobs bucket_name referenced_files blobs'
          (PyDict.set bucket_dict (file_path file_metadata) file_metadata)
      else collect_blobs bucket_name referenced_files blobs' bucket_dict
  end.

(** ** Duplicate resolution *)

(** [max(l, key=...)]: the first element whose key is largest; [ValueError]
    on an empty list. *)
Fixpoint max_from {A} (key : A → Z) (best : A) (l : list A) : A :=
  match l with
  | [] => best
  | x :: l' => max_from key (if key best <? key x then x else best) l'
  end.

Definition py_max {A} (key : A → Z) (l : list A) : res A :=
  match l with
  | [] => Raise ValueError
  | x :: l' => Ok (max_from key x l')
  end.

Definition choose_keepers (duplicated_files : list file_metadata)
    : res (list file_metadata) :=
  if forallb is_in_data_table duplicated_files then
    Ok duplicated_files
  else if existsb is_in_data_table duplicated_files then
    Ok (filter (λ f, is_in_data_table f) duplicated_files)
  else
    most_recently_modified ← py_max time_updated duplicated_files;
    Ok [most_recently_modified].

(** [files_to_keep] of [get_files_to_keep] after one more inventory entry. *)
Definition keep_step (files_to_keep : gmap string (list file_metadata))
    (this_file_metadata : file_metadata)
    : res (gmap string (list file_metadata)) :=
  let this_unique_key := unique_key this_file_metadata in
  match files_to_keep !! this_unique_key with
  | None => Ok (<[this_unique_key := [this_file_metadata]]> files_to_keep)
  | Some kept =>
      let duplicated_files := kept ++ [this_file_metadata] in
      keepers ← choose_keepers duplicated_files;
      Ok (<[this_unique_key := keepers]> files_to_keep)
  end.

Fixpoint keep_loop (files_to_keep : gmap string (list file_metadata))
    (entries : list file_metadata)
    : res (gmap string (list file_metadata)) :=
  match entries with
  | [] => Ok files_to_keep
  | this_file_metadata :: entries' =>
      files_to_keep' ← keep_step files_to_keep this_file_metadata;
      keep_loop files_to_keep' entries'
  end.

(** The set of file paths of all lists stored in [files_to_keep]. *)
Definition kept_paths (files_to_keep : gmap string (list file_metadata))
    : gset string :=
  list_to_set
    (mjoin ((λ kv, file_path <$> kv.2) <$> map_to_list files_to_keep)).

Definition get_files_to_keep (bucket_dict : pydict file_metadata)
    : res (gset string) :=
  files_to_keep ← keep_loop ∅ (PyDict.values bucket_dict);
  Ok (kept_paths files_to_keep).

(** ** The safety filter *)

(** A reference instance of the glob matcher: [*] matches any run of
    characters, [?] any one character, every other character itself.
    Bracket classes are not interpreted. [can_delete] below is stated for
    an arbitrary matcher; this instance serves to run it. *)
Fixpoint glob_match (pat : list ascii) (name : list ascii) : bool :=
  match pat with
  | [] => match name with [] => true | _ => false end
  | "*"%char :: pat' =>
      (fix skip (name : list ascii) : bool :=
         glob_match pat' name ||
         match name with
         | [] => false
         | _ :: name' => skip name'
         end) name
  | "?"%char :: pat' =>
      match name with
      | [] => false
      | _ :: name' => glob_match pat' name'
      end
  | c :: pat' =>
      match name with
      | [] => false
      | d :: name' => bool_decide (c = d) && glob_match pat' name'
      end
  end.

Definition glob_fnmatchcase (name pat : string) : bool :=
  glob_match (String.list_ascii_of_string pat)
             (String.list_ascii_of_string name).

(** Truth value of an optional argument list: [None] and [[]] are false. *)
Definition truthy {A} (o : option (list A)) : bool :=
  match o with
  | Some (_ :: _) => true
  | _ => false
  end.

Definition glob_list {A} (o : option (list A)) : list A := default [] o.

Section SafetyFilter.

(** [fnmatch.fnmatchcase(name, pattern)] of the Python standard library. *)
Variable fnmatchcase : string → string → bool.

Definition can_delete (f : string) (include exclude : option (list string))
    : res bool :=
  filename ← py_getitem_last (PyStr.rsplit "/" (Some 1%nat) f);
  if PyStr.endswith filename ".log" then Ok false
  else if PyStr.endswith filename "-rc.txt" then Ok false
  else if bool_decide (filename = "rc") then Ok false
  else if bool_decide (filename ∈ ["exec.sh"; "script"]) then Ok false
  else if bool_decide (filename ∈ ["stderr"; "stdout"; "output"]) then Ok false
  else if truthy include then
    Ok (existsb (fnmatchcase filename) (glob_list include))
  else if truthy exclude then
    Ok (negb (existsb (fnmatchcase filename) (glob_list exclude)))
  else Ok true.

End SafetyFilter.

(** ** Sizes for display *)

(** The number held by [size_in_bytes] inside [human_readable_size]: the
    integer passed in, or, after the first division, a binary float, kept
    here exactly as [m / 2^e]. *)
Inductive pynum : Type :=
  | PyInt (n : Z)
  | PyFloat (m : Z) (e : Z).

(** Conversion of an integer to the nearest binary64 value (ties to even).
    Only the 53-bit significand is modelled; the exponent range is not:
    the integers converted here are byte counts. *)
Definition float_of_int (n : Z) : Z :=
  if n <? 2 ^ 53 then n
  else
    let e := Z.log2 n - 52 in
    let q := n / 2 ^ e in
    let r := n mod 2 ^ e in
    let half := 2 ^ (e - 1) in
    let q' := if r <? half then q
              else if half <? r then q + 1
              else if Z.even q then q else q + 1 in
    q' * 2 ^ e.

(** [size_in_bytes >= 1024.0] and [size_in_bytes /= 1024.0]. Dividing a
    float no smaller than 1024 by 1024 is exact. *)
Definition ge_1024 (x : pynum) : bool :=
  match x with
  | PyInt n => 1024 <=? n
  | PyFloat m e => 2 ^ (e + 10) <=? m
  end.

Definition div_1024 (x : pynum) : pynum :=
  match x with
  | PyInt n => PyFloat (float_of_int n) 10
  | PyFloat m e => PyFloat m (e + 10)
  end.

(** The [while] loop; it runs at most five times because of its second
    condition, so five units of fuel never run out before it exits. *)
Fixpoint reduce_loop (fuel : nat) (size_in_bytes : pynum) (reduce_count : nat)
    : pynum * nat :=
  match fuel with
  | O => (size_in_bytes, reduce_count)
  | S fuel' =>
      if ge_1024 size_in_bytes && bool_decide (reduce_count < 5)%nat
      then reduce_loop fuel' (div_1024 size_in_bytes) (S reduce_count)
      else (size_in_bytes, reduce_count)
  end.

(** Nearest integer to [a / b] for [b > 0], ties to even. *)
Definition div_half_even (a b : Z) : Z :=
  let q := a / b in
  let r := a mod b in
  if 2 * r <? b then q
  else if b <? 2 * r then q + 1
  else if Z.even q then q else q + 1.

Definition two_digits (n : Z) : string :=
  if n <? 10 then "0" +:+ pretty n else pretty n.

(** ["{:.2f}".format(x)] and [str(x)] for the non-negative numbers above. *)
Definition format_2f (x : pynum) : string :=
  let hundredths :=
    match x with
    | PyInt n => n * 100
    | PyFloat m e => div_half_even (m * 100) (2 ^ e)
    end in
  pretty (hundredths / 100) +:+ "." +:+ two_digits (hundredths mod 100).

Definition py_str (x : pynum) : string :=
  match x with
  | PyInt n => pretty n
  | PyFloat _ _ => format_2f x
  end.

Definition units : list string :=
  ["bytes"; "KiB"; "MiB"; "GiB"; "TiB"; "PiB"].

Definition human_readable_size (size_in_bytes : Z) : res string :=
  let '(size_in_bytes, reduce_count) := reduce_loop 5 (PyInt size_in_bytes) 0 in
  let size_str :=
    if bool_decide (0 < reduce_count)%nat then format_2f size_in_bytes
    else py_str size_in_bytes in
  unit ← py_getitem units reduce_count;
  Ok (size_str +:+ " " +:+ unit).

(** ** Effects *)

(** One row of the manifest table, with the columns [fields_for_manifest].
    A key missing from the dictionary gives an empty cell ([None]). *)
Record manifest_row : Type := ManifestRow {
  col_file_path : string;
  col_file_name : string;
  col_to_delete : option bool;
  col_is_in_data_table : bool;
  col_size : Z;
  col_size_human_readable : option string;
  col_md5 : string;
  col_time_updated : Z
}.

(** What a run does to the outside: lines printed, the confirmation prompt
    with the answer read, the CSV file written, the process started with
    what is piped into it. *)
Inductive event : Type :=
  | Print (line : string)
  | Input (prompt : string) (answer : string)
  | ToCsv (path : string) (columns : list string) (rows : list manifest_row)
  | Popen (argv : list string) (stdin : string).

(** What a run finds outside: the buckets of the object store, the
    submissions of the workspace, what the user types at the prompt, the
    clock, and what the delete utility answers. *)
Record world : Type := World {
  gcs : gmap string (list blob);
  submission_list : list string;
  typed_answer : string;
  clock : string;
  gsutil_output : string
}.

(** Computations that may raise and that append to the trace of events. *)
Definition M (A : Type) : Type := list event → res A * list event.

Definition M_ret {A} (a : A) : M A := λ tr, (Ok a, tr).

Definition M_bind {A B} (f : A → M B) (m : M A) : M B :=
  λ tr, match m tr with
        | (Ok a, tr') => f a tr'
        | (Raise e, tr') => (Raise e, tr')
        end.

Module EffMonad.
#[export] Instance M_mret : MRet M := @M_ret.
#[export] Instance M_mbind : MBind M := @M_bind.
End EffMonad.
Import EffMonad.

Definition lift {A} (r : res A) : M A := λ tr, (r, tr).
Definition emit (ev : event) : M unit := λ tr, (Ok tt, tr ++ [ev]).
Definition print (line : string) : M unit := emit (Print line).
Definition exit {A} (code : Z) : M A := lift (Raise (SystemExit code)).
Definition when (b : bool) (m : M unit) : M unit := if b then m else mret tt.

(** Filtering and mapping with a function that may raise. *)
Fixpoint filterM {A} (p : A → res bool) (l : list A) : res (list A) :=
  match l with
  | [] => Ok []
  | x :: l' =>
      b ← p x;
      r ← filterM p l';
      Ok (if b : bool then x :: r else r)
  end.

Fixpoint mapM' {A B} (f : A → res B) (l : list A) : res (list B) :=
  match l with
  | [] => Ok []
  | x :: l' =>
      y ← f x;
      r ← mapM' f l';
      Ok (y :: r)
  end.

Definition py_sum (l : list Z) : Z := foldl Z.add 0 l.

Definition list_bucket_files (w : world) (bucket_name : string)
    (referenced_files : gset string) (verbose : bool)
    : M (pydict file_metadata) :=
  _ ← when verbose (print ("listing contents of bucket gs://" +:+ bucket_name));
  match gcs w !! bucket_name with
  | None =>
      _ ← print "Bucket does not exist!";
      exit 1
  | Some blobs =>
      bucket_dict ← lift (collect_blobs bucket_name referenced_files blobs []);
      _ ← when verbose
            (print ("Found " +:+ pretty (length bucket_dict) +:+
                    " files in bucket " +:+ bucket_name));
      mret bucket_dict
  end.

Definition affirmations : list string := ["Y"; "Yes"; "yes"; "y"].

(** The default value of the parameter [prompt] of [_confirm_prompt]. *)
Definition prompt_text : string :=
  String "010" "Are you sure? [y/yes (default: no)]: ".

Definition _confirm_prompt (w : world) (message : string) : M bool :=
  let prompt := prompt_text in
  let answer := typed_answer w in
  _ ← emit (Input (message +:+ prompt) answer);
  mret (bool_decide (answer ∈ affirmations)).

(** ** The command *)

Record mop_args : Type := MopArgs {
  project : string;
  workspace : string;
  verbose : bool;
  yes : bool;
  dry_run : bool;
  make_manifest : bool;
  keep_one : bool;
  include : option (list string);
  exclude : option (list string)
}.

(** The workspace as retrieved at the start of [mop]. *)
Record workspace_info : Type := WorkspaceInfo {
  bucketName : string;
  name : string
}.

Definition nl : string := String "010" "".

Definition fields_for_manifest : list string :=
  ["file_path"; "file_name"; "to_delete"; "is_in_data_table"; "size";
   "size_human_readable"; "md5"; "time_updated"].

Definition manifest_row_of (fd : file_metadata) : manifest_row :=
  {| col_file_path := file_path fd;
     col_file_name := file_name fd;
     col_to_delete := to_delete fd;
     col_is_in_data_table := is_in_data_table fd;
     col_size := size fd;
     col_size_human_readable := size_human_readable fd;
     col_md5 := md5 fd;
     col_time_updated := time_updated fd |}.

(** [sort_values(by=['to_delete','file_path'], ascending=[False, False])]:
    [True] before [False] before an empty cell, then paths from the largest
    down. *)
Definition to_delete_rank (c : option bool) : Z :=
  match c with
  | Some true => 2
  | Some false => 1
  | None => 0
  end.

Definition manifest_before (r1 r2 : manifest_row) : Prop :=
  to_delete_rank (col_to_delete r2) < to_delete_rank (col_to_delete r1) ∨
  (to_delete_rank (col_to_delete r1) = to_delete_rank (col_to_delete r2) ∧
   String.le (col_file_path r2) (col_file_path r1)).

#[global] Instance manifest_before_dec : RelDecision manifest_before.
Proof. intros r1 r2. unfold manifest_before. apply _. Defined.

Definition sort_values (rows : list manifest_row) : list manifest_row :=
  merge_sort manifest_before rows.

(** [file_metadata] with the keys ['to_delete'] and ['size_human_readable']
    set. *)
Definition with_manifest_fields (md : file_metadata)
    (deletable : bool) (hrs : string) : file_metadata :=
  {| file_name := file_name md;
     file_path := file_path md;
     submission_id := submission_id md;
     size := size md;
     md5 := md5 md;
     time_created := time_created md;
     time_updated := time_updated md;
     unique_key := unique_key md;
     is_in_data_table := is_in_data_table md;
     to_delete := Some deletable;
     size_human_readable := Some hrs |}.

(** The body of the loop that adds the two manifest fields to the entry of
    [full_path] in the master dictionary. *)
Definition annotate (deletable_files : list string)
    (bucket_dict : pydict file_metadata) (full_path : string)
    : res (pydict file_metadata) :=
  file_metadata ← PyDict.get bucket_dict full_path;
  hrs ← human_readable_size (size file_metadata);
  let file_metadata' :=
    with_manifest_fields file_metadata
      (bool_decide (full_path ∈ deletable_files)) hrs in
  Ok (PyDict.set bucket_dict full_path file_metadata').

Fixpoint annotate_all (deletable_files : list string)
    (bucket_dict : pydict file_metadata) (paths : list string)
    : res (pydict file_metadata) :=
  match paths with
  | [] => Ok bucket_dict
  | full_path :: paths' =>
      bucket_dict' ← annotate deletable_files bucket_dict full_path;
      annotate_all deletable_files bucket_dict' paths'
  end.

(** The sets computed in the middle of [mop]; each is named after the
    local variable that holds it. *)
Definition submission_ids (w : world) : gset string :=
  list_to_set (submission_list w).

Definition all_bucket_files (bucket_dict : pydict file_metadata) : gset string :=
  list_to_set (file_path <$> PyDict.values bucket_dict).

Definition eligible_bucket_files (bucket_dict : pydict file_metadata)
    (submission_ids : gset string) : gset string :=
  list_to_set
    (file_path <$>
       filter (λ file_dict, submission_id file_dict ∈ submission_ids)
              (PyDict.values bucket_dict)).

Definition potential_deletable_files (keep_one : bool)
    (bucket_dict : pydict file_metadata) (eligible referenced_files : gset string)
    : res (gset string) :=
  if keep_one then
    files_to_keep ← get_files_to_keep bucket_dict;
    Ok (eligible ∖ files_to_keep)
  else Ok (eligible ∖ referenced_files).

Definition size_line (bucket_dict : pydict file_metadata) (f : string)
    : res string :=
  file_metadata ← PyDict.get bucket_dict f;
  hrs ← human_readable_size (size file_metadata);
  Ok (PyStr.rjust hrs 11 +:+ "  " +:+ f).

Definition size_of (bucket_dict : pydict file_metadata) (f : string) : res Z :=
  file_metadata ← PyDict.get bucket_dict f;
  Ok (size file_metadata).

Section Mop.

Variable fnmatchcase : string → string → bool.

Definition deletable_files (potential : gset string)
    (include exclude : option (list string)) : res (list string) :=
  filterM (λ f, can_delete fnmatchcase f include exclude) (elements potential).

(** The last part of [mop]: start the delete utility and pipe the
    candidate paths into it. *)
Definition run_gsutil (w : world) (args : mop_args)
    (deletable_files : list string) : M Z :=
  let gsrm_args := ["gsutil"; "-m"; "rm"; "-I"] in
  _ ← when (verbose args) (print "Deleting files with gsutil...");
  _ ← emit (Popen gsrm_args (PyStr.join nl deletable_files));
  let result := gsutil_output w in
  _ ← when (verbose args) (print (PyStr.rstrip result));
  mret 0.

Definition write_manifest (w : world) (args : mop_args)
    (bucket_dict : pydict file_metadata) (deletable_files : list string)
    : M unit :=
  bucket_dict' ← lift (annotate_all deletable_files bucket_dict
                         (elements (all_bucket_files bucket_dict)));
  let today := clock w in
  let cleanup_type := if keep_one args then "mop_keep-one" else "mop" in
  let manifest_save_name :=
    cleanup_type +:+ "_manifest_" +:+ project args +:+ "_" +:+
    workspace args +:+ "_" +:+ today +:+ ".csv" in
  let df := sort_values (manifest_row_of <$> PyDict.values bucket_dict') in
  emit (ToCsv manifest_save_name fields_for_manifest df).

(** [mop] from the listing of the bucket on. The workspace record and the
    set of referenced files are what the first part of the command has
    gathered from the workspace attributes and the entity tables. *)
Definition mop (w : world) (ws : workspace_info)
    (referenced_files : gset string) (args : mop_args) : M Z :=
  let bucket := bucketName ws in
  let bucket_prefix := "gs://" +:+ bucket in
  bucket_dict ← list_bucket_files w bucket referenced_files (verbose args);
  let submission_ids := submission_ids w in
  let eligible_bucket_files := eligible_bucket_files bucket_dict submission_ids in
  _ ← when (verbose args)
        (print ("Found " +:+ pretty (base.size eligible_bucket_files) +:+
                " submission-related files in bucket " +:+ bucket));
  potential_deletable_files ←
    lift (potential_deletable_files (keep_one args) bucket_dict
            eligible_bucket_files referenced_files);
  deletable_files ←
    lift (deletable_files potential_deletable_files (include args) (exclude args));
  if bool_decide (length deletable_files = 0%nat) then
    _ ← when (verbose args) (print ("No files to mop in " +:+ name ws));
    mret 0
  else
    sizes ← lift (mapM' (size_of bucket_dict) deletable_files);
    deletable_size ← lift (human_readable_size (py_sum sizes));
    _ ← (if verbose args || dry_run args then
           lines ← lift (mapM' (size_line bucket_dict) deletable_files);
           print ("Found " +:+ pretty (length deletable_files) +:+
                  " files to delete:" +:+ nl +:+
                  PyStr.join nl lines +:+
                  nl +:+ "Total size of deletable files: " +:+
                  deletable_size +:+ nl)
         else mret tt);
    let message :=
      "WARNING: Delete " +:+ pretty (length deletable_files) +:+
      " files totaling " +:+ deletable_size +:+ " in " +:+ bucket_prefix +:+
      " (" +:+ name ws +:+ ")" in
    _ ← when (make_manifest args)
          (write_manifest w args bucket_dict deletable_files);
    if dry_run args then mret 0
    else if yes args then run_gsutil w args deletable_files
    else
      confirmed ← _confirm_prompt w message;
      if confirmed : bool then run_gsutil w args deletable_files
      else mret 0.

End Mop.

(** * Vocabulary of the properties *)

Definition referenced (f : file_metadata) : Prop := is_in_data_table f = true.

(** The entries of an inventory with a given unique content key, in the
    order of the inventory. *)
Definition group_of (k : string) (entries : list file_metadata)
    : list file_metadata :=
  filter (λ f, unique_key f = k) entries.

(** A copy of the file [x.bam] stored at [path], last updated at [updated],
    referenced in the data table or not. All copies share one unique key. *)
Definition copy_of (path : string) (updated : Z) (in_table : bool)
    : file_metadata :=
  {| file_name := "x.bam"; file_path := path; submission_id := "sub1";
     size := 10; md5 := "h"; time_created := 0; time_updated := updated;
     unique_key := "x.bam.h.10"; is_in_data_table := in_table;
     to_delete := None; size_human_readable := None |}.

Definition full_path_of (bucket_name filename : string) : string :=
  "gs://" +:+ bucket_name +:+ "/" +:+ filename.

(** An entry of the dictionary as the loop stores it: keyed by its own
    path, and computed from some blob. *)
Definition listed_entry (bucket_name : string) (referenced_files : gset string)
    (kv : string * file_metadata) : Prop :=
  kv.1 = file_path kv.2 ∧
  ∃ b, blob_metadata bucket_name referenced_files b = Ok kv.2.

Definition inventory (bucket_name : string) (referenced_files : gset string)
    (bucket_dict : pydict file_metadata) : Prop :=
  NoDup (PyDict.keys bucket_dict) ∧
  Forall (listed_entry bucket_name referenced_files) bucket_dict.

(** The file name [can_delete] looks at: [f.rsplit('/', 1)[-1]]. *)
Definition path_filename (f : string) : res string :=
  py_getitem_last (PyStr.rsplit "/" (Some 1%nat) f).

(** The names that the first five tests of [can_delete] single out. *)
Definition protected (filename : string) : bool :=
  PyStr.endswith filename ".log" || PyStr.endswith filename "-rc.txt" ||
  bool_decide (filename ∈ ["rc"; "exec.sh"; "script"; "stderr"; "stdout"; "output"]).

(** The keepers of a group, as a plain list ([choose_keepers] never raises). *)
Definition keepers (G : list file_metadata) : list file_metadata :=
  match choose_keepers G with
  | Ok K => K
  | Raise _ => []
  end.

(** Resolution group by group, the reference for [get_files_to_keep]:
    [choose_keepers] applied once to every complete group of the inventory,
    the groups taken key by key and the members of a group in the order of
    the inventory. *)
Fixpoint union_keepers (groups : list (list file_metadata)) : res (gset string) :=
  match groups with
  | [] => Ok ∅
  | G :: groups' =>
      K ← choose_keepers G;
      rest ← union_keepers groups';
      Ok (list_to_set (file_path <$> K) ∪ rest)
  end.

Definition keepers_by_group (bucket_dict : pydict file_metadata)
    : res (gset string) :=
  let entries := PyDict.values bucket_dict in
  let keys := remove_dups (unique_key <$> entries) in
  union_keepers ((λ k, group_of k entries) <$> keys).

(** What [files_to_keep] holds once the entries [seen] have been
    processed: under every key that occurred, the keepers of its group. *)
Definition keep_inv (seen : list file_metadata)
    (files_to_keep : gmap string (list file_metadata)) : Prop :=
  ∀ k, files_to_keep !! k =
       match group_of k seen with
       | [] => None
       | G => Some (keepers G)
       end.

(** The display size as a plain string ([human_readable_size] never
    raises). *)
Definition display_size (n : Z) : string :=
  match human_readable_size n with
  | Ok s => s
  | Raise _ => ""
  end.

(** An entry of the inventory with its manifest fields. *)
Definition annotated (deletable_files : list string) (md : file_metadata)
    : file_metadata :=
  with_manifest_fields md (bool_decide (file_path md ∈ deletable_files))
    (display_size (size md)).

Definition keyed_by_path (bucket_dict : pydict file_metadata) : Prop :=
  NoDup (PyDict.keys bucket_dict) ∧
  Forall (λ kv, kv.1 = file_path kv.2) bucket_dict.

(** What [mop] prints while it lists the bucket and counts the files under
    submission directories, when it is verbose. *)
Definition listing_events (ws : workspace_info) (args : mop_args)
    (bucket_dict : pydict file_metadata) (eligible : gset string)
    : list event :=
  if verbose args then
    [Print ("listing contents of bucket gs://" +:+ bucketName ws);
     Print ("Found " +:+ pretty (length bucket_dict) +:+
            " files in bucket " +:+ bucketName ws);
     Print ("Found " +:+ pretty (base.size eligible) +:+
            " submission-related files in bucket " +:+ bucketName ws)]
  else [].

Definition total_size (bucket_dict : pydict file_metadata)
    (deletable_files : list string) : res Z :=
  sizes ← mapM' (size_of bucket_dict) deletable_files;
  Ok (py_sum sizes).

(** The report of the candidates: their number, one line per candidate,
    and their total size. *)
Definition report (deletable_files lines : list string) (deletable_size : string)
    : string :=
  "Found " +:+ pretty (length deletable_files) +:+ " files to delete:" +:+
  nl +:+ PyStr.join nl lines +:+ nl +:+
  "Total size of deletable files: " +:+ deletable_size +:+ nl.

Definition warning (ws : workspace_info) (deletable_files : list string)
    (deletable_size : string) : string :=
  "WARNING: Delete " +:+ pretty (length deletable_files) +:+
  " files totaling " +:+ deletable_size +:+ " in " +:+
  ("gs://" +:+ bucketName ws) +:+ " (" +:+ name ws +:+ ")".

Definition manifest_name (w : world) (args : mop_args) : string :=
  (if keep_one args then "mop_keep-one" else "mop") +:+ "_manifest_" +:+
  project args +:+ "_" +:+ workspace args +:+ "_" +:+ clock w +:+ ".csv".

Definition manifest_rows (bucket_dict : pydict file_metadata)
    (deletable_files : list string) : list manifest_row :=
  sort_values
    (manifest_row_of <$>
       (annotated deletable_files <$> PyDict.values bucket_dict)).

Definition manifest_events (w : world) (args : mop_args)
    (bucket_dict : pydict file_metadata) (deletable_files : list string)
    : list event :=
  if make_manifest args then
    [ToCsv (manifest_name w args) fields_for_manifest
       (manifest_rows bucket_dict deletable_files)]
  else [].

Definition gsutil_events (w : world) (args : mop_args)
    (deletable_files : list string) : list event :=
  (if verbose args then [Print "Deleting files with gsutil..."] else []) ++
  [Popen ["gsutil"; "-m"; "rm"; "-I"] (PyStr.join nl deletable_files)] ++
  (if verbose args then [Print (PyStr.rstrip (gsutil_output w))] else []).

Definition closing_events (w : world) (ws : workspace_info) (args : mop_args)
    (deletable_files : list string) (deletable_size : string) : list event :=
  if dry_run args then []
  else if yes args then gsutil_events w args deletable_files
  else
    Input (warning ws deletable_files deletable_size +:+ prompt_text)
          (typed_answer w) ::
    if bool_decide (typed_answer w ∈ affirmations)
    then gsutil_events w args deletable_files
    else [].

(** All events of a run that got past the listing of the bucket. *)
Definition run_events (w : world) (ws : workspace_info) (args : mop_args)
    (bucket_dict : pydict file_metadata) (eligible : gset string)
    (deletable_files lines : list string) (deletable_size : string)
    : list event :=
  listing_events ws args bucket_dict eligible ++
  match deletable_files with
  | [] =>
      if verbose args then [Print ("No files to mop in " +:+ name ws)] else []
  | _ =>
      (if verbose args || dry_run args
       then [Print (report deletable_files lines deletable_size)] else []) ++
      manifest_events w args bucket_dict deletable_files ++
      closing_events w ws args deletable_files deletable_size
  end.

(** The events that delete: the starts of the delete utility. *)
Definition is_delete (ev : event) : bool :=
  match ev with
  | Popen _ _ => true
  | _ => false
  end.

Definition is_manifest (ev : event) : bool :=
  match ev with
  | ToCsv _ _ _ => true
  | _ => false
  end.

Definition deletable_size_of (bucket_dict : pydict file_metadata)
    (deletable_files : list string) : res string :=
  total ← total_size bucket_dict deletable_files;
  human_readable_size total.

(** An object at the root of the bucket, and its entry in the inventory. *)
Definition root_blob : blob :=
  {| blob_name := "foo.txt"; blob_md5_hash := "h"; blob_size := 10;
     blob_time_created := 1; blob_updated := 7 |}.

Definition root_entry : file_metadata :=
  {| file_name := "foo.txt"; file_path := "gs://b/foo.txt";
     submission_id := "foo.txt"; size := 10; md5 := "h";
     time_created := 1; time_updated := 7; unique_key := "foo.txt.h.10";
     is_in_data_table := false; to_delete := None;
     size_human_readable := None |}.

(** No two distinct unreferenced copies of one file carry the same
    [time_updated]. *)
Definition no_ties (entries : list file_metadata) : Prop :=
  ∀ f g, f ∈ entries → g ∈ entries → unique_key f = unique_key g →
         ¬ referenced f → ¬ referenced g →
         time_updated f = time_updated g → f = g.

(** The entries kept, told without the order of the inventory: the
    referenced ones, and the unreferenced one that is as recent as every
    copy of it when no copy is referenced. *)
Definition kept_entry (entries : list file_metadata) (f : file_metadata)
    : Prop :=
  f ∈ entries ∧
  (referenced f ∨
   ∀ g, g ∈ entries → unique_key g = unique_key f →
        ¬ referenced g ∧ time_updated g ≤ time_updated f).

(** Two unreferenced copies of one file with the same [time_updated]. *)
Definition tied_first : file_metadata := copy_of "gs://b/sub1/x.bam" 5 false.
Definition tied_second : file_metadata := copy_of "gs://b/sub2/x.bam" 5 false.

(** A world with one bucket [b] holding a referenced file and an older,
    unreferenced copy of it under the directory of submission [sub1], the
    captured standard output of a job, and a file of another directory. *)
Definition sample_blobs : list blob :=
  [ Blob "sub1/x.bam" "h" 10 1 5;
    Blob "sub1/old/x.bam" "h" 10 1 3;
    Blob "sub1/stdout" "g" 2048 1 7;
    Blob "unknown123/foo.txt" "k" 4 1 9 ].

Definition sample_world (answer : string) : world :=
  {| gcs := {[ "b" := sample_blobs ]};
     submission_list := ["sub1"];
     typed_answer := answer;
     clock := "2024-01-01_00-00-00";
     gsutil_output := "Removing gs://b/sub1/old/x.bam..." |}.

Definition sample_workspace : workspace_info :=
  {| bucketName := "b"; name := "ws" |}.

Definition sample_referenced : gset string := {[ "gs://b/sub1/x.bam" ]}.

Definition plain_args : mop_args :=
  {| project := "p"; workspace := "ws"; verbose := false; yes := false;
     dry_run := false; make_manifest := false; keep_one := false;
     include := None; exclude := None |}.

Definition with_dry_run (args : mop_args) : mop_args :=
  {| project := project args; workspace := workspace args;
     verbose := verbose args; yes := yes args; dry_run := true;
     make_manifest := make_manifest args; keep_one := keep_one args;
     include := include args; exclude := exclude args |}.

Definition with_make_manifest (b : bool) (args : mop_args) : mop_args :=
  {| project := project args; workspace := workspace args;
     verbose := verbose args; yes := yes args; dry_run := dry_run args;
     make_manifest := b; keep_one := keep_one args;
     include := include args; exclude := exclude args |}.

Definition with_include (globs : list string) (args : mop_args) : mop_args :=
  {| project := project args; workspace := workspace args;
     verbose := verbose args; yes := yes args; dry_run := dry_run args;
     make_manifest := make_manifest args; keep_one := keep_one args;
     include := Some globs; exclude := exclude args |}.

(** Both copies of the sample file are referenced: nothing is left to mop. *)
Definition all_referenced : gset string :=
  {[ "gs://b/sub1/x.bam"; "gs://b/sub1/old/x.bam" ]}.

(** * The retrieval of the references, and the load files *)

(** ** The references of the workspace *)

(** The exceptions of the code that talks to the server, beside the ones
    above: iterating over a value that is no container, dividing by zero,
    and the error [_check_response_code] raises for an unexpected status. *)
Inductive error : Type :=
  | Builtin (e : exn)
  | TypeError
  | ZeroDivisionError
  | FireCloudServerError (code : Z).

Inductive outcome (A : Type) : Type :=
  | Returns (a : A)
  | Raises (e : error).
Arguments Returns {A} a.
Arguments Raises {A} e.

Definition outcome_bind {A B} (f : A → outcome B) (m : outcome A) : outcome B :=
  match m with
  | Returns a => f a
  | Raises e => Raises e
  end.

Module OutcomeMonad.
#[export] Instance outcome_ret : MRet outcome := @Returns.
#[export] Instance outcome_mbind : MBind outcome := @outcome_bind.
End OutcomeMonad.
Import OutcomeMonad.

Definition of_res {A} (r : res A) : outcome A :=
  match r with
  | Ok a => Returns a
  | Raise e => Raises (Builtin e)
  end.

(** A decoded JSON value: what [r.json()] returns. *)
#[warnings="-register-all"] Inductive json : Type :=
  | JNull
  | JBool (b : bool)
  | JNumber (x : pynum)
  | JString (s : string)
  | JList (l : list json)
  | JDict (d : pydict json).

(** [attr.get('itemsType') == 'AttributeValue'] *)
Definition is_attribute_list (d : pydict json) : bool :=
  match PyDict.get d "itemsType" with
  | Ok (JString s) => bool_decide (s = "AttributeValue")
  | _ => false
  end.

(** The last branch of [update_referenced_files], for a string. *)
Definition add_reference (bucket_prefix : string)
    (referenced_files : gset string) (attr : string) : gset string :=
  if PyStr.startswith attr bucket_prefix
  then referenced_files ∪ {[ attr ]}
  else referenced_files.

(** The characters of a string, as a [for] loop over it yields them. *)
Definition characters (s : string) : list string :=
  (λ c, String c "") <$> list_ascii_of_string s.

(** The body of the loop of [update_referenced_files] for one [attr]. The
    recursive calls are loops over the members of [attr]: [each] over a
    list, [each_value] over the values of a dictionary, [items] over
    [attr['items']], which may be a list, a dictionary (the loop yields its
    keys), a string (the loop yields its characters) or a value that cannot
    be iterated over. *)
Fixpoint update_referenced_file (bucket_prefix : string)
    (referenced_files : gset string) (attr : json) {struct attr}
    : outcome (gset string) :=
  let fix each (referenced_files : gset string) (attrs : list json)
      {struct attrs} : outcome (gset string) :=
    match attrs with
    | [] => Returns referenced_files
    | attr :: attrs' =>
        match update_referenced_file bucket_prefix referenced_files attr with
        | Returns referenced_files' => each referenced_files' attrs'
        | Raises e => Raises e
        end
    end in
  let fix each_value (referenced_files : gset string) (d : pydict json)
      {struct d} : outcome (gset string) :=
    match d with
    | [] => Returns referenced_files
    | (_, attr) :: d' =>
        match update_referenced_file bucket_prefix referenced_files attr with
        | Returns referenced_files' => each_value referenced_files' d'
        | Raises e => Raises e
        end
    end in
  let fix items (d : pydict json) {struct d} : outcome (gset string) :=
    match d with
    | [] => Raises (Builtin KeyError)
    | (k, v) :: d' =>
        if decide (k = "items") then
          match v with
          | JList l => each referenced_files l
          | JDict d'' =>
              Returns (foldl (add_reference bucket_prefix) referenced_files
                         (PyDict.keys d''))
          | JString s =>
              Returns (foldl (add_reference bucket_prefix) referenced_files
                         (characters s))
          | _ => Raises TypeError
          end
        else items d'
    end in
  match attr with
  | JDict d =>
      if is_attribute_list d then items d
      else each_value referenced_files d
  | JList l => each referenced_files l
  | JString s => Returns (add_reference bucket_prefix referenced_files s)
  | _ => Returns referenced_files
  end.

(** [update_referenced_files(referenced_files, attrs, bucket_prefix)] for a
    list [attrs]; the set is passed on from one member to the next. *)
Fixpoint update_referenced_files (bucket_prefix : string)
    (referenced_files : gset string) (attrs : list json)
    : outcome (gset string) :=
  match attrs with
  | [] => Returns referenced_files
  | attr :: attrs' =>
      referenced_files' ←
        update_referenced_file bucket_prefix referenced_files attr;
      update_referenced_files bucket_prefix referenced_files' attrs'
  end.
(** ** The requests to the server *)

(** A response of the server: its status and its decoded body. *)
Record response (A : Type) : Type := Response {
  status_code : Z;
  r_json : A
}.
Arguments Response {A} status_code r_json.
Arguments status_code {A} r.
Arguments r_json {A} r.

(** [fapi._check_response_code(r, code)] *)
Definition _check_response_code {A} (r : response A) (code : Z) : outcome unit :=
  if bool_decide (status_code r = code) then Returns tt
  else Raises (FireCloudServerError (status_code r)).

(** An entity of a data table; the code reads its attributes only. *)
Record entity : Type := Entity {
  attributes : pydict json
}.

(** The body of a response of the entity query: the keys
    [resultMetadata.filteredPageCount] and [results]. *)
Record entity_page : Type := EntityPage {
  filteredPageCount : Z;
  results : list entity
}.

(** The body of the response of [get_workspace], with the fields asked
    for: [workspace.bucketName], [workspace.name], [workspace.attributes]. *)
Record workspace_body : Type := WorkspaceBody {
  ws_info : workspace_info;
  ws_attributes : pydict json
}.

(** The server, as the three requests of the first part of [mop] see it;
    the arguments are the ones of the functions of [fapi]. *)
Record firecloud : Type := FireCloud {
  get_workspace : string → string → string → response workspace_body;
  list_entity_types : string → string → response (pydict json);
  get_entities_query :
    string → string → string → Z → Z → string → option string →
    response entity_page
}.

(** The [while] loop of [_entity_paginator]; it makes at most
    [total_pages - 1] turns, which is the [fuel] it is started with. *)
Fixpoint remaining_pages (fc : firecloud) (namespace workspace etype : string)
    (page_size : Z) (filter_terms : option string) (sort_direction : string)
    (total_pages : Z) (fuel : nat) (page : Z) (all_entities : list entity)
    : outcome (list entity) :=
  match fuel with
  | O => Returns all_entities
  | S fuel' =>
      if bool_decide (page ≤ total_pages) then
        let r := get_entities_query fc namespace workspace etype page
                   page_size sort_direction filter_terms in
        _ ← _check_response_code r 200;
        let entities := results (r_json r) in
        remaining_pages fc namespace workspace etype page_size filter_terms
          sort_direction total_pages fuel' (page + 1)
          (all_entities ++ entities)
      else Returns all_entities
  end.

Definition _entity_paginator (fc : firecloud) (namespace workspace etype : string)
    (page_size : Z) (filter_terms : option string) (sort_direction : string)
    : outcome (list entity) :=
  let page := 1 in
  let all_entities := [] in
  let r := get_entities_query fc namespace workspace etype page
             page_size sort_direction filter_terms in
  _ ← _check_response_code r 200;
  let response_body := r_json r in
  let total_pages := filteredPageCount response_body in
  let entities := results response_body in
  let all_entities := all_entities ++ entities in
  let page := 2 in
  remaining_pages fc namespace workspace etype page_size filter_terms
    sort_direction total_pages (Z.to_nat (total_pages - 1)) page all_entities.

(** ** The whole command *)

(** Commands that may raise any of the errors and that append to the
    trace of events. *)
Definition Cmd (A : Type) : Type := list event → outcome A * list event.

Definition Cmd_ret {A} (a : A) : Cmd A := λ tr, (Returns a, tr).

Definition Cmd_bind {A B} (f : A → Cmd B) (m : Cmd A) : Cmd B :=
  λ tr, match m tr with
        | (Returns a, tr') => f a tr'
        | (Raises e, tr') => (Raises e, tr')
        end.

Module CmdMonad.
#[export] Instance Cmd_mret : MRet Cmd := @Cmd_ret.
#[export] Instance Cmd_mbind : MBind Cmd := @Cmd_bind.
End CmdMonad.
Import CmdMonad.

Definition of_outcome {A} (r : outcome A) : Cmd A := λ tr, (r, tr).

Definition of_M {A} (m : M A) : Cmd A :=
  λ tr, match m tr with
        | (r, tr') => (of_res r, tr')
        end.

(** The loop over the entities of one type. *)
Fixpoint scan_entities (bucket_prefix : string) (referenced_files : gset string)
    (entities : list entity) : outcome (gset string) :=
  match entities with
  | [] => Returns referenced_files
  | entity :: entities' =>
      referenced_files' ←
        update_referenced_files bucket_prefix referenced_files
          (PyDict.values (attributes entity));
      scan_entities bucket_prefix referenced_files' entities'
  end.

(** The loop over the entity types. *)
Fixpoint scan_entity_types (fc : firecloud) (args : mop_args)
    (bucket_prefix : string) (referenced_files : gset string)
    (entity_types : list string) : Cmd (gset string) :=
  match entity_types with
  | [] => mret referenced_files
  | etype :: entity_types' =>
      _ ← of_M (when (verbose args)
                  (print ("Getting annotations for " +:+ etype +:+
                          " entities...")));
      entities ← of_outcome (_entity_paginator fc (project args)
                               (workspace args) etype 1000 None "asc");
      referenced_files' ←
        of_outcome (scan_entities bucket_prefix referenced_files entities);
      scan_entity_types fc args bucket_prefix referenced_files' entity_types'
  end.

(** The loop over the values of the workspace attributes: strings only. *)
Definition add_workspace_attribute (bucket_prefix : string)
    (referenced_files : gset string) (value : json) : gset string :=
  match value with
  | JString s => add_reference bucket_prefix referenced_files s
  | _ => referenced_files
  end.

Section MopCommand.

Variable fnmatchcase : string → string → bool.

(** [mop(args)]: the workspace and its references are retrieved from the
    server, then the bucket is cleaned as above. *)
Definition mop_command (fc : firecloud) (w : world) (args : mop_args) : Cmd Z :=
  _ ← of_M (when (verbose args) (print "Retrieving workspace information..."));
  let fields := "workspace.bucketName,workspace.name,workspace.attributes" in
  let r := get_workspace fc (project args) (workspace args) fields in
  _ ← of_outcome (_check_response_code r 200);
  let workspace_json := r_json r in
  let bucket := bucketName (ws_info workspace_json) in
  let bucket_prefix := "gs://" +:+ bucket in
  let workspace_name := name (ws_info workspace_json) in
  _ ← of_M (when (verbose args)
              (print (workspace_name +:+ " -- " +:+ bucket_prefix)));
  let referenced_files :=
    foldl (add_workspace_attribute bucket_prefix) ∅
          (PyDict.values (ws_attributes workspace_json)) in
  let r := list_entity_types fc (project args) (workspace args) in
  _ ← of_outcome (_check_response_code r 200);
  let entity_types := PyDict.keys (r_json r) in
  referenced_files ←
    scan_entity_types fc args bucket_prefix referenced_files entity_types;
  _ ← of_M (when (verbose args)
              (print ("Found " +:+ pretty (base.size referenced_files) +:+
                      " referenced files in workspace " +:+ workspace_name)));
  of_M (mop fnmatchcase w (ws_info workspace_json) referenced_files args).

End MopCommand.

(** ** Load files *)

(** [s.replace(old, new)] for a non-empty [old]: the occurrences of [old]
    are replaced from the left, without overlap. [skip] counts the
    characters of an occurrence found that are still to be passed over. *)
Fixpoint replace_from (old new : string) (skip : nat) (s : string) : string :=
  match s with
  | EmptyString => EmptyString
  | String c s' =>
      match skip with
      | S skip' => replace_from old new skip' s'
      | O =>
          if String.prefix old s
          then new +:+ replace_from old new (String.length old - 1) s'
          else String c (replace_from old new 0 s')
      end
  end.

Definition py_replace (s old new : string) : string := replace_from old new 0 s.

Definition tab : ascii := "009".

Definition entity_id_columns : list string :=
  ["participant_id"; "participant_set_id"; "sample_id"; "sample_set_id";
   "pair_id"; "pair_set_id"].

Definition _valid_headerline (l : string) (model : string) : res bool :=
  if bool_decide (l = "") then Ok false
  else
    let headers := PyStr.split tab None l in
    first_col ← py_getitem headers 0;
    let tsplit := PyStr.split ":" None first_col in
    if bool_decide (length tsplit ≠ 2%nat) then Ok false
    else
      tsplit_0 ← py_getitem tsplit 0;
      if bool_decide (tsplit_0 ∈ ["entity"; "update"]) then
        tsplit_1 ← py_getitem tsplit 1;
        if bool_decide (model = "flexible")
        then Ok (PyStr.endswith tsplit_1 "_id")
        else Ok (bool_decide (tsplit_1 ∈ entity_id_columns))
      else if bool_decide (tsplit_0 = "membership") then
        if bool_decide (length headers < 2)%nat then Ok false
        else
          tsplit_1 ← py_getitem tsplit 1;
          headers_1 ← py_getitem headers 1;
          Ok (bool_decide (py_replace tsplit_1 "set_" "" = headers_1))
      else Ok false.

(** [range(start, stop, step)] for a step that is not zero. *)
Definition py_range (start stop step : Z) : list Z :=
  let count :=
    if bool_decide (0 < step) then (stop - start + step - 1) `div` step
    else (start - stop - step - 1) `div` (- step) in
  (λ k, start + k * step) <$> seqZ 0 count.

(** [l[i:j]] for bounds that are not negative. *)
Definition py_slice {A} (l : list A) (i j : Z) : list A :=
  drop (Z.to_nat i) (take (Z.to_nat j) l).

(** What a load does to the outside: lines on the standard output and on
    the standard error, and the uploads to the server. *)
Inductive load_event : Type :=
  | Stdout (line : string)
  | Stderr (line : string)
  | UploadEntities (project workspace entity_data model : string).

Section BatchLoad.

(** The server: the response to the upload that a run makes as its
    [batch]-th. *)
Variable upload_entities : Z → string → string → string → string → response unit.

(** The setting [fcconfig.verbosity], as a truth value. *)
Variable verbosity : bool.

(** [int(n / chunk_size)] for a divisor that is not zero: the division of
    the language, in floating point, and the truncation of its result. *)
Variable int_of_quotient : Z → Z → Z.

(** The loop of [_batch_load] over the offsets of the chunks. *)
Fixpoint upload_chunks (project workspace headerline : string)
    (entity_data : list string) (chunk_size : Z) (model : string)
    (etype update_type : string) (total : Z)
    (offsets : list Z) (batch : Z) (tr : list load_event)
    : outcome unit * list load_event :=
  match offsets with
  | [] => (Returns tt, tr)
  | i :: offsets' =>
      let batch := batch + 1 in
      let tr :=
        if verbosity then
          tr ++ [Stdout ("Updating " +:+ etype +:+ " " +:+ update_type +:+
                         "s " +:+ pretty (i + 1) +:+ "-" +:+
                         pretty (Z.min (i + chunk_size)
                                   (Z.of_nat (length entity_data))) +:+
                         ", batch " +:+ pretty batch +:+ "/" +:+ pretty total)]
        else tr in
      let this_data :=
        headerline +:+ nl +:+
        PyStr.join nl (py_slice entity_data i (i + chunk_size)) in
      let r := upload_entities batch project workspace this_data model in
      let tr := tr ++ [UploadEntities project workspace this_data model] in
      match _check_response_code r 200 with
      | Returns _ =>
          upload_chunks project workspace headerline entity_data chunk_size
            model etype update_type total offsets' batch tr
      | Raises e => (Raises e, tr)
      end
  end.

Definition _batch_load (project workspace headerline : string)
    (entity_data : list string) (chunk_size : Z) (model : string)
    (tr : list load_event) : outcome Z * list load_event :=
  let tr :=
    if verbosity then
      tr ++ [Stdout ("Batching " +:+ pretty (length entity_data) +:+
                     " updates to Firecloud...")]
    else tr in
  match _valid_headerline headerline model with
  | Raise e => (Raises (Builtin e), tr)
  | Ok false =>
      (Returns 1,
       tr ++ [Stderr ("Invalid loadfile header:" +:+ nl +:+ headerline)])
  | Ok true =>
      let update_type :=
        if PyStr.startswith headerline "membership" then "membership"
        else "entity" in
      match
        first_col ← py_getitem (PyStr.split tab None headerline) 0;
        tsplit_1 ← py_getitem (PyStr.split ":" None first_col) 1;
        Ok (py_replace tsplit_1 "_id" "")
      with
      | Raise e => (Raises (Builtin e), tr)
      | Ok etype =>
          if bool_decide (chunk_size = 0) then (Raises ZeroDivisionError, tr)
          else
            let total :=
              int_of_quotient (Z.of_nat (length entity_data)) chunk_size + 1 in
            let batch := 0 in
            match
              upload_chunks project workspace headerline entity_data
                chunk_size model etype update_type total
                (py_range 0 (Z.of_nat (length entity_data)) chunk_size)
                batch tr
            with
            | (Returns _, tr') => (Returns 0, tr')
            | (Raises e, tr') => (Raises e, tr')
            end
      end
  end.

End BatchLoad.

(** * Further vocabulary *)

(** The events that ask the user: the confirmation prompts. *)
Definition is_prompt (ev : event) : bool :=
  match ev with
  | Input _ _ => true
  | _ => false
  end.

(** The arguments [mop] starts the delete utility with. *)
Definition gsrm_args : list string := ["gsutil"; "-m"; "rm"; "-I"].

(** A blob that is a file, not the placeholder of a directory. *)
Definition is_file (b : blob) : Prop := PyStr.endswith (blob_name b) "/" = false.

Definition with_keep_one (args : mop_args) : mop_args :=
  {| project := project args; workspace := workspace args;
     verbose := verbose args; yes := yes args; dry_run := dry_run args;
     make_manifest := make_manifest args; keep_one := true;
     include := include args; exclude := exclude args |}.

(** ** Vocabulary of the references *)

(** What a [for] loop over a value yields; [None] for a value that cannot
    be iterated over. *)
Definition members (v : json) : option (list json) :=
  match v with
  | JList l => Some l
  | JDict d => Some (JString <$> PyDict.keys d)
  | JString s => Some (JString <$> characters s)
  | _ => None
  end.

(** The string [s] occurs in the attribute value [attr]: as the value
    itself, as a member of a list, as a value of a dictionary, or among the
    items of a dictionary with [itemsType] [AttributeValue]. *)
Inductive mentions : json → string → Prop :=
  | mentions_string s : mentions (JString s) s
  | mentions_list l attr s :
      attr ∈ l → mentions attr s → mentions (JList l) s
  | mentions_dict d attr s :
      is_attribute_list d = false →
      attr ∈ PyDict.values d → mentions attr s → mentions (JDict d) s
  | mentions_items d v l attr s :
      is_attribute_list d = true →
      PyDict.get d "items" = Ok v → members v = Some l →
      attr ∈ l → mentions attr s → mentions (JDict d) s.

(** Attribute values the scan gets through: every dictionary with
    [itemsType] [AttributeValue] in them has [items], and these can be
    iterated over. *)
Inductive well_formed : json → Prop :=
  | well_formed_null : well_formed JNull
  | well_formed_bool b : well_formed (JBool b)
  | well_formed_number x : well_formed (JNumber x)
  | well_formed_string s : well_formed (JString s)
  | well_formed_list l :
      (∀ attr, attr ∈ l → well_formed attr) → well_formed (JList l)
  | well_formed_dict d :
      is_attribute_list d = false →
      (∀ attr, attr ∈ PyDict.values d → well_formed attr) →
      well_formed (JDict d)
  | well_formed_items d v l :
      is_attribute_list d = true →
      PyDict.get d "items" = Ok v → members v = Some l →
      (∀ attr, attr ∈ l → well_formed attr) → well_formed (JDict d).

(** The entity query of [mop] for one page of one type, and all entities
    of a type as [mop] asks for them. *)
Definition entity_query (fc : firecloud) (namespace workspace etype : string)
    (page_size : Z) (filter_terms : option string) (sort_direction : string)
    (page : Z) : response entity_page :=
  get_entities_query fc namespace workspace etype page page_size
    sort_direction filter_terms.

Definition entities_of (fc : firecloud) (args : mop_args) (etype : string)
    : outcome (list entity) :=
  _entity_paginator fc (project args) (workspace args) etype 1000 None "asc".

Definition workspace_of (fc : firecloud) (args : mop_args)
    : response workspace_body :=
  get_workspace fc (project args) (workspace args)
    "workspace.bucketName,workspace.name,workspace.attributes".

Definition entity_types_of (fc : firecloud) (args : mop_args)
    : response (pydict json) :=
  list_entity_types fc (project args) (workspace args).

(** The path [p] is referenced by the workspace: it is the value of a
    workspace attribute, or an attribute of an entity mentions it. *)
Definition workspace_reference (fc : firecloud) (args : mop_args) (p : string)
    : Prop :=
  JString p ∈ PyDict.values (ws_attributes (r_json (workspace_of fc args))) ∨
  ∃ etype entities entity attr,
    etype ∈ PyDict.keys (r_json (entity_types_of fc args)) ∧
    entities_of fc args etype = Returns entities ∧
    entity ∈ entities ∧
    attr ∈ PyDict.values (attributes entity) ∧
    mentions attr p.

(** The references gathered from the entities of the given types. *)
Fixpoint entity_references (fc : firecloud) (args : mop_args)
    (bucket_prefix : string) (referenced_files : gset string)
    (entity_types : list string) : outcome (gset string) :=
  match entity_types with
  | [] => Returns referenced_files
  | etype :: entity_types' =>
      entities ← entities_of fc args etype;
      referenced_files' ← scan_entities bucket_prefix referenced_files entities;
      entity_references fc args bucket_prefix referenced_files' entity_types'
  end.

(** Events that change nothing: no process started, no file written, no
    question asked. *)
Definition harmless (ev : event) : Prop :=
  is_delete ev = false ∧ is_manifest ev = false ∧ is_prompt ev = false.
(** What the scan of [attrs] adds to the set: the strings that start with
    the prefix and that one of [attrs] mentions. *)
Definition scanned (bucket_prefix : string) (referenced_files : gset string)
    (attrs : list json) (referenced_files' : gset string) : Prop :=
  ∀ s, s ∈ referenced_files' ↔
       s ∈ referenced_files ∨
       (PyStr.startswith s bucket_prefix = true ∧
        ∃ attr, attr ∈ attrs ∧ mentions attr s).

(** The scan of [attrs] returns exactly when they are well formed, and then
    with the set [scanned]. *)
Definition scan_correct (bucket_prefix : string) (attrs : list json) : Prop :=
  ∀ referenced_files,
    (Forall well_formed attrs ↔
     ∃ referenced_files',
       update_referenced_files bucket_prefix referenced_files attrs =
       Returns referenced_files') ∧
    ∀ referenced_files',
      update_referenced_files bucket_prefix referenced_files attrs =
      Returns referenced_files' →
      scanned bucket_prefix referenced_files attrs referenced_files'.
(** The prefix of the paths of the bucket of the workspace. *)
Definition bucket_prefix_of (fc : firecloud) (args : mop_args) : string :=
  "gs://" +:+ bucketName (ws_info (r_json (workspace_of fc args))).

(** The set of referenced files the first part of [mop] gathers, or the
    error it raises. *)
Definition gather (fc : firecloud) (args : mop_args) : outcome (gset string) :=
  _ ← _check_response_code (workspace_of fc args) 200;
  _ ← _check_response_code (entity_types_of fc args) 200;
  entity_references fc args (bucket_prefix_of fc args)
    (foldl (add_workspace_attribute (bucket_prefix_of fc args)) ∅
       (PyDict.values (ws_attributes (r_json (workspace_of fc args)))))
    (PyDict.keys (r_json (entity_types_of fc args))).

(** The entities of the given types can be retrieved and scanned. *)
Definition scannable (fc : firecloud) (args : mop_args)
    (entity_types : list string) : Prop :=
  ∀ etype, etype ∈ entity_types →
    ∃ entities,
      entities_of fc args etype = Returns entities ∧
      ∀ entity attr,
        entity ∈ entities → attr ∈ PyDict.values (attributes entity) →
        well_formed attr.

(** The server answers all that the first part of [mop] asks for. *)
Definition retrievable (fc : firecloud) (args : mop_args) : Prop :=
  status_code (workspace_of fc args) = 200 ∧
  status_code (entity_types_of fc args) = 200 ∧
  scannable fc args (PyDict.keys (r_json (entity_types_of fc args))).

(** A workspace on the server, for the bucket of [sample_world]: one
    workspace attribute and one table of two pages, whose entities refer to
    two files of the bucket, one of them through a list of values. *)
Definition sample_page (page : Z) : entity_page :=
  {| filteredPageCount := 2;
     results :=
       if bool_decide (page = 1)
       then [ Entity [("bam", JString "gs://b/sub1/x.bam")] ]
       else [ Entity [("files",
                       JDict [("itemsType", JString "AttributeValue");
                              ("items", JList [JString "gs://b/sub1/old/x.bam";
                                               JString "gs://other/y"])])] ] |}.

Definition sample_firecloud (status : Z) : firecloud :=
  {| get_workspace := λ _ _ _,
       Response status
         {| ws_info := sample_workspace;
            ws_attributes := [("note", JString "hello");
                              ("ref", JString "gs://b/unknown123/foo.txt")] |};
     list_entity_types := λ _ _, Response 200 [("sample", JDict [])];
     get_entities_query := λ _ _ _ page _ _ _, Response 200 (sample_page page) |}.

(** ** Vocabulary of the load files *)

(** The data of the uploads among the events, in their order. *)
Definition uploads (evs : list load_event) : list string :=
  omap (λ ev, match ev with
              | UploadEntities _ _ entity_data _ => Some entity_data
              | _ => None
              end) evs.

(** The text uploaded for a chunk of rows. *)
Definition chunk_data (headerline : string) (chunk : list string) : string :=
  headerline +:+ nl +:+ PyStr.join nl chunk.

(** A server that accepts every upload, and one that refuses them. *)
Definition accepting : Z → string → string → string → string → response unit :=
  λ _ _ _ _ _, Response 200 tt.

Definition refusing_from (k : Z)
    : Z → string → string → string → string → response unit :=
  λ batch _ _ _ _, Response (if bool_decide (batch < k) then 200 else 500) tt.

Definition sample_header : string :=
  "entity:sample_id" +:+ String tab "participant".

Definition sample_rows : list string :=
  ["s1" +:+ String tab "p1"; "s2" +:+ String tab "p1";
   "s3" +:+ String tab "p2"].

(** * Properties *)

(** ** Duplicate groups and [choose_keepers] *)

Lemma forallb_referenced (G : list file_metadata) :
  forallb is_in_data_table G = true ↔ Forall referenced G.
Proof.
  unfold referenced. induction G as [|f G IH]; simpl.
  - split; [constructor | done].
  - rewrite andb_true_iff, Forall_cons, IH. done.
Qed.

Lemma existsb_referenced (G : list file_metadata) :
  existsb is_in_data_table G = true ↔ Exists referenced G.
Proof.
  unfold referenced. induction G as [|f G IH]; simpl.
  - split; [done | by intros ?%Exists_nil].
  - rewrite orb_true_iff, Exists_cons, IH. done.
Qed.

Lemma existsb_unreferenced (G : list file_metadata) :
  existsb is_in_data_table G = false ↔ Forall (λ f, ¬ referenced f) G.
Proof.
  unfold referenced. induction G as [|f G IH]; simpl.
  - split; [constructor | done].
  - rewrite orb_false_iff, Forall_cons, IH.
    destruct (is_in_data_table f); intuition congruence.
Qed.

Section MaxFrom.

Context {A : Type} (key : A → Z).

Lemma max_from_elem (best : A) (l : list A) :
  max_from key best l ∈ best :: l.
Proof.
  revert best. induction l as [|x l IH]; intros best; simpl.
  - apply elem_of_cons. by left.
  - specialize (IH (if key best <? key x then x else best)).
    rewrite !elem_of_cons in IH. rewrite !elem_of_cons.
    destruct (key best <? key x); tauto.
Qed.

Lemma max_from_lower (best : A) (l : list A) :
  key best ≤ key (max_from key best l).
Proof.
  revert best. induction l as [|x l IH]; intros best; simpl; [lia|].
  specialize (IH (if key best <? key x then x else best)).
  destruct (Z.ltb_spec (key best) (key x)); lia.
Qed.

Lemma max_from_upper (best : A) (l : list A) (y : A) :
  y ∈ best :: l → key y ≤ key (max_from key best l).
Proof.
  revert best. induction l as [|x l IH]; intros best Hy; simpl.
  - apply list_elem_of_singleton in Hy as ->. lia.
  - apply elem_of_cons in Hy as [->|Hy].
    + etrans; [|apply max_from_lower].
      destruct (Z.ltb_spec (key best) (key x)); lia.
    + apply elem_of_cons in Hy as [->|Hy].
      * etrans; [|apply max_from_lower].
        destruct (Z.ltb_spec (key best) (key x)); lia.
      * apply IH. apply elem_of_cons. by right.
Qed.

(** Appending one element: the running maximum is compared once more. *)
Lemma max_from_snoc (best : A) (l : list A) (x : A) :
  max_from key best (l ++ [x]) =
  let m := max_from key best l in if key m <? key x then x else m.
Proof. revert best. induction l as [|y l IH]; intros best; simpl; auto. Qed.

End MaxFrom.

(** [choose_keepers] never raises: [max] is only reached with a group in
    which some member is unreferenced, hence a non-empty one. *)
Lemma choose_keepers_total (G : list file_metadata) :
  ∃ K, choose_keepers G = Ok K.
Proof.
  unfold choose_keepers.
  destruct (forallb is_in_data_table G) eqn:Hall; [eauto|].
  destruct (existsb is_in_data_table G); [eauto|].
  destruct G as [|f G]; [done|]. simpl. eauto.
Qed.

(** The three cases of [choose_keepers], as equations. *)
Lemma choose_keepers_all (G : list file_metadata) :
  Forall referenced G → choose_keepers G = Ok G.
Proof.
  intros H%forallb_referenced. unfold choose_keepers. by rewrite H.
Qed.

Lemma choose_keepers_some (G : list file_metadata) :
  Exists referenced G → ¬ Forall referenced G →
  choose_keepers G = Ok (filter referenced G).
Proof.
  intros Hex%existsb_referenced Hall. unfold choose_keepers.
  destruct (forallb is_in_data_table G) eqn:E.
  - by apply forallb_referenced in E.
  - rewrite Hex. f_equal. apply list_filter_iff. intros f. unfold referenced.
    destruct (is_in_data_table f); simpl; intuition congruence.
Qed.

Lemma choose_keepers_none (f : file_metadata) (G : list file_metadata) :
  Forall (λ g, ¬ referenced g) (f :: G) →
  choose_keepers (f :: G) = Ok [max_from time_updated f G].
Proof.
  intros Hnone. pose proof Hnone as Hex%existsb_unreferenced.
  unfold choose_keepers. rewrite Hex.
  destruct (forallb is_in_data_table (f :: G)) eqn:E; [|done].
  apply forallb_referenced, Forall_cons in E as [E _].
  by apply Forall_cons in Hnone as [Hf _].
Qed.

(** C1. For a group of duplicates [G]: when every member is referenced in
    the data table, [choose_keepers] keeps all of [G]; when some but not all
    are, it keeps exactly the referenced members; when none is (and the
    group has a member), it keeps one entry, a member of the group whose
    [time_updated] is the latest of the group. *)
Theorem choose_keepers_policy (G : list file_metadata) :
  (Forall referenced G → choose_keepers G = Ok G) ∧
  (Exists referenced G → ¬ Forall referenced G →
     choose_keepers G = Ok (filter referenced G)) ∧
  (G ≠ [] → Forall (λ f, ¬ referenced f) G →
     ∃ m, choose_keepers G = Ok [m] ∧ m ∈ G ∧
          ∀ f, f ∈ G → time_updated f ≤ time_updated m).
Proof.
  split; [apply choose_keepers_all|].
  split; [apply choose_keepers_some|].
  intros Hne Hnone. destruct G as [|f G]; [done|].
  exists (max_from time_updated f G). split; [by apply choose_keepers_none|].
  split; [apply max_from_elem|].
  intros g Hg. by apply max_from_upper.
Qed.

Lemma choose_keepers_policy_witness :
  let a r := copy_of "gs://b/sub1/x.bam" 5 r in
  let b r := copy_of "gs://b/sub1/old/x.bam" 7 r in
  choose_keepers [a true; b true] = Ok [a true; b true] ∧
  choose_keepers [a true; b false] = Ok [a true] ∧
  (∃ m, choose_keepers [a false; b false] = Ok [m] ∧
        m ∈ [a false; b false] ∧
        ∀ f, f ∈ [a false; b false] → time_updated f ≤ time_updated m).
Proof.
  intros a b. split; [|split].
  - apply (proj1 (choose_keepers_policy [a true; b true])).
    repeat constructor.
  - apply (proj1 (proj2 (choose_keepers_policy [a true; b false]))).
    + apply Exists_cons_hd. reflexivity.
    + intros H. apply Forall_cons in H as [_ H].
      apply Forall_cons in H as [H _]. discriminate H.
  - apply (proj2 (proj2 (choose_keepers_policy [a false; b false]))).
    + discriminate.
    + repeat constructor; discriminate.
Defined.

(** ** Facts about the string operations *)

Module PyStrFacts.
Import PyStr.

#[local] Arguments String.append !s1 s2 / : simpl nomatch.

Lemma app_nil_r (s : string) : s +:+ "" = s.
Proof. induction s; simpl; congruence. Qed.

Lemma app_assoc (a b c : string) : (a +:+ b) +:+ c = a +:+ b +:+ c.
Proof. induction a; simpl; congruence. Qed.

Lemma has_char_app (c : ascii) (a b : string) :
  has_char c (a +:+ b) = has_char c a || has_char c b.
Proof. induction a as [|d a IH]; simpl; [done|]. by rewrite IH, orb_assoc. Qed.

Lemma rev_app_spec (a b : string) : String.rev_app a b = String.rev a +:+ b.
Proof.
  unfold String.rev. revert b. induction a as [|c a IH]; intros b; simpl; [done|].
  rewrite (IH (String c b)), (IH (String c "")), app_assoc. done.
Qed.

Lemma rev_cons (c : ascii) (a : string) :
  String.rev (String c a) = String.rev a +:+ String c "".
Proof. unfold String.rev at 1. simpl. apply rev_app_spec. Qed.

Lemma rev_app (a b : string) :
  String.rev (a +:+ b) = String.rev b +:+ String.rev a.
Proof.
  induction a as [|c a IH]; simpl.
  - by rewrite app_nil_r.
  - by rewrite !rev_cons, IH, app_assoc.
Qed.

Lemma rev_involutive (a : string) : String.rev (String.rev a) = a.
Proof.
  induction a as [|c a IH]; [done|]. by rewrite rev_cons, rev_app, IH.
Qed.

Lemma has_char_rev (c : ascii) (a : string) :
  has_char c (String.rev a) = has_char c a.
Proof.
  induction a as [|d a IH]; [done|].
  rewrite rev_cons, has_char_app, IH. simpl.
  by rewrite orb_false_r, orb_comm.
Qed.

(** [split] returns at least one piece, whatever the limit. *)
Lemma split_nonempty (sep : ascii) (maxsplit : option nat) (s : string) :
  split sep maxsplit s ≠ [].
Proof.
  revert maxsplit. induction s as [|c s IH]; intros m; simpl; [done|].
  destruct (bool_decide (c = sep) && may_split m); [done|].
  by destruct (split sep m s).
Qed.

Lemma split_no_limit_left (sep : ascii) (s : string) :
  split sep (Some 0%nat) s = [s].
Proof.
  induction s as [|c s IH]; simpl; [done|].
  by rewrite andb_false_r, IH.
Qed.

Lemma split_no_sep (sep : ascii) (maxsplit : option nat) (s : string) :
  has_char sep s = false → split sep maxsplit s = [s].
Proof.
  induction s as [|c s IH]; simpl; [done|].
  intros [Hc Hs]%orb_false_iff. by rewrite Hc, IH.
Qed.

(** Splitting at the first separator. *)
Lemma split_first (sep : ascii) (maxsplit : option nat) (a b : string) :
  has_char sep a = false → may_split maxsplit = true →
  split sep maxsplit (a +:+ String sep b) =
  a :: split sep (one_less maxsplit) b.
Proof.
  intros Ha Hm. induction a as [|c a IH]; simpl.
  - by rewrite bool_decide_eq_true_2, Hm.
  - simpl in Ha. apply orb_false_iff in Ha as [Hc Ha].
    by rewrite Hc, IH.
Qed.

(** What [f.rsplit('/', 1)] gives: the text before and after the last
    separator, or the whole text when there is none. *)
Lemma rsplit_last_sep (sep : ascii) (dir base : string) :
  has_char sep base = false →
  rsplit sep (Some 1%nat) (dir +:+ String sep base) = [dir; base].
Proof.
  intros Hb. unfold rsplit.
  replace (dir +:+ String sep base) with (dir +:+ String sep "" +:+ base)
    by done.
  rewrite !rev_app. change (String.rev (String sep "")) with (String sep "").
  rewrite app_assoc. simpl.
  rewrite split_first by (by rewrite ?has_char_rev).
  simpl. rewrite split_no_limit_left. simpl.
  by rewrite !rev_involutive.
Qed.

Lemma rsplit_no_sep (sep : ascii) (base : string) :
  has_char sep base = false → rsplit sep (Some 1%nat) base = [base].
Proof.
  intros Hb. unfold rsplit. rewrite split_no_sep by (by rewrite has_char_rev).
  simpl. by rewrite rev_involutive.
Qed.

Lemma rsplit_nonempty (sep : ascii) (maxsplit : option nat) (s : string) :
  rsplit sep maxsplit s ≠ [].
Proof.
  unfold rsplit. intros H. apply (f_equal length) in H.
  rewrite length_reverse, length_fmap in H.
  by destruct (split sep maxsplit (String.rev s)) eqn:E;
    [apply split_nonempty in E|].
Qed.

(** A limit leaves the pieces before it as they are. *)
Lemma split_limit_lookup (sep : ascii) (n i : nat) (s : string) :
  (i < n)%nat →
  split sep (Some n) s !! i = split sep None s !! i.
Proof.
  revert n i. induction s as [|c s IH]; intros n i Hi; simpl; [done|].
  destruct n as [|n]; [lia|]. simpl.
  destruct (bool_decide (c = sep)); simpl.
  - destruct i as [|i]; [done|]. simpl. apply IH. lia.
  - assert (H0 := IH (S n) 0%nat ltac:(lia)).
    assert (Hi' := IH (S n) i Hi).
    destruct (split sep (Some (S n)) s) as [|h t],
             (split sep None s) as [|h' t']; try done.
    destruct i as [|i]; simpl in *; [congruence|done].
Qed.

(** A text with a separator that may be split has at least two pieces. *)
Lemma split_sep_two (sep : ascii) (maxsplit : option nat) (a b : string) :
  may_split maxsplit = true →
  ∃ h h' t, split sep maxsplit (a +:+ String sep b) = h :: h' :: t.
Proof.
  intros Hm. induction a as [|c a (h & h' & t & IH)]; simpl.
  - rewrite bool_decide_eq_true_2, Hm by done. simpl.
    pose proof (split_nonempty sep (one_less maxsplit) b).
    destruct (split sep (one_less maxsplit) b); [done|eauto].
  - rewrite Hm, andb_true_r. destruct (bool_decide (c = sep)).
    + pose proof (split_nonempty sep (one_less maxsplit) (a +:+ String sep b)).
      destruct (split sep (one_less maxsplit) (a +:+ String sep b));
        [done|eauto].
    + rewrite IH. eauto.
Qed.

Lemma last_is_Some {A} (l : list A) : l ≠ [] → is_Some (last l).
Proof.
  induction l as [|x [|y l] IH]; intros H; [done|by eexists|].
  apply IH. done.
Qed.

End PyStrFacts.

(** ** Facts about the dictionary *)

Module PyDictFacts.
Import PyDict.

Section Facts.
Context {V : Type}.
Implicit Types (d : pydict V) (k : string) (v : V).

Lemma set_keys_in d k v k' :
  k' ∈ keys (set d k v) ↔ k' = k ∨ k' ∈ keys d.
Proof.
  unfold keys. induction d as [|[k0 v0] d IH]; simpl.
  - rewrite list_elem_of_singleton, elem_of_nil. tauto.
  - destruct (decide (k0 = k)) as [->|Hne]; simpl.
    + rewrite !elem_of_cons. tauto.
    + rewrite !elem_of_cons, IH. tauto.
Qed.

Lemma set_NoDup d k v : NoDup (keys d) → NoDup (keys (set d k v)).
Proof.
  unfold keys. induction d as [|[k0 v0] d IH]; simpl; intros Hd.
  - apply NoDup_singleton.
  - apply NoDup_cons in Hd as [Hk0 Hd].
    destruct (decide (k0 = k)) as [->|Hne]; simpl.
    + by apply NoDup_cons.
    + apply NoDup_cons. split; [|by apply IH].
      intros Hin. apply (set_keys_in d k v k0) in Hin as [?|?]; done.
Qed.

Lemma set_elem_of d k v kv :
  kv ∈ set d k v → kv = (k, v) ∨ kv ∈ d.
Proof.
  induction d as [|[k0 v0] d IH]; simpl.
  - rewrite list_elem_of_singleton. tauto.
  - destruct (decide (k0 = k)) as [->|Hne]; rewrite !elem_of_cons; tauto.
Qed.

Lemma set_elem_of_new d k v : (k, v) ∈ set d k v.
Proof.
  induction d as [|[k0 v0] d IH]; simpl.
  - by apply list_elem_of_singleton.
  - destruct (decide (k0 = k)); apply elem_of_cons; [by left|by right].
Qed.

Lemma set_elem_of_other d k v k' v' :
  (k', v') ∈ d → k' ≠ k → (k', v') ∈ set d k v.
Proof.
  intros Hin Hne. induction d as [|[k0 v0] d IH]; simpl;
    [by apply elem_of_nil in Hin|].
  apply elem_of_cons in Hin as [Heq|Hin].
  - inversion Heq; subst. rewrite decide_False by done.
    apply elem_of_cons. by left.
  - destruct (decide (k0 = k)); apply elem_of_cons; right; auto.
Qed.

Lemma set_Forall (P : string * V → Prop) d k v :
  Forall P d → P (k, v) → Forall P (set d k v).
Proof.
  intros Hd Hkv. apply Forall_forall. intros kv Hin.
  apply set_elem_of in Hin as [->|Hin]; [done|].
  by eapply Forall_forall in Hd.
Qed.

Lemma set_length_keys d k v :
  length (set d k v) = length d ∨ length (set d k v) = S (length d).
Proof.
  induction d as [|[k0 v0] d IH]; simpl; [auto|].
  destruct (decide (k0 = k)); simpl; [auto|]. destruct IH; auto.
Qed.

(** Looking up a key that is present. *)
Lemma get_elem_of d k v :
  NoDup (keys d) → (k, v) ∈ d → get d k = Ok v.
Proof.
  unfold get, keys. induction d as [|[k0 v0] d IH]; simpl; intros Hd Hin.
  - by apply elem_of_nil in Hin.
  - apply NoDup_cons in Hd as [Hk0 Hd].
    destruct (decide (k0 = k)) as [->|Hne]; simpl.
    + apply elem_of_cons in Hin as [Heq|Hin]; [by inversion Heq|].
      exfalso. apply Hk0. apply list_elem_of_fmap. by exists (k, v).
    + apply elem_of_cons in Hin as [Heq|Hin]; [by inversion Heq|].
      specialize (IH Hd Hin).
      destruct (list_find (λ kv, kv.1 = k) d) as [[i kv]|]; simpl in *; done.
Qed.

Lemma get_Ok_elem_of d k v : get d k = Ok v → (k, v) ∈ d.
Proof.
  unfold get. destruct (list_find _ d) as [[i [k' v']]|] eqn:E; [|done].
  simpl. intros [= ->]. apply list_find_Some in E as (Hl & Hk & _).
  simpl in Hk. subst. by eapply list_elem_of_lookup_2.
Qed.

Lemma get_key d k : k ∈ keys d → ∃ v, get d k = Ok v ∧ (k, v) ∈ d.
Proof.
  unfold get, keys. intros ([k' v] & Hk & Hin)%list_elem_of_fmap.
  simpl in Hk. subst k'.
  destruct (list_find_elem_of (λ kv : string * V, kv.1 = k) d (k, v))
    as [[i [k' v']] E]; [done..|].
  rewrite E. simpl. apply list_find_Some in E as (Hl & Hk & _).
  simpl in Hk. subst. exists v'. split; [done|].
  by eapply list_elem_of_lookup_2.
Qed.

End Facts.

End PyDictFacts.

(** ** The inventory built by [list_bucket_files] *)

Lemma full_path_segments (bucket_name filename : string) :
  ∃ h h' t,
    PyStr.split "/" (Some 4%nat) (full_path_of bucket_name filename) =
    "gs:" :: "" :: h :: h' :: t.
Proof.
  unfold full_path_of.
  change ("gs://" +:+ bucket_name +:+ "/" +:+ filename)
    with ("gs:" +:+ String "/" ("" +:+ String "/"
            (bucket_name +:+ String "/" filename))).
  rewrite !PyStrFacts.split_first by done. simpl.
  destruct (PyStrFacts.split_sep_two "/" (Some 2%nat) bucket_name filename)
    as (h & h' & t & ->); [done|]. eauto.
Qed.

Lemma root_path_segments (bucket_name filename : string) :
  PyStr.has_char "/" bucket_name = false →
  PyStr.has_char "/" filename = false →
  PyStr.split "/" (Some 4%nat) (full_path_of bucket_name filename) =
  ["gs:"; ""; bucket_name; filename].
Proof.
  intros Hb Hf. unfold full_path_of.
  change ("gs://" +:+ bucket_name +:+ "/" +:+ filename)
    with ("gs:" +:+ String "/" ("" +:+ String "/"
            (bucket_name +:+ String "/" filename))).
  rewrite !PyStrFacts.split_first by done. simpl.
  by rewrite PyStrFacts.split_no_sep.
Qed.

Lemma blob_metadata_total (bucket_name : string) (referenced_files : gset string)
    (b : blob) :
  ∃ md, blob_metadata bucket_name referenced_files b = Ok md.
Proof.
  unfold blob_metadata. fold (full_path_of bucket_name (blob_name b)).
  destruct (full_path_segments bucket_name (blob_name b)) as (h & h' & t & ->).
  simpl. unfold py_getitem_last.
  destruct (PyStrFacts.last_is_Some (PyStr.split "/" None (blob_name b)))
    as [fn ->]; [apply PyStrFacts.split_nonempty|].
  simpl. eauto.
Qed.

Lemma blob_metadata_inv (bucket_name : string) (referenced_files : gset string)
    (b : blob) (md : file_metadata) :
  blob_metadata bucket_name referenced_files b = Ok md →
  file_path md = full_path_of bucket_name (blob_name b) ∧
  PyStr.split "/" (Some 4%nat) (file_path md) !! 3%nat = Some (submission_id md) ∧
  is_in_data_table md = bool_decide (file_path md ∈ referenced_files) ∧
  size md = blob_size b ∧ time_updated md = blob_updated b ∧
  to_delete md = None.
Proof.
  unfold blob_metadata. fold (full_path_of bucket_name (blob_name b)).
  unfold py_getitem, py_getitem_last.
  destruct (PyStr.split "/" (Some 4%nat) _ !! 3%nat) as [sid|] eqn:Hsid; [|done].
  simpl. destruct (last _) as [fn|]; [|done]. simpl.
  intros [= <-]. simpl. done.
Qed.

Lemma collect_blobs_inventory (bucket_name : string)
    (referenced_files : gset string) (blobs : list blob)
    (bucket_dict : pydict file_metadata) :
  inventory bucket_name referenced_files bucket_dict →
  ∃ bucket_dict',
    collect_blobs bucket_name referenced_files blobs bucket_dict = Ok bucket_dict' ∧
    inventory bucket_name referenced_files bucket_dict'.
Proof.
  revert bucket_dict. induction blobs as [|b blobs IH]; intros d Hd; simpl.
  - eauto.
  - destruct (negb (PyStr.endswith (blob_name b) "/")); [|by apply IH].
    destruct (blob_metadata_total bucket_name referenced_files b) as [md Hmd].
    rewrite Hmd. simpl. apply IH. destruct Hd as [Hnd Hall]. split.
    + by apply PyDictFacts.set_NoDup.
    + apply PyDictFacts.set_Forall; [done|]. split; [done|]. by exists b.
Qed.

Lemma inventory_empty (bucket_name : string) (referenced_files : gset string) :
  inventory bucket_name referenced_files [].
Proof. split; [apply NoDup_nil_2 | constructor]. Qed.

(** ** The safety filter *)

Lemma path_filename_total (f : string) : ∃ filename, path_filename f = Ok filename.
Proof.
  unfold path_filename, py_getitem_last.
  destruct (PyStrFacts.last_is_Some (PyStr.rsplit "/" (Some 1%nat) f))
    as [fn ->]; [apply PyStrFacts.rsplit_nonempty|]. eauto.
Qed.

(** The file name is what follows the last slash. *)
Lemma path_filename_base (dir base : string) :
  PyStr.has_char "/" base = false →
  path_filename (dir +:+ "/" +:+ base) = Ok base.
Proof.
  intros Hb. unfold path_filename.
  change (dir +:+ "/" +:+ base) with (dir +:+ String "/" base).
  by rewrite PyStrFacts.rsplit_last_sep.
Qed.

Section SafetyFilterFacts.

Variable fnmatchcase : string → string → bool.

Lemma can_delete_protected (f filename : string)
    (include exclude : option (list string)) :
  path_filename f = Ok filename → protected filename = true →
  can_delete fnmatchcase f include exclude = Ok false.
Proof.
  unfold path_filename, can_delete, protected. intros -> Hp. simpl.
  destruct (PyStr.endswith filename ".log"); [done|].
  destruct (PyStr.endswith filename "-rc.txt"); [done|].
  simpl in Hp. apply bool_decide_eq_true in Hp.
  rewrite !elem_of_cons in Hp. rewrite elem_of_nil in Hp.
  repeat case_bool_decide; try done.
  exfalso. rewrite !elem_of_cons, elem_of_nil in *. intuition.
Qed.

Lemma can_delete_unprotected (f filename : string)
    (include exclude : option (list string)) :
  path_filename f = Ok filename → protected filename = false →
  can_delete fnmatchcase f include exclude =
  Ok (if truthy include then existsb (fnmatchcase filename) (glob_list include)
      else if truthy exclude
           then negb (existsb (fnmatchcase filename) (glob_list exclude))
           else true).
Proof.
  unfold path_filename, can_delete, protected. intros -> Hp. simpl.
  apply orb_false_iff in Hp as [[-> ->]%orb_false_iff Hp].
  apply bool_decide_eq_false in Hp.
  rewrite !elem_of_cons, elem_of_nil in Hp.
  repeat case_bool_decide;
    rewrite ?elem_of_cons, ?elem_of_nil in *; try (exfalso; intuition; fail).
  by repeat destruct (truthy _).
Qed.

Lemma can_delete_total (f : string) (include exclude : option (list string)) :
  ∃ b, can_delete fnmatchcase f include exclude = Ok b.
Proof.
  destruct (path_filename_total f) as [fn Hfn].
  destruct (protected fn) eqn:Hp.
  - rewrite (can_delete_protected f fn) by done. eauto.
  - rewrite (can_delete_unprotected f fn) by done. eauto.
Qed.

End SafetyFilterFacts.

(** ** Filtering and mapping with functions that may raise *)

Section ListM.

Context {A B : Type}.

Lemma filterM_total (p : A → res bool) (l : list A) :
  (∀ x, x ∈ l → ∃ b, p x = Ok b) → ∃ r, filterM p l = Ok r.
Proof.
  induction l as [|x l IH]; intros Hp; simpl; [eauto|].
  destruct (Hp x) as [b ->]; [by apply elem_of_cons; left|].
  destruct IH as [r ->]; [|simpl; eauto].
  intros y Hy. apply Hp, elem_of_cons. by right.
Qed.

Lemma filterM_elem_of (p : A → res bool) (l r : list A) (x : A) :
  filterM p l = Ok r → x ∈ r ↔ x ∈ l ∧ p x = Ok true.
Proof.
  revert r. induction l as [|y l IH]; intros r; simpl.
  - intros [= <-]. rewrite elem_of_nil. tauto.
  - destruct (p y) as [b|] eqn:Hy; [|done]. simpl.
    destruct (filterM p l) as [r'|]; [|done]. simpl. intros [= <-].
    specialize (IH r' eq_refl).
    destruct b; rewrite ?elem_of_cons, IH; split;
      intuition (subst; congruence).
Qed.

Lemma filterM_sublist (p : A → res bool) (l r : list A) :
  filterM p l = Ok r → sublist r l.
Proof.
  revert r. induction l as [|y l IH]; intros r; simpl.
  - intros [= <-]. done.
  - destruct (p y) as [b|]; [|done]. simpl.
    destruct (filterM p l) as [r'|]; [|done]. simpl. intros [= <-].
    destruct b; [apply sublist_skip|apply sublist_cons]; auto.
Qed.

Lemma mapM'_total (f : A → res B) (l : list A) :
  (∀ x, x ∈ l → ∃ y, f x = Ok y) → ∃ r, mapM' f l = Ok r.
Proof.
  induction l as [|x l IH]; intros Hf; simpl; [eauto|].
  destruct (Hf x) as [y ->]; [by apply elem_of_cons; left|].
  destruct IH as [r ->]; [|simpl; eauto].
  intros z Hz. apply Hf, elem_of_cons. by right.
Qed.

End ListM.

(** ** [get_files_to_keep] against group-wise resolution *)

Lemma choose_keepers_keepers (G : list file_metadata) :
  choose_keepers G = Ok (keepers G).
Proof. unfold keepers. by destruct (choose_keepers_total G) as [K ->]. Qed.

Lemma keepers_singleton (f : file_metadata) : keepers [f] = [f].
Proof.
  unfold keepers, choose_keepers. simpl.
  by destruct (is_in_data_table f).
Qed.

Lemma filter_referenced_bool (G : list file_metadata) :
  filter (λ f, is_in_data_table f) G = filter referenced G.
Proof.
  apply list_filter_iff. intros f. unfold referenced.
  destruct (is_in_data_table f); simpl; intuition congruence.
Qed.

Lemma forallb_filter_referenced (G : list file_metadata) :
  forallb is_in_data_table (filter referenced G) = true.
Proof.
  apply forallb_referenced, Forall_forall.
  by intros f [? _]%list_elem_of_filter.
Qed.

Lemma existsb_filter_referenced (G : list file_metadata) :
  existsb is_in_data_table (filter referenced G) = existsb is_in_data_table G.
Proof.
  induction G as [|f G IH]; [done|].
  rewrite filter_cons. destruct (decide (referenced f)) as [Hf|Hf].
  - simpl. by rewrite IH.
  - simpl. rewrite IH. unfold referenced in Hf.
    by destruct (is_in_data_table f).
Qed.

Lemma filter_referenced_none (G : list file_metadata) :
  existsb is_in_data_table G = false → filter referenced G = [].
Proof.
  intros H%existsb_unreferenced. induction H as [|f G Hf _ IH]; [done|].
  by rewrite filter_cons, decide_False.
Qed.

Lemma filter_referenced_single (e : file_metadata) :
  filter referenced [e] = if is_in_data_table e then [e] else [].
Proof.
  rewrite filter_cons, filter_nil. unfold referenced.
  destruct (is_in_data_table e); [by rewrite decide_True|by rewrite decide_False].
Qed.

(** The step that makes the fold work: resolving the keepers of the
    entries seen so far together with a new entry gives what resolving all
    of them together gives. *)
Lemma choose_keepers_incremental (G : list file_metadata) (e : file_metadata) :
  G ≠ [] →
  choose_keepers (keepers G ++ [e]) = choose_keepers (G ++ [e]).
Proof.
  intros Hne. unfold keepers, choose_keepers at 2.
  destruct (forallb is_in_data_table G) eqn:Hall; [done|].
  rewrite filter_referenced_bool.
  destruct (existsb is_in_data_table G) eqn:Hex.
  - (* some but not all referenced *)
    unfold choose_keepers.
    rewrite !forallb_app, !existsb_app, Hall, Hex, !filter_referenced_bool.
    rewrite forallb_filter_referenced, existsb_filter_referenced, Hex.
    rewrite !filter_app, list_filter_filter. simpl.
    rewrite filter_referenced_single.
    destruct (is_in_data_table e) eqn:He; simpl; [done|].
    f_equal. f_equal. apply list_filter_iff. tauto.
  - (* none referenced *)
    destruct G as [|f G]; [done|]. simpl py_max. simpl res_bind.
    change (mbind ?k (Ok ?x)) with (k x). cbv beta.
    set (m := max_from time_updated f G).
    assert (Hm : is_in_data_table m = false).
    { apply existsb_unreferenced in Hex.
      eapply Forall_forall in Hex; [|apply (max_from_elem time_updated f G)].
      fold m in Hex. unfold referenced in Hex.
      by destruct (is_in_data_table m). }
    unfold choose_keepers.
    rewrite !forallb_app, !existsb_app, Hall, Hex, !filter_referenced_bool.
    simpl. rewrite Hm. simpl.
    destruct (is_in_data_table e) eqn:He; simpl.
    + change (f :: G ++ [e]) with ((f :: G) ++ [e]).
      change [m; e] with ([m] ++ [e]).
      rewrite !filter_app, !filter_referenced_single, Hm, He.
      by rewrite (filter_referenced_none (f :: G)).
    + by rewrite max_from_snoc.
Qed.

Lemma group_of_snoc (k : string) (seen : list file_metadata) (e : file_metadata) :
  group_of k (seen ++ [e]) =
  group_of k seen ++ (if decide (unique_key e = k) then [e] else []).
Proof.
  unfold group_of. rewrite filter_app, filter_cons, filter_nil. done.
Qed.

Lemma keep_step_inv (seen : list file_metadata)
    (files_to_keep : gmap string (list file_metadata)) (e : file_metadata) :
  keep_inv seen files_to_keep →
  ∃ files_to_keep', keep_step files_to_keep e = Ok files_to_keep' ∧
                    keep_inv (seen ++ [e]) files_to_keep'.
Proof.
  intros Hinv. unfold keep_step. pose proof (Hinv (unique_key e)) as He.
  destruct (group_of (unique_key e) seen) as [|g G] eqn:HG.
  - rewrite He. eexists. split; [done|]. intros k. rewrite group_of_snoc.
    destruct (decide (unique_key e = k)) as [<-|Hne].
    + rewrite lookup_insert_eq, HG. simpl. by rewrite keepers_singleton.
    + rewrite lookup_insert_ne, app_nil_r by done. apply Hinv.
  - rewrite He. rewrite choose_keepers_incremental by done.
    rewrite choose_keepers_keepers. simpl. eexists. split; [done|].
    intros k. rewrite group_of_snoc.
    destruct (decide (unique_key e = k)) as [<-|Hne].
    + rewrite lookup_insert_eq, HG. simpl. done.
    + rewrite lookup_insert_ne, app_nil_r by done. apply Hinv.
Qed.

Lemma keep_loop_inv (seen entries : list file_metadata)
    (files_to_keep : gmap string (list file_metadata)) :
  keep_inv seen files_to_keep →
  ∃ files_to_keep', keep_loop files_to_keep entries = Ok files_to_keep' ∧
                    keep_inv (seen ++ entries) files_to_keep'.
Proof.
  revert seen files_to_keep.
  induction entries as [|e entries IH]; intros seen ftk Hinv; simpl.
  - rewrite app_nil_r. eauto.
  - destruct (keep_step_inv seen ftk e Hinv) as (ftk' & -> & Hinv').
    simpl. replace (seen ++ e :: entries) with ((seen ++ [e]) ++ entries)
      by (by rewrite <- app_assoc).
    by apply IH.
Qed.

Lemma keep_inv_empty : keep_inv [] ∅.
Proof. intros k. by rewrite lookup_empty. Qed.

Lemma elem_of_kept_paths (files_to_keep : gmap string (list file_metadata))
    (p : string) :
  p ∈ kept_paths files_to_keep ↔
  ∃ k K, files_to_keep !! k = Some K ∧ p ∈ file_path <$> K.
Proof.
  unfold kept_paths. rewrite elem_of_list_to_set, list_elem_of_join. split.
  - intros (l & Hp & Hl). apply list_elem_of_fmap in Hl as ([k K] & -> & HkK).
    apply elem_of_map_to_list in HkK. eauto.
  - intros (k & K & HkK & Hp). exists (file_path <$> K). split; [done|].
    apply list_elem_of_fmap. exists (k, K). split; [done|].
    by apply elem_of_map_to_list.
Qed.

Lemma union_keepers_spec (groups : list (list file_metadata)) :
  union_keepers groups =
  Ok (⋃ ((λ G, list_to_set (file_path <$> keepers G)) <$> groups)).
Proof.
  induction groups as [|G groups IH]; simpl; [done|].
  rewrite choose_keepers_keepers, IH. done.
Qed.

Lemma group_of_nonempty (k : string) (entries : list file_metadata) :
  group_of k entries ≠ [] ↔ k ∈ unique_key <$> entries.
Proof.
  unfold group_of. rewrite list_elem_of_fmap. split.
  - intros H. destruct (filter _ entries) as [|f G] eqn:E; [done|].
    assert (Hf : f ∈ filter (λ f, unique_key f = k) entries)
      by (rewrite E; apply elem_of_cons; by left).
    apply list_elem_of_filter in Hf as [? ?]. eauto.
  - intros (f & -> & Hf) E.
    assert (Hin : f ∈ filter (λ g, unique_key g = unique_key f) entries)
      by (by apply list_elem_of_filter).
    rewrite E in Hin. by apply elem_of_nil in Hin.
Qed.

Lemma get_files_to_keep_eq (bucket_dict : pydict file_metadata) :
  ∃ kept, get_files_to_keep bucket_dict = Ok kept ∧
          keepers_by_group bucket_dict = Ok kept.
Proof.
  unfold get_files_to_keep, keepers_by_group.
  destruct (keep_loop_inv [] (PyDict.values bucket_dict) ∅ keep_inv_empty)
    as (ftk & -> & Hinv).
  simpl in Hinv. simpl. eexists. split; [done|].
  rewrite union_keepers_spec. f_equal. symmetry. apply set_eq. intros p.
  rewrite elem_of_kept_paths, elem_of_union_list. split.
  - intros (k & K & HkK & Hp). rewrite Hinv in HkK.
    exists (list_to_set (file_path <$> keepers (group_of k (PyDict.values bucket_dict)))).
    destruct (group_of k (PyDict.values bucket_dict)) as [|g G] eqn:HG; [done|].
    injection HkK as <-. split; [|by apply elem_of_list_to_set].
    apply list_elem_of_fmap. exists (group_of k (PyDict.values bucket_dict)).
    rewrite HG. split; [done|]. apply list_elem_of_fmap. exists k.
    rewrite HG. split; [done|]. apply elem_of_remove_dups.
    apply group_of_nonempty. by rewrite HG.
  - intros (X & HX & Hp).
    apply list_elem_of_fmap in HX as (G & -> & HG).
    apply list_elem_of_fmap in HG as (k & -> & Hk).
    apply elem_of_remove_dups, group_of_nonempty in Hk.
    apply elem_of_list_to_set in Hp.
    exists k, (keepers (group_of k (PyDict.values bucket_dict))).
    split; [|done]. rewrite Hinv.
    by destruct (group_of k (PyDict.values bucket_dict)).
Qed.

Lemma keepers_subseteq (G : list file_metadata) (f : file_metadata) :
  f ∈ keepers G → f ∈ G.
Proof.
  unfold keepers, choose_keepers.
  destruct (forallb is_in_data_table G); [done|].
  destruct (existsb is_in_data_table G).
  - by intros [_ ?]%list_elem_of_filter.
  - destruct G as [|g G]; simpl; [done|].
    intros ->%list_elem_of_singleton. apply max_from_elem.
Qed.

Lemma keepers_referenced (G : list file_metadata) (f : file_metadata) :
  f ∈ G → referenced f → f ∈ keepers G.
Proof.
  intros Hin Hf. unfold keepers, choose_keepers.
  destruct (forallb is_in_data_table G); [done|].
  destruct (existsb is_in_data_table G) eqn:Hex.
  - apply list_elem_of_filter. split; [|done]. by rewrite Hf.
  - apply existsb_unreferenced in Hex. by eapply Forall_forall in Hex.
Qed.

(** Membership in the result of [get_files_to_keep]. *)
Lemma elem_of_get_files_to_keep (bucket_dict : pydict file_metadata)
    (kept : gset string) (p : string) :
  get_files_to_keep bucket_dict = Ok kept →
  p ∈ kept ↔
  ∃ f, f ∈ PyDict.values bucket_dict ∧ file_path f = p ∧
       f ∈ keepers (group_of (unique_key f) (PyDict.values bucket_dict)).
Proof.
  intros Hk. destruct (get_files_to_keep_eq bucket_dict) as (kept' & Hk' & Hg).
  rewrite Hk in Hk'. injection Hk' as <-.
  unfold keepers_by_group in Hg. rewrite union_keepers_spec in Hg.
  injection Hg as <-. rewrite elem_of_union_list. split.
  - intros (X & HX & Hp).
    apply list_elem_of_fmap in HX as (G & -> & HG).
    apply list_elem_of_fmap in HG as (k & -> & Hk').
    apply elem_of_list_to_set, list_elem_of_fmap in Hp as (f & -> & Hf).
    pose proof (keepers_subseteq _ _ Hf) as Hin.
    apply list_elem_of_filter in Hin as [<- Hin]. eauto.
  - intros (f & Hin & <- & Hf).
    exists (list_to_set (file_path <$>
              keepers (group_of (unique_key f) (PyDict.values bucket_dict)))).
    split; [|by apply elem_of_list_to_set, list_elem_of_fmap_2].
    apply list_elem_of_fmap.
    exists (group_of (unique_key f) (PyDict.values bucket_dict)).
    split; [done|]. apply list_elem_of_fmap. exists (unique_key f).
    split; [done|]. by apply elem_of_remove_dups, list_elem_of_fmap_2.
Qed.

Lemma get_files_to_keep_total (bucket_dict : pydict file_metadata) :
  ∃ kept, get_files_to_keep bucket_dict = Ok kept.
Proof. destruct (get_files_to_keep_eq bucket_dict) as (kept & ? & _). eauto. Qed.

Lemma referenced_kept (bucket_dict : pydict file_metadata) (kept : gset string)
    (f : file_metadata) :
  get_files_to_keep bucket_dict = Ok kept →
  f ∈ PyDict.values bucket_dict → referenced f → file_path f ∈ kept.
Proof.
  intros Hk Hin Hf. apply (elem_of_get_files_to_keep _ _ _ Hk).
  exists f. split; [done|]. split; [done|].
  apply keepers_referenced; [|done]. by apply list_elem_of_filter.
Qed.

(** ** Sizes *)

Lemma reduce_loop_count (fuel : nat) (x : pynum) (c : nat) :
  ((reduce_loop fuel x c).2 ≤ Nat.max c 5)%nat.
Proof.
  revert x c. induction fuel as [|fuel IH]; intros x c; simpl; [lia|].
  destruct (ge_1024 x); simpl; [|lia].
  case_bool_decide; simpl; [|lia].
  etrans; [apply IH|]. lia.
Qed.

Lemma human_readable_size_total (n : Z) : ∃ s, human_readable_size n = Ok s.
Proof.
  unfold human_readable_size.
  pose proof (reduce_loop_count 5 (PyInt n) 0) as Hc.
  destruct (reduce_loop 5 (PyInt n) 0) as [x c]. simpl in Hc.
  unfold py_getitem.
  destruct (units !! c) as [u|] eqn:Hu; [simpl; eauto|].
  apply lookup_ge_None in Hu. simpl in Hu. lia.
Qed.

Lemma human_readable_size_display (n : Z) :
  human_readable_size n = Ok (display_size n).
Proof. unfold display_size. by destruct (human_readable_size_total n) as [s ->]. Qed.

(** ** The manifest *)

Lemma inventory_keyed (bucket_name : string) (referenced_files : gset string)
    (bucket_dict : pydict file_metadata) :
  inventory bucket_name referenced_files bucket_dict → keyed_by_path bucket_dict.
Proof.
  intros [Hnd Hall]. split; [done|].
  eapply Forall_impl; [done|]. by intros kv [? _].
Qed.

Lemma keyed_keys (bucket_dict : pydict file_metadata) :
  keyed_by_path bucket_dict →
  PyDict.keys bucket_dict = file_path <$> PyDict.values bucket_dict.
Proof.
  intros [_ Hall]. unfold PyDict.keys, PyDict.values.
  induction Hall as [|[k md] d Hk _ IH]; [done|]. simpl in *. by f_equal.
Qed.

(** Replacing the value of a key that is present, in a dictionary without
    repeated keys, changes that entry where it stands. *)
Lemma set_present {V} (d : pydict V) (k : string) (v : V) :
  NoDup (PyDict.keys d) → k ∈ PyDict.keys d →
  PyDict.set d k v = (λ kv, if decide (kv.1 = k) then (k, v) else kv) <$> d.
Proof.
  unfold PyDict.keys. induction d as [|[k0 v0] d IH]; simpl; intros Hnd Hin.
  - by apply elem_of_nil in Hin.
  - apply NoDup_cons in Hnd as [Hk0 Hnd].
    destruct (decide (k0 = k)) as [->|Hne].
    + f_equal. clear IH Hin. induction d as [|[k1 v1] d IH]; [done|].
      simpl in *. apply not_elem_of_cons in Hk0 as [Hne Hk0].
      apply NoDup_cons in Hnd as [_ Hnd].
      rewrite decide_False by done. f_equal. by apply IH.
    + f_equal. apply IH; [done|].
      apply elem_of_cons in Hin as [?|?]; [congruence|done].
Qed.

Lemma annotate_present (deletable_files : list string)
    (bucket_dict : pydict file_metadata) (full_path : string) :
  keyed_by_path bucket_dict → full_path ∈ PyDict.keys bucket_dict →
  annotate deletable_files bucket_dict full_path =
  Ok ((λ kv, if decide (kv.1 = full_path)
             then (kv.1, annotated deletable_files kv.2) else kv)
        <$> bucket_dict).
Proof.
  intros [Hnd Hall] Hin. unfold annotate.
  destruct (PyDictFacts.get_key bucket_dict full_path Hin) as (md & -> & Hmd).
  simpl. rewrite human_readable_size_display. simpl. f_equal.
  rewrite set_present by done. apply list_fmap_ext.
  intros i [k md'] Hi. simpl. destruct (decide (k = full_path)) as [->|]; [|done].
  f_equal. apply list_elem_of_lookup_2 in Hi.
  assert (md' = md) as ->.
  { pose proof (PyDictFacts.get_elem_of _ _ _ Hnd Hi) as H1.
    pose proof (PyDictFacts.get_elem_of _ _ _ Hnd Hmd) as H2. congruence. }
  unfold annotated. eapply Forall_forall in Hall; [|exact Hmd].
  simpl in Hall. by rewrite <- Hall.
Qed.

Lemma annotate_step_keyed (deletable_files : list string)
    (bucket_dict : pydict file_metadata) (p : string) :
  keyed_by_path bucket_dict →
  keyed_by_path
    ((λ kv, if decide (kv.1 = p)
            then (kv.1, annotated deletable_files kv.2) else kv)
       <$> bucket_dict) ∧
  PyDict.keys
    ((λ kv, if decide (kv.1 = p)
            then (kv.1, annotated deletable_files kv.2) else kv)
       <$> bucket_dict) = PyDict.keys bucket_dict.
Proof.
  intros [Hnd Hall].
  assert (Hkeys : PyDict.keys
    ((λ kv : string * file_metadata, if decide (kv.1 = p)
            then (kv.1, annotated deletable_files kv.2) else kv)
       <$> bucket_dict) = PyDict.keys bucket_dict).
  { unfold PyDict.keys. rewrite <- list_fmap_compose. apply list_fmap_ext.
    intros i kv _. simpl. by destruct (decide (kv.1 = p)). }
  split; [|done]. split; [by rewrite Hkeys|].
  apply Forall_fmap. eapply Forall_impl; [done|].
  intros kv Hkv. simpl. by destruct (decide (kv.1 = p)).
Qed.

Lemma annotate_all_spec (deletable_files : list string)
    (bucket_dict : pydict file_metadata) (paths : list string) :
  keyed_by_path bucket_dict → NoDup paths →
  (∀ p, p ∈ paths → p ∈ PyDict.keys bucket_dict) →
  annotate_all deletable_files bucket_dict paths =
  Ok ((λ kv, if bool_decide (kv.1 ∈ paths)
             then (kv.1, annotated deletable_files kv.2) else kv)
        <$> bucket_dict).
Proof.
  revert bucket_dict. induction paths as [|p paths IH]; intros d Hd Hnd Hin; simpl.
  - f_equal. symmetry. etrans; [|apply list_fmap_id].
    apply list_fmap_ext. intros i kv _. simpl. done.
  - apply NoDup_cons in Hnd as [Hp Hnd].
    rewrite annotate_present by (auto; apply Hin, elem_of_cons; by left).
    simpl. destruct (annotate_step_keyed deletable_files d p Hd) as [Hd' Hkeys].
    rewrite IH; [| done | done |].
    2:{ intros q Hq. rewrite Hkeys. apply Hin, elem_of_cons. by right. }
    f_equal. rewrite <- list_fmap_compose. apply list_fmap_ext.
    intros i [k md] _. simpl. destruct (decide (k = p)) as [->|Hne]; simpl.
    + rewrite bool_decide_eq_false_2 by done.
      rewrite bool_decide_eq_true_2; [done|]. apply elem_of_cons. by left.
    + destruct (bool_decide (k ∈ paths)) eqn:E.
      * apply bool_decide_eq_true in E.
        rewrite bool_decide_eq_true_2; [done|]. apply elem_of_cons. by right.
      * apply bool_decide_eq_false in E.
        rewrite bool_decide_eq_false_2; [done|].
        intros [?|?]%elem_of_cons; done.
Qed.

(** The annotation loop of [mop] reaches every entry of the inventory. *)
Lemma annotate_all_inventory (deletable_files : list string)
    (bucket_dict : pydict file_metadata) :
  keyed_by_path bucket_dict →
  ∃ bucket_dict',
    annotate_all deletable_files bucket_dict
      (elements (all_bucket_files bucket_dict)) = Ok bucket_dict' ∧
    PyDict.values bucket_dict' =
    annotated deletable_files <$> PyDict.values bucket_dict.
Proof.
  intros Hd. eexists. split.
  - apply annotate_all_spec; [done|apply NoDup_elements|].
    intros p Hp%elem_of_elements. unfold all_bucket_files in Hp.
    apply elem_of_list_to_set in Hp. by rewrite keyed_keys.
  - unfold PyDict.values. rewrite <- !list_fmap_compose.
    apply list_fmap_ext. intros i [k md] Hi. simpl.
    rewrite bool_decide_eq_true_2; [done|].
    apply elem_of_elements, elem_of_list_to_set.
    rewrite <- keyed_keys by done.
    apply list_elem_of_lookup_2 in Hi.
    apply list_elem_of_fmap. by exists (k, md).
Qed.

(** The order of the manifest is a total pre-order on rows. *)
#[global] Instance manifest_before_total : Total manifest_before.
Proof.
  intros r1 r2. unfold manifest_before.
  destruct (Z.lt_trichotomy (to_delete_rank (col_to_delete r1))
                            (to_delete_rank (col_to_delete r2))) as [?|[?|?]];
    [by right; left | | by left; left].
  destruct (total String.le (col_file_path r1) (col_file_path r2));
    [right|left]; right; done.
Qed.

#[global] Instance manifest_before_trans : Transitive manifest_before.
Proof.
  intros r1 r2 r3. unfold manifest_before.
  intros [H12|[H12 P12]] [H23|[H23 P23]]; try lia.
  right. split; [lia|]. by etrans.
Qed.

Lemma sort_values_sorted (rows : list manifest_row) :
  StronglySorted manifest_before (sort_values rows).
Proof. apply StronglySorted_merge_sort; apply _. Qed.

Lemma sort_values_perm (rows : list manifest_row) : sort_values rows ≡ₚ rows.
Proof. apply merge_sort_Permutation. Qed.

(** ** Runs of [mop] *)

Section Runs.

Context {A B : Type}.

Lemma bind_run (m : M A) (k : A → M B) (tr tr' : list event) (a : A) :
  m tr = (Ok a, tr') → (m ≫= k) tr = k a tr'.
Proof. unfold mbind, M_mbind, M_bind. by intros ->. Qed.

Lemma bind_raise (m : M A) (k : A → M B) (tr tr' : list event) (e : exn) :
  m tr = (Raise e, tr') → (m ≫= k) tr = (Raise e, tr').
Proof. unfold mbind, M_mbind, M_bind. by intros ->. Qed.

Lemma lift_run (a : A) (tr : list event) : lift (Ok a) tr = (Ok a, tr).
Proof. done. Qed.

End Runs.

Lemma when_run (b : bool) (ev : event) (tr : list event) :
  when b (emit ev) tr = (Ok tt, tr ++ if b then [ev] else []).
Proof. destruct b; simpl; [done|]. by rewrite app_nil_r. Qed.

Lemma list_bucket_files_run (w : world) (bucket_name : string)
    (referenced_files : gset string) (verbose : bool) (tr : list event)
    (blobs : list blob) :
  gcs w !! bucket_name = Some blobs →
  ∃ bucket_dict,
    collect_blobs bucket_name referenced_files blobs [] = Ok bucket_dict ∧
    inventory bucket_name referenced_files bucket_dict ∧
    list_bucket_files w bucket_name referenced_files verbose tr =
    (Ok bucket_dict,
     tr ++ if verbose
           then [Print ("listing contents of bucket gs://" +:+ bucket_name);
                 Print ("Found " +:+ pretty (length bucket_dict) +:+
                        " files in bucket " +:+ bucket_name)]
           else []).
Proof.
  intros Hb.
  destruct (collect_blobs_inventory bucket_name referenced_files blobs []
              (inventory_empty _ _)) as (d & Hd & Hinv).
  exists d. split; [done|]. split; [done|].
  unfold list_bucket_files, print. rewrite Hb.
  erewrite bind_run by apply when_run.
  rewrite Hd. erewrite bind_run by apply lift_run.
  erewrite bind_run by apply when_run.
  unfold mret, M_mret, M_ret. f_equal.
  rewrite <- app_assoc. by destruct verbose.
Qed.

(** A run against a bucket that cannot be found prints one line and exits
    with status 1. *)
Lemma list_bucket_files_missing (w : world) (bucket_name : string)
    (referenced_files : gset string) (verbose : bool) (tr : list event) :
  gcs w !! bucket_name = None →
  list_bucket_files w bucket_name referenced_files verbose tr =
  (Raise (SystemExit 1),
   tr ++ (if verbose
          then [Print ("listing contents of bucket gs://" +:+ bucket_name)]
          else []) ++ [Print "Bucket does not exist!"]).
Proof.
  intros Hb. unfold list_bucket_files, print. rewrite Hb.
  erewrite bind_run by apply when_run.
  unfold mbind, M_mbind, M_bind, emit, exit, lift. by rewrite <- app_assoc.
Qed.

Lemma run_gsutil_run (w : world) (args : mop_args) (deletable_files : list string)
    (tr : list event) :
  run_gsutil w args deletable_files tr =
  (Ok 0, tr ++ gsutil_events w args deletable_files).
Proof.
  unfold run_gsutil, gsutil_events, print.
  erewrite bind_run by apply when_run.
  unfold mbind at 1, M_mbind, M_bind, emit at 1.
  erewrite bind_run by apply when_run.
  unfold mret, M_mret, M_ret. f_equal. by rewrite <- !app_assoc.
Qed.

Lemma write_manifest_run (w : world) (args : mop_args)
    (bucket_dict : pydict file_metadata) (deletable_files : list string)
    (tr : list event) :
  keyed_by_path bucket_dict →
  write_manifest w args bucket_dict deletable_files tr =
  (Ok tt, tr ++ [ToCsv (manifest_name w args) fields_for_manifest
                   (manifest_rows bucket_dict deletable_files)]).
Proof.
  intros Hd. unfold write_manifest.
  destruct (annotate_all_inventory deletable_files bucket_dict Hd)
    as (d' & -> & Hvalues).
  erewrite bind_run by apply lift_run.
  unfold emit, manifest_rows, manifest_name. by rewrite Hvalues.
Qed.

(** ** The candidate sets *)

Lemma elem_of_eligible (bucket_dict : pydict file_metadata)
    (ids : gset string) (p : string) :
  p ∈ eligible_bucket_files bucket_dict ids ↔
  ∃ md, md ∈ PyDict.values bucket_dict ∧ file_path md = p ∧
        submission_id md ∈ ids.
Proof.
  unfold eligible_bucket_files.
  rewrite elem_of_list_to_set, list_elem_of_fmap. split.
  - intros (md & -> & [? ?]%list_elem_of_filter). eauto.
  - intros (md & ? & <- & ?). exists md. split; [done|].
    by apply list_elem_of_filter.
Qed.

Lemma eligible_in_bucket (bucket_dict : pydict file_metadata)
    (ids : gset string) :
  eligible_bucket_files bucket_dict ids ⊆ all_bucket_files bucket_dict.
Proof.
  intros p (md & Hmd & <- & _)%elem_of_eligible.
  by apply elem_of_list_to_set, list_elem_of_fmap_2.
Qed.

Lemma potential_total (keep_one : bool) (bucket_dict : pydict file_metadata)
    (eligible referenced_files : gset string) :
  ∃ potential,
    potential_deletable_files keep_one bucket_dict eligible referenced_files
    = Ok potential ∧ potential ⊆ eligible.
Proof.
  unfold potential_deletable_files. destruct keep_one.
  - destruct (get_files_to_keep_total bucket_dict) as [kept ->]. simpl.
    eexists. split; [done|]. by intros p [? _]%elem_of_difference.
  - eexists. split; [done|]. by intros p [? _]%elem_of_difference.
Qed.

Section Candidates.

Variable fnmatchcase : string → string → bool.

Lemma deletable_files_total (potential : gset string)
    (include exclude : option (list string)) :
  ∃ dl, deletable_files fnmatchcase potential include exclude = Ok dl.
Proof.
  apply filterM_total. intros f _. apply can_delete_total.
Qed.

Lemma elem_of_deletable_files (potential : gset string)
    (include exclude : option (list string)) (dl : list string) (p : string) :
  deletable_files fnmatchcase potential include exclude = Ok dl →
  p ∈ dl ↔ p ∈ potential ∧ can_delete fnmatchcase p include exclude = Ok true.
Proof.
  intros H. unfold deletable_files in H.
  rewrite (filterM_elem_of _ _ _ p H), elem_of_elements. done.
Qed.

Lemma deletable_files_NoDup (potential : gset string)
    (include exclude : option (list string)) (dl : list string) :
  deletable_files fnmatchcase potential include exclude = Ok dl → NoDup dl.
Proof.
  intros H%filterM_sublist.
  exact (sublist_NoDup _ _ (NoDup_elements potential) H).
Qed.

End Candidates.

Lemma size_of_present (bucket_dict : pydict file_metadata) (f : string) :
  f ∈ PyDict.keys bucket_dict → ∃ n, size_of bucket_dict f = Ok n.
Proof.
  intros Hf. unfold size_of.
  destruct (PyDictFacts.get_key bucket_dict f Hf) as (md & -> & _).
  simpl. eauto.
Qed.

Lemma size_line_present (bucket_dict : pydict file_metadata) (f : string) :
  f ∈ PyDict.keys bucket_dict → ∃ line, size_line bucket_dict f = Ok line.
Proof.
  intros Hf. unfold size_line.
  destruct (PyDictFacts.get_key bucket_dict f Hf) as (md & -> & _).
  simpl. rewrite human_readable_size_display. simpl. eauto.
Qed.

Lemma report_run (b : bool) (bucket_dict : pydict file_metadata)
    (deletable_files lines : list string) (deletable_size : string)
    (tr : list event) :
  mapM' (size_line bucket_dict) deletable_files = Ok lines →
  (if b then
     lines ← lift (mapM' (size_line bucket_dict) deletable_files);
     print ("Found " +:+ pretty (length deletable_files) +:+
            " files to delete:" +:+ nl +:+
            PyStr.join nl lines +:+
            nl +:+ "Total size of deletable files: " +:+
            deletable_size +:+ nl)
   else mret tt) tr =
  (Ok tt, tr ++ if b then [Print (report deletable_files lines deletable_size)]
                else []).
Proof.
  intros Hlines. destruct b.
  - rewrite Hlines. erewrite bind_run by apply lift_run. done.
  - unfold mret, M_mret, M_ret. by rewrite app_nil_r.
Qed.

Lemma manifest_run (w : world) (args : mop_args)
    (bucket_dict : pydict file_metadata) (deletable_files : list string)
    (tr : list event) :
  keyed_by_path bucket_dict →
  when (make_manifest args)
    (write_manifest w args bucket_dict deletable_files) tr =
  (Ok tt, tr ++ manifest_events w args bucket_dict deletable_files).
Proof.
  intros Hd. unfold manifest_events, when. destruct (make_manifest args).
  - by apply write_manifest_run.
  - unfold mret, M_mret, M_ret. by rewrite app_nil_r.
Qed.

Section MopRuns.

Variable fnmatchcase : string → string → bool.

(** Two results with the same value and the same events, up to the
    grouping of the appended lists. *)
Local Ltac trace_eq :=
  f_equal; rewrite <- ?app_assoc, ?orb_true_r, ?orb_false_r;
  match goal with
  | args : mop_args |- _ =>
      destruct (verbose args); simpl;
      rewrite <- ?app_assoc, ?app_nil_r; simpl; done
  end.

(** Every run of [mop] on a bucket that exists goes through: it computes
    the inventory, the candidates and their sizes without raising, leaves
    the events [run_events] behind and returns 0. *)
Lemma mop_run (w : world) (ws : workspace_info)
    (referenced_files : gset string) (args : mop_args) (tr : list event)
    (blobs : list blob) :
  gcs w !! bucketName ws = Some blobs →
  ∃ bucket_dict potential dl lines deletable_size,
    collect_blobs (bucketName ws) referenced_files blobs [] = Ok bucket_dict ∧
    inventory (bucketName ws) referenced_files bucket_dict ∧
    potential_deletable_files (keep_one args) bucket_dict
      (eligible_bucket_files bucket_dict (submission_ids w)) referenced_files
      = Ok potential ∧
    deletable_files fnmatchcase potential (include args) (exclude args) = Ok dl ∧
    mapM' (size_line bucket_dict) dl = Ok lines ∧
    deletable_size_of bucket_dict dl = Ok deletable_size ∧
    mop fnmatchcase w ws referenced_files args tr =
    (Ok 0,
     tr ++ run_events w ws args bucket_dict
             (eligible_bucket_files bucket_dict (submission_ids w))
             dl lines deletable_size).
Proof.
  intros Hb.
  destruct (list_bucket_files_run w (bucketName ws) referenced_files
              (verbose args) tr blobs Hb) as (d & Hd & Hinv & Hlist).
  pose proof (inventory_keyed _ _ _ Hinv) as Hkeyed.
  set (eligible := eligible_bucket_files d (submission_ids w)).
  destruct (potential_total (keep_one args) d eligible referenced_files)
    as (potential & Hpot & Hsub).
  destruct (deletable_files_total fnmatchcase potential (include args)
              (exclude args)) as [dl Hdl].
  assert (Hkeys : ∀ f, f ∈ dl → f ∈ PyDict.keys d).
  { intros f Hf. apply (elem_of_deletable_files _ _ _ _ _ _ Hdl) in Hf as [Hf _].
    apply Hsub, eligible_in_bucket in Hf. unfold all_bucket_files in Hf.
    apply elem_of_list_to_set in Hf. by rewrite keyed_keys. }
  destruct (mapM'_total (size_line d) dl) as [lines Hlines].
  { intros f Hf. by apply size_line_present, Hkeys. }
  destruct (mapM'_total (size_of d) dl) as [sizes Hsizes].
  { intros f Hf. by apply size_of_present, Hkeys. }
  exists d, potential, dl, lines, (display_size (py_sum sizes)).
  split; [done|]. split; [done|]. split; [done|]. split; [done|].
  split; [done|]. split.
  { unfold deletable_size_of, total_size. rewrite Hsizes. simpl.
    apply human_readable_size_display. }
  unfold mop. erewrite bind_run by exact Hlist.
  fold eligible. unfold print.
  erewrite bind_run by apply when_run.
  rewrite Hpot. erewrite bind_run by apply lift_run.
  rewrite Hdl. erewrite bind_run by apply lift_run.
  unfold run_events, listing_events. fold eligible.
  destruct dl as [|f dl].
  - (* nothing to delete *)
    rewrite bool_decide_eq_true_2 by done.
    erewrite bind_run by apply when_run.
    unfold mret, M_mret, M_ret. trace_eq.
  - rewrite bool_decide_eq_false_2 by done.
    rewrite Hsizes. erewrite bind_run by apply lift_run.
    rewrite human_readable_size_display. erewrite bind_run by apply lift_run.
    set (dsize := display_size (py_sum sizes)).
    rewrite (bind_run _ _ _ _ _
               (report_run (verbose args || dry_run args) d (f :: dl) lines
                  dsize _ Hlines)).
    rewrite (bind_run _ _ _ _ _ (manifest_run w args d (f :: dl) _ Hkeyed)).
    unfold closing_events.
    destruct (dry_run args).
    { unfold mret, M_mret, M_ret. trace_eq. }
    destruct (yes args).
    { rewrite run_gsutil_run. trace_eq. }
    unfold _confirm_prompt.
    unfold mbind at 1, M_mbind at 1, M_bind at 1.
    unfold mbind at 1, M_mbind at 1, M_bind at 1, emit at 1.
    unfold mret at 1, M_mret at 1, M_ret at 1.
    fold prompt_text. fold (warning ws (f :: dl) dsize).
    destruct (bool_decide (typed_answer w ∈ affirmations)).
    + rewrite run_gsutil_run. trace_eq.
    + unfold mret, M_mret, M_ret. trace_eq.
Qed.

(** A run on a bucket that cannot be found stops with exit status 1
    before anything is selected. *)
Lemma mop_missing_bucket (w : world) (ws : workspace_info)
    (referenced_files : gset string) (args : mop_args) (tr : list event) :
  gcs w !! bucketName ws = None →
  mop fnmatchcase w ws referenced_files args tr =
  (Raise (SystemExit 1),
   tr ++ (if verbose args
          then [Print ("listing contents of bucket gs://" +:+ bucketName ws)]
          else []) ++ [Print "Bucket does not exist!"]).
Proof.
  intros Hb. unfold mop.
  erewrite bind_raise; [done|]. by apply list_bucket_files_missing.
Qed.

End MopRuns.

(** * The claims *)

(** C5. A path whose file name is protected (it ends in [.log] or
    [-rc.txt], or is one of [rc], [exec.sh], [script], [stderr], [stdout],
    [output]) is refused by the safety filter under every include and
    exclude list and every matcher, so it is in no final candidate list,
    whatever the set of raw candidates and the flags. *)
Theorem protected_never_deletable (fnmatchcase : string → string → bool)
    (f filename : string) (include exclude : option (list string)) :
  path_filename f = Ok filename → protected filename = true →
  can_delete fnmatchcase f include exclude = Ok false ∧
  ∀ potential dl,
    deletable_files fnmatchcase potential include exclude = Ok dl → f ∉ dl.
Proof.
  intros Hfn Hp.
  pose proof (can_delete_protected fnmatchcase f filename include exclude Hfn Hp)
    as Hno.
  split; [done|]. intros potential dl Hdl Hin.
  apply (elem_of_deletable_files _ _ _ _ _ _ Hdl) in Hin as [_ Hyes]. congruence.
Qed.

Lemma protected_never_deletable_witness :
  can_delete glob_fnmatchcase "gs://b/sub1/stdout" (Some ["*"]) None = Ok false ∧
  ∀ potential dl,
    deletable_files glob_fnmatchcase potential (Some ["*"]) None = Ok dl →
    "gs://b/sub1/stdout" ∉ dl.
Proof.
  apply (protected_never_deletable glob_fnmatchcase "gs://b/sub1/stdout"
           "stdout" (Some ["*"]) None).
  - vm_compute. reflexivity.
  - vm_compute. reflexivity.
Defined.

(** C6. For a path whose file name is not protected: with a non-empty
    include list the file is deletable exactly when its name matches one of
    the include globs, whatever the exclude list; otherwise, with a
    non-empty exclude list, exactly when its name matches none of the
    exclude globs; otherwise it is deletable. *)
Theorem can_delete_globs (fnmatchcase : string → string → bool)
    (f filename : string) (include exclude : option (list string)) :
  path_filename f = Ok filename → protected filename = false →
  (truthy include = true →
     ∃ b, can_delete fnmatchcase f include exclude = Ok b ∧
          (b = true ↔ ∃ glob, glob ∈ glob_list include ∧
                              fnmatchcase filename glob = true)) ∧
  (truthy include = false → truthy exclude = true →
     ∃ b, can_delete fnmatchcase f include exclude = Ok b ∧
          (b = true ↔ ∀ glob, glob ∈ glob_list exclude →
                              fnmatchcase filename glob = false)) ∧
  (truthy include = false → truthy exclude = false →
     can_delete fnmatchcase f include exclude = Ok true).
Proof.
  intros Hfn Hp.
  rewrite (can_delete_unprotected fnmatchcase f filename include exclude Hfn Hp).
  split; [|split].
  - intros ->. eexists. split; [done|].
    rewrite existsb_exists. by setoid_rewrite list_elem_of_In.
  - intros -> ->. eexists. split; [done|].
    rewrite negb_true_iff, <- not_true_iff_false, existsb_exists.
    setoid_rewrite <- list_elem_of_In. split.
    + intros Hno glob Hin. apply not_true_iff_false. intros Hm. apply Hno. eauto.
    + intros Hall (glob & Hin & Hm). specialize (Hall glob Hin). congruence.
  - by intros -> ->.
Qed.

Lemma can_delete_globs_witness :
  let f := "gs://b/sub1/out/x.bam" in
  (∃ b, can_delete glob_fnmatchcase f (Some ["*.bam"]) (Some ["*.bam"]) = Ok b ∧
        (b = true ↔ ∃ glob, glob ∈ ["*.bam"] ∧
                            glob_fnmatchcase "x.bam" glob = true)) ∧
  (∃ b, can_delete glob_fnmatchcase f None (Some ["*.bam"]) = Ok b ∧
        (b = true ↔ ∀ glob, glob ∈ ["*.bam"] →
                            glob_fnmatchcase "x.bam" glob = false)) ∧
  can_delete glob_fnmatchcase f None None = Ok true.
Proof.
  intros f. split; [|split].
  - apply (proj1 (can_delete_globs glob_fnmatchcase f "x.bam"
                    (Some ["*.bam"]) (Some ["*.bam"]) eq_refl eq_refl)).
    reflexivity.
  - apply (proj1 (proj2 (can_delete_globs glob_fnmatchcase f "x.bam"
                           None (Some ["*.bam"]) eq_refl eq_refl)));
      reflexivity.
  - apply (proj2 (proj2 (can_delete_globs glob_fnmatchcase f "x.bam"
                           None None eq_refl eq_refl)));
      reflexivity.
Defined.

(** C4, as the code has it. The [submission_id] of every object is the
    fourth [/]-separated piece of its full path [gs://bucket/name]; that
    piece always exists, so computing the entry raises nothing. For an
    object at the root of the bucket the fourth piece is the object's own
    name, and the object is not eligible whenever that name is not one of
    the submission ids. *)
Theorem submission_id_fourth_segment (bucket_name : string)
    (referenced_files : gset string) (b : blob) :
  (∃ md, blob_metadata bucket_name referenced_files b = Ok md ∧
         file_path md = full_path_of bucket_name (blob_name b) ∧
         PyStr.split "/" None (file_path md) !! 3%nat = Some (submission_id md)) ∧
  (PyStr.has_char "/" bucket_name = false →
   PyStr.has_char "/" (blob_name b) = false →
   ∀ md, blob_metadata bucket_name referenced_files b = Ok md →
     submission_id md = blob_name b ∧
     ∀ blobs bucket_dict ids,
       collect_blobs bucket_name referenced_files blobs [] = Ok bucket_dict →
       blob_name b ∉ ids →
       file_path md ∉ eligible_bucket_files bucket_dict ids).
Proof.
  split.
  - destruct (blob_metadata_total bucket_name referenced_files b) as [md Hmd].
    exists md. split; [done|].
    destruct (blob_metadata_inv _ _ _ _ Hmd) as (Hpath & Hsid & _).
    split; [done|].
    by rewrite <- (PyStrFacts.split_limit_lookup "/" 4 3) by lia.
  - intros Hbucket Hname md Hmd.
    destruct (blob_metadata_inv _ _ _ _ Hmd) as (Hpath & Hsid & _).
    rewrite Hpath, root_path_segments in Hsid by done.
    injection Hsid as Hsid. split; [done|].
    intros blobs d ids Hd Hnot (md' & Hin & Hsame & Hids)%elem_of_eligible.
    destruct (collect_blobs_inventory bucket_name referenced_files blobs []
                (inventory_empty _ _)) as (d' & Hd' & _ & Hall).
    rewrite Hd in Hd'. injection Hd' as <-.
    apply list_elem_of_fmap in Hin as ([k md''] & -> & Hin).
    eapply Forall_forall in Hall; [|exact Hin].
    destruct Hall as [_ [b' Hb']]. simpl in *.
    destruct (blob_metadata_inv _ _ _ _ Hb') as (_ & Hsid' & _).
    rewrite Hsame, Hpath, root_path_segments in Hsid' by done.
    injection Hsid' as Hsid'. congruence.
Qed.

Lemma submission_id_fourth_segment_witness :
  (∃ md, blob_metadata "b" ∅ root_blob = Ok md ∧
         file_path md = full_path_of "b" (blob_name root_blob) ∧
         PyStr.split "/" None (file_path md) !! 3%nat = Some (submission_id md)) ∧
  (∀ md, blob_metadata "b" ∅ root_blob = Ok md →
     submission_id md = blob_name root_blob ∧
     ∀ blobs bucket_dict ids,
       collect_blobs "b" ∅ blobs [] = Ok bucket_dict →
       blob_name root_blob ∉ ids →
       file_path md ∉ eligible_bucket_files bucket_dict ids).
Proof.
  split.
  - apply (proj1 (submission_id_fourth_segment "b" ∅ root_blob)).
  - apply (proj2 (submission_id_fourth_segment "b" ∅ root_blob));
      reflexivity.
Defined.

(** An object at the root of a bucket does get a [submission_id], its own
    name, and it is eligible when a submission has that name. *)
Lemma root_object_eligible :
  blob_metadata "b" ∅ root_blob = Ok root_entry ∧
  submission_id root_entry = "foo.txt" ∧
  collect_blobs "b" ∅ [root_blob] [] = Ok [("gs://b/foo.txt", root_entry)] ∧
  "gs://b/foo.txt" ∈
    eligible_bucket_files [("gs://b/foo.txt", root_entry)] {["foo.txt"]}.
Proof.
  split; [by vm_compute|]. split; [done|]. split; [by vm_compute|].
  apply elem_of_eligible. exists root_entry.
  split; [by apply list_elem_of_singleton|]. split; [done|].
  by apply elem_of_singleton.
Qed.

Lemma keepers_kept_entry (entries : list file_metadata) (f : file_metadata) :
  no_ties entries → f ∈ entries →
  f ∈ keepers (group_of (unique_key f) entries) ↔ kept_entry entries f.
Proof.
  intros Hties Hin. set (G := group_of (unique_key f) entries).
  assert (HG : ∀ g, g ∈ G ↔ g ∈ entries ∧ unique_key g = unique_key f).
  { intros g. unfold G, group_of. rewrite list_elem_of_filter. tauto. }
  assert (HfG : f ∈ G) by (by apply HG).
  split.
  - intros Hk. split; [done|].
    unfold keepers, choose_keepers in Hk.
    destruct (forallb is_in_data_table G) eqn:Hall.
    { left. apply forallb_referenced in Hall.
      by eapply Forall_forall in Hall. }
    destruct (existsb is_in_data_table G) eqn:Hex.
    { left. apply list_elem_of_filter in Hk as [Hk _]. unfold referenced.
      by destruct (is_in_data_table f). }
    right. intros g Hg Hkey. apply existsb_unreferenced in Hex.
    split; [eapply Forall_forall in Hex; [done|by apply HG]|].
    destruct G as [|g0 G0] eqn:EG; [by apply elem_of_nil in HfG|].
    simpl in Hk. apply list_elem_of_singleton in Hk as ->.
    apply max_from_upper. by apply HG.
  - intros [_ [Href|Hmax]]; [by apply keepers_referenced|].
    assert (Hnone : Forall (λ g, ¬ referenced g) G).
    { apply Forall_forall. intros g [Hg Hkey]%HG. by apply Hmax. }
    destruct G as [|g0 G0] eqn:EG; [by apply elem_of_nil in HfG|].
    unfold keepers. rewrite choose_keepers_none by done.
    apply list_elem_of_singleton.
    pose proof (max_from_elem time_updated g0 G0) as Hm.
    pose proof (max_from_upper time_updated g0 G0 f HfG) as Hle.
    apply HG in Hm as [Hm Hkey].
    destruct (Hmax _ Hm Hkey) as [Hmref Hge].
    apply Hties; [done|done|done| |done|lia].
    eapply Forall_forall in Hnone; [done|done].
Qed.

Lemma get_files_to_keep_kept_entry (bucket_dict : pydict file_metadata)
    (kept : gset string) (p : string) :
  no_ties (PyDict.values bucket_dict) →
  get_files_to_keep bucket_dict = Ok kept →
  p ∈ kept ↔ ∃ f, kept_entry (PyDict.values bucket_dict) f ∧ file_path f = p.
Proof.
  intros Hties Hk. rewrite (elem_of_get_files_to_keep _ _ _ Hk). split.
  - intros (f & Hin & Hp & Hf). exists f. split; [|done].
    by apply keepers_kept_entry.
  - intros (f & Hf & Hp). exists f. pose proof Hf as [Hin _].
    split; [done|]. split; [done|]. by apply keepers_kept_entry.
Qed.

Lemma get_files_to_keep_perm (bucket_dict bucket_dict' : pydict file_metadata) :
  bucket_dict' ≡ₚ bucket_dict → no_ties (PyDict.values bucket_dict) →
  get_files_to_keep bucket_dict' = get_files_to_keep bucket_dict.
Proof.
  intros Hperm Hties.
  assert (Hvalues : PyDict.values bucket_dict' ≡ₚ PyDict.values bucket_dict)
    by (unfold PyDict.values; by rewrite Hperm).
  assert (Hties' : no_ties (PyDict.values bucket_dict')).
  { intros f g Hf Hg. rewrite Hvalues in Hf, Hg. by apply Hties. }
  destruct (get_files_to_keep_total bucket_dict) as [kept Hk].
  destruct (get_files_to_keep_total bucket_dict') as [kept' Hk'].
  rewrite Hk, Hk'. f_equal. apply set_eq. intros p.
  rewrite (get_files_to_keep_kept_entry _ _ _ Hties Hk).
  rewrite (get_files_to_keep_kept_entry _ _ _ Hties' Hk').
  unfold kept_entry. by setoid_rewrite Hvalues.
Qed.




(** C10. Every referenced entry of an inventory is among the keepers of
    [get_files_to_keep]; hence, for the inventory listed from any bucket
    against any set of referenced files, any submission ids and any include
    and exclude lists, the files deletable with [--keep-one] are among those
    deletable without it. *)
Theorem keep_one_deletes_no_more (fnmatchcase : string → string → bool)
    (bucket_name : string) (referenced_files ids : gset string)
    (blobs : list blob) (include exclude : option (list string)) :
  (∀ bucket_dict : pydict file_metadata,
     ∃ kept, get_files_to_keep bucket_dict = Ok kept ∧
             ∀ md, md ∈ PyDict.values bucket_dict → referenced md →
                   file_path md ∈ kept) ∧
  ∃ bucket_dict potential_keep potential_plain dl_keep dl_plain,
    collect_blobs bucket_name referenced_files blobs [] = Ok bucket_dict ∧
    potential_deletable_files true bucket_dict
      (eligible_bucket_files bucket_dict ids) referenced_files
      = Ok potential_keep ∧
    potential_deletable_files false bucket_dict
      (eligible_bucket_files bucket_dict ids) referenced_files
      = Ok potential_plain ∧
    deletable_files fnmatchcase potential_keep include exclude = Ok dl_keep ∧
    deletable_files fnmatchcase potential_plain include exclude = Ok dl_plain ∧
    ∀ p, p ∈ dl_keep → p ∈ dl_plain.
Proof.
  split.
  - intros d. destruct (get_files_to_keep_total d) as [kept Hk].
    exists kept. split; [done|]. intros md Hin Href.
    by apply (referenced_kept d kept md).
  - destruct (collect_blobs_inventory bucket_name referenced_files blobs []
                (inventory_empty _ _)) as (d & Hd & Hnd & Hall).
    set (eligible := eligible_bucket_files d ids).
    destruct (potential_total true d eligible referenced_files)
      as (pk & Hpk & _).
    destruct (potential_total false d eligible referenced_files)
      as (pp & Hpp & _).
    destruct (deletable_files_total fnmatchcase pk include exclude) as [dk Hdk].
    destruct (deletable_files_total fnmatchcase pp include exclude) as [dp Hdp].
    exists d, pk, pp, dk, dp. repeat (split; [done|]).
    intros p Hp.
    apply (elem_of_deletable_files _ _ _ _ _ _ Hdk) in Hp as [Hp Hcan].
    apply (elem_of_deletable_files _ _ _ _ _ _ Hdp). split; [|done].
    unfold potential_deletable_files in Hpk, Hpp.
    destruct (get_files_to_keep d) as [kept|] eqn:Hkept; [|done].
    simpl in Hpk. injection Hpk as <-. injection Hpp as <-.
    apply elem_of_difference in Hp as [Hel Hnk].
    apply elem_of_difference. split; [done|]. intros Href. apply Hnk.
    apply elem_of_eligible in Hel as (md & Hin & <- & _).
    apply (referenced_kept d kept md Hkept Hin).
    apply list_elem_of_fmap in Hin as ([k md'] & -> & Hin).
    eapply Forall_forall in Hall; [|exact Hin].
    destruct Hall as [_ [b Hb]]. simpl in *.
    destruct (blob_metadata_inv _ _ _ _ Hb) as (_ & _ & Htab & _).
    unfold referenced. rewrite Htab. by apply bool_decide_eq_true.
Qed.

Lemma values_unique_path (bucket_dict : pydict file_metadata)
    (md md' : file_metadata) :
  keyed_by_path bucket_dict →
  md ∈ PyDict.values bucket_dict → md' ∈ PyDict.values bucket_dict →
  file_path md = file_path md' → md = md'.
Proof.
  intros [Hnd Hall] ([k v] & -> & Hin)%list_elem_of_fmap
         ([k' v'] & -> & Hin')%list_elem_of_fmap Hsame. simpl in *.
  pose proof (proj1 (Forall_forall _ _) Hall _ Hin) as Hk.
  pose proof (proj1 (Forall_forall _ _) Hall _ Hin') as Hk'. simpl in *.
  assert (k = k') as <- by congruence.
  pose proof (PyDictFacts.get_elem_of _ _ _ Hnd Hin).
  pose proof (PyDictFacts.get_elem_of _ _ _ Hnd Hin'). congruence.
Qed.






(** ** Runs that delete nothing, and the manifest *)

Lemma gsutil_events_not_manifest (w : world) (args : mop_args)
    (dl : list string) :
  filter (λ ev, is_manifest ev = false) (gsutil_events w args dl) =
  gsutil_events w (with_make_manifest false args) dl.
Proof. unfold gsutil_events. simpl. by destruct (verbose args). Qed.

Lemma run_events_frame (w : world) (ws : workspace_info) (args : mop_args)
    (bucket_dict : pydict file_metadata) (eligible : gset string)
    (dl lines : list string) (deletable_size : string) :
  filter (λ ev, is_manifest ev = false)
    (run_events w ws args bucket_dict eligible dl lines deletable_size) =
  run_events w ws (with_make_manifest false args) bucket_dict eligible dl lines
    deletable_size.
Proof.
  unfold run_events, listing_events, manifest_events, closing_events.
  rewrite !filter_app. simpl. f_equal.
  { by destruct (verbose args). }
  destruct dl as [|f dl]; [by destruct (verbose args)|].
  rewrite !filter_app. f_equal.
  { by destruct (verbose args || dry_run args). }
  replace (filter (λ ev, is_manifest ev = false)
             (if make_manifest args
              then [ToCsv (manifest_name w args) fields_for_manifest
                      (manifest_rows bucket_dict (f :: dl))]
              else [])) with (@nil event) by (by destruct (make_manifest args)).
  simpl. destruct (dry_run args); [done|].
  destruct (yes args); [apply gsutil_events_not_manifest|].
  rewrite filter_cons. simpl. f_equal.
  destruct (bool_decide (typed_answer w ∈ affirmations)); [|done].
  apply gsutil_events_not_manifest.
Qed.

Lemma run_events_manifest (w : world) (ws : workspace_info) (args : mop_args)
    (bucket_dict : pydict file_metadata) (eligible : gset string)
    (dl lines : list string) (deletable_size : string) :
  make_manifest args = true → dl ≠ [] →
  filter (λ ev, is_manifest ev = true)
    (run_events w ws args bucket_dict eligible dl lines deletable_size) =
  [ToCsv (manifest_name w args) fields_for_manifest
     (manifest_rows bucket_dict dl)].
Proof.
  intros Hm Hne.
  unfold run_events, listing_events, manifest_events, closing_events,
    gsutil_events.
  rewrite Hm. destruct dl as [|f dl]; [done|].
  rewrite !filter_app.
  replace (filter (λ ev, is_manifest ev = true)
             (if verbose args then _ else [])) with (@nil event)
    by (by destruct (verbose args)).
  replace (filter (λ ev, is_manifest ev = true)
             (if verbose args || dry_run args then _ else [])) with (@nil event)
    by (by destruct (verbose args || dry_run args)).
  simpl. f_equal.
  destruct (dry_run args); [done|].
  destruct (yes args); [by destruct (verbose args)|].
  rewrite filter_cons. simpl.
  destruct (bool_decide (typed_answer w ∈ affirmations)); [|done].
  by destruct (verbose args).
Qed.

Lemma run_events_no_delete (w : world) (ws : workspace_info) (args : mop_args)
    (bucket_dict : pydict file_metadata) (eligible : gset string)
    (dl lines : list string) (deletable_size : string) :
  dry_run args = true ∨ (yes args = false ∧ typed_answer w ∉ affirmations) →
  Forall (λ ev, is_delete ev = false)
    (run_events w ws args bucket_dict eligible dl lines deletable_size).
Proof.
  intros Hstop.
  unfold run_events, listing_events, manifest_events, closing_events.
  apply Forall_app. split; [destruct (verbose args); repeat constructor|].
  destruct dl as [|f dl]; [destruct (verbose args); repeat constructor|].
  apply Forall_app. split.
  { destruct (verbose args || dry_run args); repeat constructor. }
  apply Forall_app. split; [destruct (make_manifest args); repeat constructor|].
  destruct Hstop as [->|[-> Hno]]; [constructor|].
  destruct (dry_run args); [constructor|].
  rewrite bool_decide_eq_false_2 by done. repeat constructor.
Qed.




(** Every row of the manifest is an entry of the inventory with its two
    manifest fields filled in. *)
Lemma manifest_rows_elem (bucket_dict : pydict file_metadata)
    (dl : list string) (r : manifest_row) :
  r ∈ manifest_rows bucket_dict dl ↔
  ∃ md, md ∈ PyDict.values bucket_dict ∧
        r = manifest_row_of (annotated dl md).
Proof.
  unfold manifest_rows. rewrite sort_values_perm, <- list_fmap_compose.
  rewrite list_elem_of_fmap. split.
  - intros (md & -> & Hmd). by exists md.
  - intros (md & Hmd & ->). by exists md.
Qed.

(** With one row per path, the order of the manifest is determined by the
    two sort keys: every arrangement of the same rows that respects them
    is the manifest itself. *)
Lemma manifest_rows_unique (bucket_dict : pydict file_metadata)
    (dl : list string) (rows : list manifest_row) :
  keyed_by_path bucket_dict →
  rows ≡ₚ manifest_rows bucket_dict dl →
  StronglySorted manifest_before rows →
  rows = manifest_rows bucket_dict dl.
Proof.
  intros Hkeyed Hperm Hsorted.
  apply (StronglySorted_unique_strong manifest_before); [|done| |done].
  - intros r1 r2 Hr1 Hr2 H12 H21. rewrite Hperm in Hr1.
    apply manifest_rows_elem in Hr1 as (md1 & Hmd1 & ->).
    apply manifest_rows_elem in Hr2 as (md2 & Hmd2 & ->).
    assert (Hpath : file_path md1 = file_path md2).
    { unfold manifest_before in H12, H21.
      destruct H12 as [?|[? Hle]], H21 as [?|[? Hge]]; try lia.
      exact (anti_symm String.le _ _ Hge Hle). }
    by rewrite (values_unique_path bucket_dict md1 md2).
  - apply sort_values_sorted.
Qed.




(** * Further properties *)

(** ** What [choose_keepers] and [get_files_to_keep] keep *)

Lemma singleton_sublist {A} (x : A) (l : list A) : x ∈ l → [x] `sublist_of` l.
Proof.
  induction l as [|y l IH]; intros Hx; [by apply elem_of_nil in Hx|].
  apply elem_of_cons in Hx as [->|Hx].
  - apply sublist_skip, sublist_nil_l.
  - by apply sublist_cons, IH.
Qed.

Lemma keepers_sublist (G : list file_metadata) : keepers G `sublist_of` G.
Proof.
  unfold keepers, choose_keepers.
  destruct (forallb is_in_data_table G); [done|].
  destruct (existsb is_in_data_table G); [apply sublist_filter|].
  destruct G as [|g G]; simpl; [done|].
  apply singleton_sublist, max_from_elem.
Qed.

Lemma keepers_nonempty (G : list file_metadata) : G ≠ [] → keepers G ≠ [].
Proof.
  intros HG. unfold keepers, choose_keepers.
  destruct (forallb is_in_data_table G); [done|].
  destruct (existsb is_in_data_table G) eqn:Hex.
  - apply existsb_referenced, Exists_exists in Hex as (f & Hin & Hf).
    intros Hnil.
    assert (Hk : f ∈ filter (λ f, is_in_data_table f) G).
    { apply list_elem_of_filter. split; [by rewrite Hf|done]. }
    rewrite Hnil in Hk. by apply elem_of_nil in Hk.
  - destruct G as [|g G]; [done|]. simpl. done.
Qed.

Lemma keepers_idempotent (G : list file_metadata) :
  keepers (keepers G) = keepers G.
Proof.
  unfold keepers at 2 3, choose_keepers.
  destruct (forallb is_in_data_table G) eqn:Hall.
  { unfold keepers, choose_keepers. by rewrite Hall. }
  destruct (existsb is_in_data_table G).
  { rewrite filter_referenced_bool. unfold keepers, choose_keepers.
    by rewrite forallb_filter_referenced. }
  destruct G as [|g G]; [done|]. simpl. apply keepers_singleton.
Qed.

(** X1. [choose_keepers] never raises; what it keeps is a sub-list of the
    group, in the order of the group, with at least one member when the
    group has one; and resolving the keepers again changes nothing. *)
Theorem choose_keepers_sound (G : list file_metadata) :
  ∃ K, choose_keepers G = Ok K ∧
       K `sublist_of` G ∧
       (G ≠ [] → K ≠ []) ∧
       choose_keepers K = Ok K.
Proof.
  exists (keepers G). split; [apply choose_keepers_keepers|].
  split; [apply keepers_sublist|]. split; [apply keepers_nonempty|].
  by rewrite choose_keepers_keepers, keepers_idempotent.
Qed.

Lemma kept_one_per_key (bucket_dict : pydict file_metadata) :
  ∃ kept, get_files_to_keep bucket_dict = Ok kept ∧
    (∀ p, p ∈ kept → ∃ md, md ∈ PyDict.values bucket_dict ∧ file_path md = p) ∧
    (∀ md, md ∈ PyDict.values bucket_dict →
       ∃ q, q ∈ PyDict.values bucket_dict ∧
            unique_key q = unique_key md ∧ file_path q ∈ kept).
Proof.
  destruct (get_files_to_keep_total bucket_dict) as [kept Hk].
  exists kept. split; [done|]. split.
  - intros p (f & Hin & Hp & _)%(elem_of_get_files_to_keep _ _ _ Hk). eauto.
  - intros md Hmd.
    set (G := group_of (unique_key md) (PyDict.values bucket_dict)).
    assert (HG : G ≠ []) by (by apply group_of_nonempty, list_elem_of_fmap_2).
    apply keepers_nonempty in HG.
    destruct (keepers G) as [|q K] eqn:HK; [done|].
    assert (Hq : q ∈ keepers G) by (rewrite HK; apply elem_of_cons; by left).
    pose proof (keepers_subseteq _ _ Hq) as HqG.
    apply list_elem_of_filter in HqG as [Hkey Hqin].
    exists q. split; [done|]. split; [done|].
    apply (elem_of_get_files_to_keep _ _ _ Hk). exists q.
    split; [done|]. split; [done|]. by rewrite Hkey.
Qed.

(** X2. [get_files_to_keep] keeps paths of the inventory only, and for
    every entry of the inventory it keeps the path of at least one entry
    with the same unique key. *)
Theorem get_files_to_keep_one_per_key (bucket_dict : pydict file_metadata) :
  ∃ kept, get_files_to_keep bucket_dict = Ok kept ∧
    (∀ p, p ∈ kept → ∃ md, md ∈ PyDict.values bucket_dict ∧ file_path md = p) ∧
    (∀ md, md ∈ PyDict.values bucket_dict →
       ∃ q, q ∈ PyDict.values bucket_dict ∧
            unique_key q = unique_key md ∧ file_path q ∈ kept).
Proof. apply kept_one_per_key. Qed.

(** ** What [mop] deletes *)

(** The raw candidates of either mode hold no referenced file. *)
Lemma potential_not_referenced (keep_one : bool) (bucket_name : string)
    (referenced_files ids potential : gset string)
    (bucket_dict : pydict file_metadata) (p : string) :
  inventory bucket_name referenced_files bucket_dict →
  potential_deletable_files keep_one bucket_dict
    (eligible_bucket_files bucket_dict ids) referenced_files = Ok potential →
  p ∈ potential → p ∉ referenced_files.
Proof.
  intros [_ Hall] Hpot Hp Href. unfold potential_deletable_files in Hpot.
  destruct keep_one.
  - destruct (get_files_to_keep bucket_dict) as [kept|] eqn:Hkept; [|done].
    simpl in Hpot. injection Hpot as <-.
    apply elem_of_difference in Hp as [Hel Hnk]. apply Hnk.
    apply elem_of_eligible in Hel as (md & Hin & <- & _).
    apply (referenced_kept bucket_dict kept md Hkept Hin).
    apply list_elem_of_fmap in Hin as ([k md'] & -> & Hin).
    eapply Forall_forall in Hall; [|exact Hin].
    destruct Hall as [_ [b Hb]]. simpl in *.
    destruct (blob_metadata_inv _ _ _ _ Hb) as (_ & _ & Htab & _).
    unfold referenced. rewrite Htab. by apply bool_decide_eq_true.
  - injection Hpot as <-. by apply elem_of_difference in Hp as [_ ?].
Qed.

(** The only start of a process among the events of a run is the one of
    the delete utility, with the final candidates on its standard input. *)
Lemma run_events_delete (w : world) (ws : workspace_info) (args : mop_args)
    (bucket_dict : pydict file_metadata) (eligible : gset string)
    (dl lines : list string) (deletable_size : string) :
  filter (λ ev, is_delete ev = true)
    (run_events w ws args bucket_dict eligible dl lines deletable_size) =
  if bool_decide (dl = []) || dry_run args then []
  else if yes args || bool_decide (typed_answer w ∈ affirmations)
       then [Popen gsrm_args (PyStr.join nl dl)]
       else [].
Proof.
  unfold run_events, listing_events, manifest_events, closing_events,
    gsutil_events, gsrm_args.
  rewrite !filter_app.
  replace (filter (λ ev, is_delete ev = true)
             (if verbose args then _ else [])) with (@nil event)
    by (by destruct (verbose args)).
  destruct dl as [|f dl]; [by destruct (verbose args)|].
  rewrite !filter_app.
  replace (filter (λ ev, is_delete ev = true)
             (if verbose args || dry_run args then _ else [])) with (@nil event)
    by (by destruct (verbose args || dry_run args)).
  replace (filter (λ ev, is_delete ev = true)
             (if make_manifest args then _ else [])) with (@nil event)
    by (by destruct (make_manifest args)).
  simpl. destruct (dry_run args); [done|].
  destruct (yes args); simpl; [by destruct (verbose args)|].
  rewrite filter_cons. simpl.
  destruct (bool_decide (typed_answer w ∈ affirmations)); [|done].
  by destruct (verbose args).
Qed.

Lemma run_events_prompt (w : world) (ws : workspace_info) (args : mop_args)
    (bucket_dict : pydict file_metadata) (eligible : gset string)
    (dl lines : list string) (deletable_size : string) :
  filter (λ ev, is_prompt ev = true)
    (run_events w ws args bucket_dict eligible dl lines deletable_size) =
  if bool_decide (dl = []) || dry_run args || yes args then []
  else [Input (warning ws dl deletable_size +:+ prompt_text) (typed_answer w)].
Proof.
  unfold run_events, listing_events, manifest_events, closing_events,
    gsutil_events.
  rewrite !filter_app.
  replace (filter (λ ev, is_prompt ev = true)
             (if verbose args then _ else [])) with (@nil event)
    by (by destruct (verbose args)).
  destruct dl as [|f dl]; [by destruct (verbose args)|].
  rewrite !filter_app.
  replace (filter (λ ev, is_prompt ev = true)
             (if verbose args || dry_run args then _ else [])) with (@nil event)
    by (by destruct (verbose args || dry_run args)).
  replace (filter (λ ev, is_prompt ev = true)
             (if make_manifest args then _ else [])) with (@nil event)
    by (by destruct (make_manifest args)).
  simpl. destruct (dry_run args); [done|].
  destruct (yes args); simpl; [by destruct (verbose args)|].
  rewrite filter_cons. simpl. f_equal.
  destruct (bool_decide (typed_answer w ∈ affirmations)); [|done].
  by destruct (verbose args).
Qed.







(** X6. When the bucket of the workspace cannot be found, [mop] prints
    [Bucket does not exist!] and exits with status 1; it selects nothing,
    asks nothing, writes no manifest and deletes nothing. *)
Theorem mop_exits_on_missing_bucket (fnmatchcase : string → string → bool)
    (w : world) (ws : workspace_info) (referenced_files : gset string)
    (args : mop_args) (tr : list event) :
  gcs w !! bucketName ws = None →
  ∃ evs,
    mop fnmatchcase w ws referenced_files args tr =
      (Raise (SystemExit 1), tr ++ evs) ∧
    last evs = Some (Print "Bucket does not exist!") ∧
    Forall (λ ev, is_delete ev = false ∧ is_manifest ev = false ∧
                  is_prompt ev = false) evs.
Proof.
  intros Hb. eexists. split; [by apply mop_missing_bucket|]. split.
  - by destruct (verbose args).
  - destruct (verbose args); repeat constructor.
Qed.

Lemma mop_exits_on_missing_bucket_witness :
  ∃ evs,
    mop glob_fnmatchcase (sample_world "y")
      {| bucketName := "gone"; name := "ws" |} ∅ plain_args [] =
      (Raise (SystemExit 1), [] ++ evs) ∧
    last evs = Some (Print "Bucket does not exist!") ∧
    Forall (λ ev, is_delete ev = false ∧ is_manifest ev = false ∧
                  is_prompt ev = false) evs.
Proof.
  apply (mop_exits_on_missing_bucket glob_fnmatchcase (sample_world "y")
           {| bucketName := "gone"; name := "ws" |} ∅ plain_args []).
  reflexivity.
Defined.

(** ** More facts about strings *)

Module PyStrMore.
Import PyStr PyStrFacts.

#[local] Arguments String.append !s1 s2 / : simpl nomatch.

(** The last piece of a full split has no separator, and the text is that
    piece alone or ends with a separator followed by it. *)
Lemma split_last_piece (sep : ascii) (s : string) :
  ∃ base, last (split sep None s) = Some base ∧
          has_char sep base = false ∧
          (s = base ∨ ∃ dir, s = dir +:+ String sep base).
Proof.
  induction s as [|c s (base & Hlast & Hbase & Hs)]; simpl.
  - exists "". split; [done|]. split; [done|]. by left.
  - destruct (bool_decide (c = sep)) eqn:Hc; simpl.
    + apply bool_decide_eq_true in Hc as ->.
      exists base. split.
      { pose proof (split_nonempty sep None s).
        by destruct (split sep None s). }
      split; [done|]. right.
      destruct Hs as [->|[dir ->]]; [by exists ""|].
      by exists (String sep dir).
    + pose proof (split_nonempty sep None s) as Hne.
      destruct (split sep None s) as [|h t] eqn:E; [done|].
      destruct t as [|h' t].
      * simpl in Hlast. injection Hlast as ->.
        exists (String c base). split; [done|]. split.
        { simpl. by rewrite Hc. }
        destruct Hs as [->|[dir ->]]; [by left|].
        exfalso.
        destruct (split_sep_two sep None dir base) as (x & y & z & E'); [done|].
        rewrite E in E'. discriminate E'.
      * exists base. split; [done|]. split; [done|]. right.
        destruct Hs as [->|[dir ->]].
        { exfalso. rewrite split_no_sep in E by done. done. }
        by exists (String c dir).
Qed.

(** Cutting a text at its last occurrence of a character is unambiguous. *)
Lemma app_sep_inj_l (c : ascii) (u u' v v' : string) :
  has_char c u = false → has_char c u' = false →
  u +:+ String c v = u' +:+ String c v' → u = u' ∧ v = v'.
Proof.
  revert u'. induction u as [|a u IH]; intros [|a' u'] Hu Hu' Heq; simpl in *.
  - by injection Heq as ->.
  - injection Heq as <- _. by rewrite bool_decide_eq_true_2 in Hu'.
  - injection Heq as -> _. by rewrite bool_decide_eq_true_2 in Hu.
  - injection Heq as -> Heq.
    apply orb_false_iff in Hu as [_ Hu]. apply orb_false_iff in Hu' as [_ Hu'].
    destruct (IH u' Hu Hu' Heq) as [-> ->]. done.
Qed.

Lemma rev_inj (a b : string) : String.rev a = String.rev b → a = b.
Proof. intros H. by rewrite <- (rev_involutive a), H, rev_involutive. Qed.

Lemma app_sep_inj_r (c : ascii) (u u' v v' : string) :
  has_char c v = false → has_char c v' = false →
  u +:+ String c v = u' +:+ String c v' → u = u' ∧ v = v'.
Proof.
  intros Hv Hv' Heq. apply (f_equal String.rev) in Heq.
  change (u +:+ String c v) with (u +:+ String c "" +:+ v) in Heq.
  change (u' +:+ String c v') with (u' +:+ String c "" +:+ v') in Heq.
  rewrite !rev_app in Heq. change (String.rev (String c "")) with (String c "") in Heq.
  rewrite !app_assoc in Heq. simpl in Heq.
  apply app_sep_inj_l in Heq as [Hv1 Hu1]; rewrite ?has_char_rev; try done.
  split; by apply rev_inj.
Qed.

(** The decimal form of a number has no dot. *)
Lemma pretty_N_go_no_dot (x : N) (s : string) :
  has_char "." (pretty_N_go x s) = has_char "." s.
Proof.
  revert s. induction (N.lt_wf_0 x) as [x _ IH]; intros s.
  destruct (decide (x = 0)%N) as [->|Hx].
  - by rewrite pretty_N_go_0.
  - rewrite pretty_N_go_step by lia. rewrite IH.
    + simpl. unfold pretty_N_char. by repeat case_match.
    + apply N.div_lt; lia.
Qed.

Lemma pretty_Z_no_dot (z : Z) : has_char "." (pretty z) = false.
Proof.
  assert (HN : ∀ n : N, has_char "." (pretty n) = false).
  { intros n. unfold pretty, pretty_N. case_decide; [done|].
    by rewrite pretty_N_go_no_dot. }
  destruct z as [|p|p]; [done|apply (HN (Npos p))|].
  unfold pretty, pretty_Z. simpl. apply (HN (Npos p)).
Qed.

End PyStrMore.

(** ** The entries of the inventory *)

Lemma blob_metadata_fields (bucket_name : string)
    (referenced_files : gset string) (b : blob) (md : file_metadata) :
  blob_metadata bucket_name referenced_files b = Ok md →
  file_path md = full_path_of bucket_name (blob_name b) ∧
  last (PyStr.split "/" None (blob_name b)) = Some (file_name md) ∧
  size md = blob_size b ∧ md5 md = blob_md5_hash b ∧
  time_created md = blob_time_created b ∧ time_updated md = blob_updated b ∧
  unique_key md =
    file_name md +:+ "." +:+ md5 md +:+ "." +:+ pretty (size md) ∧
  is_in_data_table md = bool_decide (file_path md ∈ referenced_files).
Proof.
  unfold blob_metadata. fold (full_path_of bucket_name (blob_name b)).
  unfold py_getitem, py_getitem_last.
  destruct (PyStr.split "/" (Some 4%nat) _ !! 3%nat) as [sid|]; [|done].
  simpl. destruct (last _) as [fn|]; [|done]. simpl.
  intros [= <-]. simpl. done.
Qed.

(** X7. The [file_name] stored for an object has no slash and is the name
    [can_delete] reads off the object's full path, so the safety filter
    judges every inventory entry by its [file_name]. *)
Theorem entry_file_name (bucket_name : string) (referenced_files : gset string)
    (b : blob) :
  ∃ md, blob_metadata bucket_name referenced_files b = Ok md ∧
        PyStr.has_char "/" (file_name md) = false ∧
        path_filename (file_path md) = Ok (file_name md) ∧
        ∀ fnmatchcase include exclude,
          protected (file_name md) = true →
          can_delete fnmatchcase (file_path md) include exclude = Ok false.
Proof.
  destruct (blob_metadata_total bucket_name referenced_files b) as [md Hmd].
  exists md. split; [done|].
  destruct (blob_metadata_fields _ _ _ _ Hmd) as (Hpath & Hlast & _).
  destruct (PyStrMore.split_last_piece "/" (blob_name b))
    as (base & Hbase & Hno & Hname).
  rewrite Hlast in Hbase. injection Hbase as <-.
  assert (Hfn : path_filename (file_path md) = Ok (file_name md)).
  { rewrite Hpath. unfold full_path_of.
    destruct Hname as [->|[dir ->]].
    - apply (path_filename_base ("gs://" +:+ bucket_name)). done.
    - replace ("gs://" +:+ bucket_name +:+ "/" +:+ dir +:+ String "/" (file_name md))
        with (("gs://" +:+ bucket_name +:+ "/" +:+ dir) +:+ "/" +:+ file_name md).
      + by apply path_filename_base.
      + by rewrite !PyStrFacts.app_assoc. }
  split; [done|]. split; [done|].
  intros fm include exclude Hprot. by eapply can_delete_protected.
Qed.

(** X8. Two entries of inventories have the same unique key only if they
    agree on file name, content hash and size, provided the hashes contain
    no dot (an MD5 in base 64 has none). *)
Theorem unique_key_injective (bucket_name bucket_name' : string)
    (referenced_files referenced_files' : gset string) (b b' : blob)
    (md md' : file_metadata) :
  blob_metadata bucket_name referenced_files b = Ok md →
  blob_metadata bucket_name' referenced_files' b' = Ok md' →
  PyStr.has_char "." (blob_md5_hash b) = false →
  PyStr.has_char "." (blob_md5_hash b') = false →
  unique_key md = unique_key md' ↔
  file_name md = file_name md' ∧ md5 md = md5 md' ∧ size md = size md'.
Proof.
  intros Hmd Hmd' Hdot Hdot'.
  destruct (blob_metadata_fields _ _ _ _ Hmd) as (_ & _ & _ & Hm & _ & _ & Hk & _).
  destruct (blob_metadata_fields _ _ _ _ Hmd') as (_ & _ & _ & Hm' & _ & _ & Hk' & _).
  rewrite Hk, Hk'. split.
  - intros Heq.
    change (file_name md +:+ "." +:+ md5 md +:+ "." +:+ pretty (size md))
      with (file_name md +:+ String "." (md5 md +:+ String "." (pretty (size md))))
      in Heq.
    change (file_name md' +:+ "." +:+ md5 md' +:+ "." +:+ pretty (size md'))
      with (file_name md' +:+ String "." (md5 md' +:+ String "." (pretty (size md'))))
      in Heq.
    assert (Hassoc : ∀ a m x : string,
               a +:+ String "." (m +:+ x) = (a +:+ String "." m) +:+ x)
      by (intros; by rewrite PyStrFacts.app_assoc).
    rewrite !Hassoc in Heq.
    apply PyStrMore.app_sep_inj_r in Heq as [Heq Hsize];
      [|apply PyStrMore.pretty_Z_no_dot..].
    apply PyStrMore.app_sep_inj_r in Heq as [Hname Hmd5];
      [|by rewrite ?Hm, ?Hm'..].
    split; [done|]. split; [done|]. by apply (inj pretty).
  - by intros (-> & -> & ->).
Qed.

Lemma unique_key_injective_witness :
  let md := copy_of "gs://b/sub1/x.bam" 5 false in
  let md' := copy_of "gs://b/sub1/old/x.bam" 7 false in
  unique_key md = unique_key md' ↔
  file_name md = file_name md' ∧ md5 md = md5 md' ∧ size md = size md'.
Proof.
  apply (unique_key_injective "b" "b" ∅ ∅
           (Blob "sub1/x.bam" "h" 10 0 5) (Blob "sub1/old/x.bam" "h" 10 0 7));
    reflexivity.
Defined.

(** Where the entries and the keys of the dictionary come from while the
    loop of [list_bucket_files] runs. *)
Lemma collect_blobs_entries (bucket_name : string)
    (referenced_files : gset string) (blobs : list blob)
    (d d' : pydict file_metadata) :
  collect_blobs bucket_name referenced_files blobs d = Ok d' →
  (∀ k md, (k, md) ∈ d' →
     (k, md) ∈ d ∨
     ∃ b, b ∈ blobs ∧ is_file b ∧
          blob_metadata bucket_name referenced_files b = Ok md ∧
          k = file_path md) ∧
  (∀ p, p ∈ PyDict.keys d' ↔
        p ∈ PyDict.keys d ∨
        ∃ b, b ∈ blobs ∧ is_file b ∧
             p = full_path_of bucket_name (blob_name b)) ∧
  (length d' ≤ length d + length blobs)%nat.
Proof.
  revert d. induction blobs as [|b blobs IH]; intros d; simpl.
  - intros [= <-]. split; [auto|]. split; [|lia].
    intros p. split; [auto|]. intros [?|(b & Hb & _)]; [done|].
    by apply elem_of_nil in Hb.
  - destruct (negb (PyStr.endswith (blob_name b) "/")) eqn:Hfile.
    + destruct (blob_metadata bucket_name referenced_files b) as [md0|] eqn:Hmd;
        [|done].
      simpl. intros Hd'. destruct (IH _ Hd') as (Hent & Hkeys & Hlen).
      apply negb_true_iff in Hfile.
      destruct (blob_metadata_fields _ _ _ _ Hmd) as (Hpath & _).
      split; [|split].
      * intros k md Hin. destruct (Hent k md Hin) as [Hold|(b' & Hb' & Hrest)].
        -- apply PyDictFacts.set_elem_of in Hold as [[= -> ->]|Hold]; [|by left].
           right. exists b. split; [apply elem_of_cons; by left|done].
        -- right. exists b'. split; [apply elem_of_cons; by right|done].
      * intros p. rewrite Hkeys, PyDictFacts.set_keys_in. split.
        -- intros [[->|Hp]|(b' & Hb' & Hrest)].
           ++ right. exists b. split; [apply elem_of_cons; by left|done].
           ++ by left.
           ++ right. exists b'. split; [apply elem_of_cons; by right|done].
        -- intros [Hp|(b' & [->|Hb']%elem_of_cons & Hf & ->)].
           ++ left. by right.
           ++ left. left. done.
           ++ right. by exists b'.
      * destruct (PyDictFacts.set_length_keys d (file_path md0) md0); lia.
    + intros Hd'. destruct (IH _ Hd') as (Hent & Hkeys & Hlen).
      apply negb_false_iff in Hfile.
      split; [|split; [|lia]].
      * intros k md Hin. destruct (Hent k md Hin) as [Hold|(b' & Hb' & Hrest)];
          [by left|].
        right. exists b'. split; [apply elem_of_cons; by right|done].
      * intros p. rewrite Hkeys. split.
        -- intros [Hp|(b' & Hb' & Hrest)]; [by left|].
           right. exists b'. split; [apply elem_of_cons; by right|done].
        -- intros [Hp|(b' & [->|Hb']%elem_of_cons & Hf & ->)]; [by left| |].
           ++ unfold is_file in Hf. congruence.
           ++ right. by exists b'.
Qed.

(** X9. The dictionary [list_bucket_files] builds has one entry for every
    distinct full path [gs://bucket/name] of a listed blob whose name does
    not end in a slash, and no other; each entry is stored under its own
    path and carries the size, hash and times of a listed blob with that
    path, with [is_in_data_table] telling whether the path is a referenced
    file. Directory placeholders never get an entry. *)
Theorem list_bucket_files_inventory (bucket_name : string)
    (referenced_files : gset string) (blobs : list blob) :
  ∃ bucket_dict,
    collect_blobs bucket_name referenced_files blobs [] = Ok bucket_dict ∧
    NoDup (PyDict.keys bucket_dict) ∧
    (length bucket_dict ≤ length blobs)%nat ∧
    (∀ p, p ∈ PyDict.keys bucket_dict ↔
          ∃ b, b ∈ blobs ∧ is_file b ∧
               p = full_path_of bucket_name (blob_name b)) ∧
    (∀ k md, (k, md) ∈ bucket_dict →
       k = file_path md ∧
       ∃ b, b ∈ blobs ∧ is_file b ∧
            k = full_path_of bucket_name (blob_name b) ∧
            size md = blob_size b ∧ md5 md = blob_md5_hash b ∧
            time_created md = blob_time_created b ∧
            time_updated md = blob_updated b ∧
            (is_in_data_table md = true ↔ k ∈ referenced_files)).
Proof.
  destruct (collect_blobs_inventory bucket_name referenced_files blobs []
              (inventory_empty _ _)) as (d & Hd & Hnd & _).
  exists d. split; [done|]. split; [done|].
  destruct (collect_blobs_entries _ _ _ _ _ Hd) as (Hent & Hkeys & Hlen).
  split; [simpl in Hlen; lia|]. split.
  - intros p. rewrite Hkeys. split; [|auto].
    intros [Hp|?]; [|done]. by apply elem_of_nil in Hp.
  - intros k md Hin.
    destruct (Hent k md Hin) as [Hnil|(b & Hb & Hf & Hmd & ->)];
      [by apply elem_of_nil in Hnil|].
    split; [done|]. exists b.
    destruct (blob_metadata_fields _ _ _ _ Hmd)
      as (Hpath & _ & Hsize & Hmd5 & Htc & Htu & _ & Htab).
    repeat (split; [done|]). rewrite Htab. apply bool_decide_eq_true.
Qed.

(** ** The unit of a displayed size *)

Lemma float_of_int_small (n : Z) : n < 2 ^ 53 → float_of_int n = n.
Proof. intros H. unfold float_of_int. by rewrite (proj2 (Z.ltb_lt _ _) H). Qed.

(** Rounding to a float does not take a size below [2 ^ 53]. *)
Lemma float_of_int_large (n : Z) : 2 ^ 53 ≤ n → 2 ^ 53 ≤ float_of_int n.
Proof.
  intros H. unfold float_of_int.
  rewrite (proj2 (Z.ltb_ge _ _) H). cbv zeta.
  assert (Hlog : 53 ≤ Z.log2 n) by (apply Z.log2_le_pow2; lia).
  set (e := Z.log2 n - 52).
  assert (He : 1 ≤ e) by (unfold e; lia).
  assert (Hpow : 2 ^ 52 * 2 ^ e ≤ n).
  { rewrite <- Z.pow_add_r by lia. replace (52 + e) with (Z.log2 n) by (unfold e; lia).
    apply Z.log2_spec. lia. }
  assert (He2 : 2 ≤ 2 ^ e).
  { change 2 with (2 ^ 1) at 1. apply Z.pow_le_mono_r; lia. }
  assert (Hq : 2 ^ 52 ≤ n / 2 ^ e) by (apply Z.div_le_lower_bound; lia).
  set (q := n / 2 ^ e) in *.
  assert (Hq' : q ≤ (if n mod 2 ^ e <? 2 ^ (e - 1) then q
                     else if 2 ^ (e - 1) <? n mod 2 ^ e then q + 1
                     else if Z.even q then q else q + 1)).
  { repeat case_match; lia. }
  change (2 ^ 53) with (2 ^ 52 * 2). nia.
Qed.

Lemma float_of_int_ge_pow (n a : Z) :
  0 ≤ a ≤ 50 → 2 ^ a ≤ float_of_int n ↔ 2 ^ a ≤ n.
Proof.
  intros Ha.
  assert (Hpow : 2 ^ a < 2 ^ 53) by (apply Z.pow_lt_mono_r; lia).
  destruct (Z.lt_ge_cases n (2 ^ 53)) as [Hn|Hn].
  - by rewrite float_of_int_small.
  - pose proof (float_of_int_large n Hn). lia.
Qed.

(** The loop of [human_readable_size] once the size is a float: it goes on
    dividing until the count is five or the next power of 1024 is above
    the size. *)
Lemma reduce_loop_float (n : Z) (fuel j : nat) :
  let k := Nat.min 5 (Z.to_nat (Z.log2 n / 10)) in
  1 ≤ n → (j ≤ k)%nat → (k ≤ j + fuel)%nat →
  reduce_loop fuel (PyFloat (float_of_int n) (10 * Z.of_nat j)) j =
  (PyFloat (float_of_int n) (10 * Z.of_nat k), k).
Proof.
  intros k Hn. revert j. induction fuel as [|fuel IH]; intros j Hj Hk; simpl.
  { by replace j with k by lia. }
  assert (Hlog : 0 ≤ Z.log2 n) by apply Z.log2_nonneg.
  destruct (decide (j = k)) as [->|Hne].
  - (* the loop stops *)
    assert (Hstop : (2 ^ (10 * Z.of_nat k + 10) <=? float_of_int n) = true →
                    bool_decide (k < 5)%nat = false).
    { intros Hge. apply bool_decide_eq_false. intros Hlt.
      apply Z.leb_le in Hge.
      apply (proj1 (float_of_int_ge_pow n (10 * Z.of_nat k + 10) ltac:(lia)))
        in Hge.
      apply (proj1 (Z.log2_le_pow2 n (10 * Z.of_nat k + 10) ltac:(lia))) in Hge.
      assert (Z.of_nat k + 1 ≤ Z.log2 n / 10)
        by (apply Z.div_le_lower_bound; lia).
      unfold k in *. lia. }
    destruct (2 ^ (10 * Z.of_nat k + 10) <=? float_of_int n) eqn:E; [|done].
    by rewrite Hstop.
  - (* one more division *)
    assert (Hlt : (j < k)%nat) by lia.
    assert (Hj5 : (j < 5)%nat) by (unfold k in *; lia).
    assert (Hge : 2 ^ (10 * Z.of_nat j + 10) ≤ float_of_int n).
    { apply (proj2 (float_of_int_ge_pow n (10 * Z.of_nat j + 10) ltac:(lia))).
      apply (proj2 (Z.log2_le_pow2 n (10 * Z.of_nat j + 10) ltac:(lia))).
      assert (Z.of_nat j + 1 ≤ Z.log2 n / 10) by (unfold k in *; lia).
      pose proof (Z.mul_div_le (Z.log2 n) 10). lia. }
    rewrite (proj2 (Z.leb_le _ _) Hge), bool_decide_eq_true_2 by done. simpl.
    replace (10 * Z.of_nat j + 10) with (10 * Z.of_nat (S j)) by lia.
    apply IH; lia.
Qed.



(** ** The scan of the attribute values *)

(** Induction on a value with the members of lists and dictionaries. *)
Lemma json_rect' (P : json → Prop)
    (Hnull : P JNull) (Hbool : ∀ b, P (JBool b))
    (Hnumber : ∀ x, P (JNumber x)) (Hstring : ∀ s, P (JString s))
    (Hlist : ∀ l, Forall P l → P (JList l))
    (Hdict : ∀ d, Forall P (PyDict.values d) → P (JDict d)) :
  ∀ v, P v.
Proof.
  fix IH 1. intros [| b | x | s | l | d].
  - apply Hnull.
  - apply Hbool.
  - apply Hnumber.
  - apply Hstring.
  - apply Hlist. induction l as [|a l IHl]; constructor; [apply IH|apply IHl].
  - apply Hdict. induction d as [|[k a] d IHd]; constructor; [apply IH|apply IHd].
Qed.

Lemma update_strings (bucket_prefix : string) (strs : list string)
    (referenced_files : gset string) :
  update_referenced_files bucket_prefix referenced_files (JString <$> strs) =
  Returns (foldl (add_reference bucket_prefix) referenced_files strs).
Proof.
  revert referenced_files. induction strs as [|s strs IH]; intros rf; [done|].
  simpl. apply IH.
Qed.

Lemma get_items_cons (k : string) (v : json) (d : pydict json) :
  PyDict.get ((k, v) :: d) "items" =
  if decide (k = "items") then Ok v else PyDict.get d "items".
Proof.
  unfold PyDict.get. cbn [list_find fst].
  destruct (decide (k = "items")) as [->|Hne]; [done|].
  by destruct (list_find _ d) as [[i kv]|].
Qed.

(** The equation of [update_referenced_files] for one attribute, as the
    source has it. *)
Lemma update_referenced_file_eq (bucket_prefix : string)
    (referenced_files : gset string) (attr : json) :
  update_referenced_file bucket_prefix referenced_files attr =
  match attr with
  | JDict d =>
      if is_attribute_list d then
        v ← of_res (PyDict.get d "items");
        match members v with
        | Some l => update_referenced_files bucket_prefix referenced_files l
        | None => Raises TypeError
        end
      else update_referenced_files bucket_prefix referenced_files (PyDict.values d)
  | JList l => update_referenced_files bucket_prefix referenced_files l
  | JString s => Returns (add_reference bucket_prefix referenced_files s)
  | _ => Returns referenced_files
  end.
Proof.
  assert (Heach : ∀ l rf,
    (fix each (referenced_files : gset string) (attrs : list json)
       {struct attrs} : outcome (gset string) :=
       match attrs with
       | [] => Returns referenced_files
       | attr :: attrs' =>
           match update_referenced_file bucket_prefix referenced_files attr with
           | Returns referenced_files' => each referenced_files' attrs'
           | Raises e => Raises e
           end
       end) rf l = update_referenced_files bucket_prefix rf l).
  { induction l as [|a l IH]; intros rf; [done|]. simpl.
    destruct (update_referenced_file bucket_prefix rf a); [apply IH|done]. }
  destruct attr as [| b | x | s | l | d]; try done.
  - simpl. apply Heach.
  - simpl. destruct (is_attribute_list d).
    + induction d as [|[k v] d IH]; [done|].
      rewrite get_items_cons. destruct (decide (k = "items")) as [->|Hne].
      * simpl. destruct v; cbn [members]; rewrite ?update_strings; done.
      * apply IH.
    + clear. revert referenced_files.
      induction d as [|[k v] d IH]; intros rf; [done|]. simpl.
      destruct (update_referenced_file bucket_prefix rf v); [apply IH|done].
Qed.
Lemma add_reference_elem_of (bucket_prefix s a : string)
    (referenced_files : gset string) :
  s ∈ add_reference bucket_prefix referenced_files a ↔
  s ∈ referenced_files ∨ (PyStr.startswith s bucket_prefix = true ∧ s = a).
Proof.
  unfold add_reference.
  destruct (PyStr.startswith a bucket_prefix) eqn:Ha.
  - rewrite elem_of_union, elem_of_singleton. split.
    + intros [?| ->]; auto.
    + intros [?|[_ ->]]; auto.
  - split; [auto|]. intros [?|[Hs ->]]; [done|congruence].
Qed.

Lemma scan_correct_nil (bucket_prefix : string) : scan_correct bucket_prefix [].
Proof.
  intros rf. split.
  - split; [by exists rf|constructor].
  - intros rf' [= <-] s. split; [auto|].
    intros [?|(_ & a & Ha & _)]; [done|by apply elem_of_nil in Ha].
Qed.

Lemma scan_correct_cons (bucket_prefix : string) (attr : json)
    (attrs : list json) :
  scan_correct bucket_prefix [attr] → scan_correct bucket_prefix attrs →
  scan_correct bucket_prefix (attr :: attrs).
Proof.
  intros H1 Hl rf. destruct (H1 rf) as [Hwf1 Hs1]. simpl in Hwf1, Hs1.
  simpl. destruct (update_referenced_file bucket_prefix rf attr) as [rf1|e]
    eqn:E1; simpl in *.
  - destruct (Hl rf1) as [Hwfl Hsl]. split.
    + rewrite Forall_cons, <- Hwfl. split; [by intros [_ ?]|].
      intros Hall. split; [|done].
      assert (Forall well_formed [attr]) as Hone by (apply Hwf1; eauto).
      by apply Forall_inv in Hone.
    + intros rf' Hrf' s. rewrite (Hsl rf' Hrf' s), (Hs1 rf1 eq_refl s).
      split.
      * intros [[?|(Hs & a & Ha & Hm)]|(Hs & a & Ha & Hm)]; auto.
        -- apply list_elem_of_singleton in Ha as ->. right. split; [done|].
           exists attr. split; [apply elem_of_cons; by left|done].
        -- right. split; [done|]. exists a. split; [|done].
           apply elem_of_cons. by right.
      * intros [?|(Hs & a & Ha & Hm)]; [auto|].
        apply elem_of_cons in Ha as [->|Ha].
        -- left. right. split; [done|]. exists attr.
           split; [by apply list_elem_of_singleton|done].
        -- right. split; [done|]. by exists a.
  - split; [|done]. split.
    + intros [Hwf _]%Forall_cons.
      assert (Forall well_formed [attr]) as Hone by (by constructor).
      apply Hwf1 in Hone as [? ?]. done.
    + by intros [? ?].
Qed.

Lemma scan_correct_all (bucket_prefix : string) (attrs : list json) :
  Forall (λ attr, scan_correct bucket_prefix [attr]) attrs →
  scan_correct bucket_prefix attrs.
Proof.
  induction 1; [apply scan_correct_nil|by apply scan_correct_cons].
Qed.

(** A value whose scan is the scan of the list [l]. *)
Lemma scan_correct_via (bucket_prefix : string) (attr : json) (l : list json) :
  (∀ rf, update_referenced_file bucket_prefix rf attr =
         update_referenced_files bucket_prefix rf l) →
  (well_formed attr ↔ Forall well_formed l) →
  (∀ s, mentions attr s ↔ ∃ a, a ∈ l ∧ mentions a s) →
  scan_correct bucket_prefix l → scan_correct bucket_prefix [attr].
Proof.
  intros Heq Hwf Hm Hl rf. destruct (Hl rf) as [Hwfl Hsl].
  simpl. rewrite Heq.
  destruct (update_referenced_files bucket_prefix rf l) as [rf1|e] eqn:E;
    simpl.
  - split.
    + rewrite Forall_singleton, Hwf, Hwfl. split; eauto.
    + intros rf' [= <-] s. rewrite (Hsl rf1 eq_refl s). split.
      * intros [?|(Hs & Hex)]; [auto|]. right. split; [done|].
        exists attr. split; [by apply list_elem_of_singleton|by apply Hm].
      * intros [?|(Hs & a & ->%list_elem_of_singleton & Hma)]; [auto|].
        right. split; [done|]. by apply Hm.
  - split; [|done]. rewrite Forall_singleton, Hwf, Hwfl.
    split; intros [? ?]; done.
Qed.

(** A value that is passed over. *)
Lemma scan_correct_skip (bucket_prefix : string) (attr : json) :
  (∀ rf, update_referenced_file bucket_prefix rf attr = Returns rf) →
  well_formed attr → (∀ s, ¬ mentions attr s) →
  scan_correct bucket_prefix [attr].
Proof.
  intros Heq Hwf Hm rf. simpl. rewrite Heq. simpl. split.
  - split; [eauto|]. intros _. by constructor.
  - intros rf' [= <-] s. split; [auto|].
    intros [?|(_ & a & ->%list_elem_of_singleton & Hma)]; [done|].
    by apply Hm in Hma.
Qed.

Lemma scan_correct_string (bucket_prefix s : string) :
  scan_correct bucket_prefix [JString s].
Proof.
  intros rf. simpl. split.
  - split; [eauto|]. intros _. repeat constructor.
  - intros rf' [= <-] s'. rewrite add_reference_elem_of. split.
    + intros [?|[Hs ->]]; [auto|]. right. split; [done|].
      exists (JString s). split; [by apply list_elem_of_singleton|constructor].
    + intros [?|(Hs & a & ->%list_elem_of_singleton & Hma)]; [auto|].
      inversion Hma; subst. auto.
Qed.

Lemma scan_correct_strings (bucket_prefix : string) (strs : list string) :
  scan_correct bucket_prefix (JString <$> strs).
Proof.
  apply scan_correct_all, Forall_fmap, Forall_forall.
  intros s _. apply scan_correct_string.
Qed.

Lemma scan_correct_members (bucket_prefix : string) (v : json)
    (l : list json) :
  scan_correct bucket_prefix [v] ∧
  match v with
  | JList l' => scan_correct bucket_prefix l'
  | _ => True
  end →
  members v = Some l → scan_correct bucket_prefix l.
Proof.
  intros [_ Hv] Hl. destruct v; simpl in Hl; try done; injection Hl as <-;
    [apply scan_correct_strings|done|apply scan_correct_strings].
Qed.

Lemma scan_correct_value (bucket_prefix : string) (attr : json) :
  scan_correct bucket_prefix [attr] ∧
  match attr with
  | JList l => scan_correct bucket_prefix l
  | _ => True
  end.
Proof.
  induction attr as [| b | x | s | l IH | d IH] using json_rect'.
  - split; [|done]. apply scan_correct_skip; [done|constructor|].
    intros s Hm. inversion Hm.
  - split; [|done]. apply scan_correct_skip; [done|constructor|].
    intros s Hm. inversion Hm.
  - split; [|done]. apply scan_correct_skip; [done|constructor|].
    intros s Hm. inversion Hm.
  - split; [apply scan_correct_string|done].
  - assert (scan_correct bucket_prefix l) as Hl.
    { apply scan_correct_all. eapply Forall_impl; [exact IH|].
      by intros a [? _]. }
    split; [|done]. apply (scan_correct_via _ _ l); [| | |done].
    + intros rf. by rewrite update_referenced_file_eq.
    + split.
      * intros Hwf. inversion Hwf; subst. by apply Forall_forall.
      * intros Hall. constructor. by apply Forall_forall.
    + intros s. split.
      * intros Hm. inversion Hm; subst. eauto.
      * intros (a & Ha & Hm). by eapply mentions_list.
  - split; [|done].
    destruct (is_attribute_list d) eqn:Harr.
    + destruct (PyDict.get d "items") as [v|e] eqn:Hget.
      * assert (v ∈ PyDict.values d) as Hv.
        { apply PyDictFacts.get_Ok_elem_of in Hget.
          apply list_elem_of_fmap. by exists ("items", v). }
        eapply Forall_forall in IH; [|exact Hv].
        destruct (members v) as [l|] eqn:Hmem.
        -- apply (scan_correct_via _ _ l).
           ++ intros rf. rewrite update_referenced_file_eq, Harr, Hget.
              simpl. by rewrite Hmem.
           ++ split.
              ** intros Hwf. inversion Hwf; subst; [congruence|].
                 assert (v0 = v) as -> by congruence.
                 assert (l0 = l) as -> by congruence.
                 by apply Forall_forall.
              ** intros Hall. eapply well_formed_items; [done..|].
                 by apply Forall_forall.
           ++ intros s. split.
              ** intros Hm. inversion Hm; subst; [congruence|].
                 assert (v0 = v) as -> by congruence.
                 assert (l0 = l) as -> by congruence. eauto.
              ** intros (a & Ha & Hm). by eapply mentions_items.
           ++ by eapply scan_correct_members.
        -- intros rf. cbn [update_referenced_files].
           rewrite update_referenced_file_eq, Harr, Hget. simpl.
           rewrite Hmem. simpl. split; [|done]. split.
           ++ intros Hwf%Forall_inv.
              inversion Hwf; subst; congruence.
           ++ by intros [? ?].
      * intros rf. cbn [update_referenced_files].
        rewrite update_referenced_file_eq, Harr, Hget. simpl.
        split; [|done]. split.
        -- intros Hwf%Forall_inv. inversion Hwf; subst; congruence.
        -- by intros [? ?].
    + apply (scan_correct_via _ _ (PyDict.values d)).
      * intros rf. by rewrite update_referenced_file_eq, Harr.
      * split.
        -- intros Hwf. inversion Hwf; subst; [|congruence].
           by apply Forall_forall.
        -- intros Hall. apply well_formed_dict; [done|].
           by apply Forall_forall.
      * intros s. split.
        -- intros Hm. inversion Hm; subst; [eauto|congruence].
        -- intros (a & Ha & Hm). by eapply mentions_dict.
      * apply scan_correct_all. eapply Forall_impl; [exact IH|].
        by intros a [? _].
Qed.

Lemma scan_correct_any (bucket_prefix : string) (attrs : list json) :
  scan_correct bucket_prefix attrs.
Proof.
  apply scan_correct_all, Forall_forall. intros attr _.
  apply scan_correct_value.
Qed.

(** X11. The scan of attribute values returns exactly when every one of them
    is well formed (a dictionary marked as a list of values has [items]
    that can be iterated over), and then the set has grown by exactly the
    strings that start with the bucket prefix and occur in the values:
    nothing is removed, and no other string is added. *)
Theorem update_referenced_files_scan (bucket_prefix : string)
    (referenced_files : gset string) (attrs : list json) :
  (Forall well_formed attrs ↔
   ∃ referenced_files',
     update_referenced_files bucket_prefix referenced_files attrs =
     Returns referenced_files') ∧
  ∀ referenced_files',
    update_referenced_files bucket_prefix referenced_files attrs =
    Returns referenced_files' →
    ∀ s, s ∈ referenced_files' ↔
         s ∈ referenced_files ∨
         (PyStr.startswith s bucket_prefix = true ∧
          ∃ attr, attr ∈ attrs ∧ mentions attr s).
Proof. apply scan_correct_any. Qed.
(** ** The pages of the entity query *)

Lemma remaining_pages_run (fc : firecloud) (namespace workspace etype : string)
    (page_size : Z) (filter_terms : option string) (sort_direction : string)
    (total_pages : Z) (fuel : nat) (page : Z) (all_entities : list entity) :
  Z.of_nat fuel = Z.max 0 (total_pages + 1 - page) →
  remaining_pages fc namespace workspace etype page_size filter_terms
    sort_direction total_pages fuel page all_entities =
  let query := entity_query fc namespace workspace etype page_size
                 filter_terms sort_direction in
  match list_find (λ p, status_code (query p) ≠ 200)
          (seqZ page (Z.of_nat fuel)) with
  | Some (_, p) => Raises (FireCloudServerError (status_code (query p)))
  | None =>
      Returns (all_entities ++
               concat ((λ p, results (r_json (query p))) <$>
                       seqZ page (Z.of_nat fuel)))
  end.
Proof.
  revert page all_entities.
  induction fuel as [|fuel IH]; intros page all_entities Hfuel.
  - simpl. by rewrite app_nil_r.
  - cbn [remaining_pages]. rewrite bool_decide_eq_true_2 by lia.
    rewrite seqZ_cons by lia. cbn [list_find fmap list_fmap concat].
    fold (entity_query fc namespace workspace etype page_size filter_terms
            sort_direction page).
    unfold _check_response_code.
    destruct (decide (status_code (entity_query fc namespace workspace etype
                page_size filter_terms sort_direction page) ≠ 200))
      as [Hne|Heq].
    + by rewrite bool_decide_eq_false_2.
    + apply dec_stable in Heq. rewrite bool_decide_eq_true_2 by done.
      cbn [mbind outcome_mbind outcome_bind].
      rewrite IH by lia. cbn zeta.
      replace (Z.pred (Z.of_nat (S fuel))) with (Z.of_nat fuel) by lia.
      replace (Z.succ page) with (page + 1) by lia.
      destruct (list_find _ (seqZ (page + 1) (Z.of_nat fuel)))
        as [[i p]|]; simpl; [done|].
      by rewrite <- app_assoc.
Qed.

(** X12. [_entity_paginator] asks for the pages 1, 2, ... up to the
    [filteredPageCount] of the first response (for the first page in any
    case). When every response has status 200 it returns the results of
    these pages, in the order of the pages; otherwise it raises the error of
    the first page whose status is not 200, and returns no entity. *)
Theorem entity_paginator_pages (fc : firecloud)
    (namespace workspace etype : string) (page_size : Z)
    (filter_terms : option string) (sort_direction : string) :
  let query := entity_query fc namespace workspace etype page_size
                 filter_terms sort_direction in
  let pages := seqZ 1 (Z.max 1 (filteredPageCount (r_json (query 1)))) in
  _entity_paginator fc namespace workspace etype page_size filter_terms
    sort_direction =
  match list_find (λ p, status_code (query p) ≠ 200) pages with
  | Some (_, p) => Raises (FireCloudServerError (status_code (query p)))
  | None => Returns (concat ((λ p, results (r_json (query p))) <$> pages))
  end.
Proof.
  intros query pages. unfold _entity_paginator, pages.
  rewrite seqZ_cons by lia. cbn [list_find fmap list_fmap concat].
  fold (entity_query fc namespace workspace etype page_size filter_terms
          sort_direction 1). fold query.
  unfold _check_response_code.
  destruct (decide (status_code (query 1) ≠ 200)) as [Hne|Heq].
  - by rewrite bool_decide_eq_false_2.
  - apply dec_stable in Heq. rewrite bool_decide_eq_true_2 by done.
    cbn [mbind outcome_mbind outcome_bind].
    rewrite remaining_pages_run by lia. cbn zeta. fold query.
    replace (Z.of_nat (Z.to_nat (filteredPageCount (r_json (query 1)) - 1)))
      with (Z.pred (Z.max 1 (filteredPageCount (r_json (query 1))))) by lia.
    change (Z.succ 1) with 2.
    by destruct (list_find _ (seqZ 2 _)) as [[i p]|].
Qed.
(** ** The references gathered by [mop] *)

Lemma update_referenced_files_app (bucket_prefix : string)
    (l1 l2 : list json) (referenced_files : gset string) :
  update_referenced_files bucket_prefix referenced_files (l1 ++ l2) =
  referenced_files' ← update_referenced_files bucket_prefix referenced_files l1;
  update_referenced_files bucket_prefix referenced_files' l2.
Proof.
  revert referenced_files. induction l1 as [|a l1 IH]; intros rf; [done|].
  cbn [app update_referenced_files].
  destruct (update_referenced_file bucket_prefix rf a) as [rf1|e]; [|done].
  apply IH.
Qed.

Lemma scan_entities_eq (bucket_prefix : string) (entities : list entity)
    (referenced_files : gset string) :
  scan_entities bucket_prefix referenced_files entities =
  update_referenced_files bucket_prefix referenced_files
    (concat ((λ entity, PyDict.values (attributes entity)) <$> entities)).
Proof.
  revert referenced_files. induction entities as [|a l IH]; intros rf; [done|].
  cbn [scan_entities fmap list_fmap concat].
  rewrite update_referenced_files_app.
  destruct (update_referenced_files bucket_prefix rf _) as [rf1|e]; [|done].
  apply IH.
Qed.

Lemma elem_of_entity_attributes (entities : list entity) (attr : json) :
  attr ∈ concat ((λ entity, PyDict.values (attributes entity)) <$> entities) ↔
  ∃ entity, entity ∈ entities ∧ attr ∈ PyDict.values (attributes entity).
Proof.
  rewrite (list_elem_of_In (concat _) attr), in_concat. split.
  - intros (l & Hl & Hin). apply list_elem_of_In, list_elem_of_fmap in Hl
      as (entity & -> & He).
    exists entity. split; [done|]. by apply list_elem_of_In.
  - intros (entity & He & Hin). exists (PyDict.values (attributes entity)).
    split; [|by apply list_elem_of_In].
    apply list_elem_of_In, list_elem_of_fmap. by exists entity.
Qed.

Lemma scan_entities_spec (bucket_prefix : string) (entities : list entity)
    (referenced_files : gset string) :
  ((∀ entity attr,
      entity ∈ entities → attr ∈ PyDict.values (attributes entity) →
      well_formed attr) ↔
   ∃ referenced_files',
     scan_entities bucket_prefix referenced_files entities =
     Returns referenced_files') ∧
  ∀ referenced_files',
    scan_entities bucket_prefix referenced_files entities =
    Returns referenced_files' →
    ∀ s, s ∈ referenced_files' ↔
         s ∈ referenced_files ∨
         (PyStr.startswith s bucket_prefix = true ∧
          ∃ entity attr,
            entity ∈ entities ∧ attr ∈ PyDict.values (attributes entity) ∧
            mentions attr s).
Proof.
  rewrite scan_entities_eq.
  destruct (scan_correct_any bucket_prefix
              (concat ((λ entity, PyDict.values (attributes entity)) <$>
                       entities)) referenced_files) as [Hwf Hs].
  split.
  - rewrite <- Hwf, Forall_forall. split.
    + intros H attr (entity & ? & ?)%elem_of_entity_attributes. eauto.
    + intros H entity attr ? ?. apply H, elem_of_entity_attributes. eauto.
  - intros rf' Hrf' s. rewrite (Hs rf' Hrf' s). split.
    + intros [?|(Hsw & attr & (entity & ? & ?)%elem_of_entity_attributes & ?)];
        [auto|]. right. split; [done|]. by exists entity, attr.
    + intros [?|(Hsw & entity & attr & ? & ? & ?)]; [auto|].
      right. split; [done|]. exists attr. split; [|done].
      apply elem_of_entity_attributes. eauto.
Qed.

Lemma entity_references_spec (fc : firecloud) (args : mop_args)
    (bucket_prefix : string) (entity_types : list string)
    (referenced_files : gset string) :
  (scannable fc args entity_types ↔
   ∃ referenced_files',
     entity_references fc args bucket_prefix referenced_files entity_types =
     Returns referenced_files') ∧
  ∀ referenced_files',
    entity_references fc args bucket_prefix referenced_files entity_types =
    Returns referenced_files' →
    ∀ s, s ∈ referenced_files' ↔
         s ∈ referenced_files ∨
         (PyStr.startswith s bucket_prefix = true ∧
          ∃ etype entities entity attr,
            etype ∈ entity_types ∧
            entities_of fc args etype = Returns entities ∧
            entity ∈ entities ∧
            attr ∈ PyDict.values (attributes entity) ∧
            mentions attr s).
Proof.
  revert referenced_files.
  induction entity_types as [|etype l IH]; intros rf.
  - simpl. split.
    + split; [eauto|]. intros _ etype Hin. by apply elem_of_nil in Hin.
    + intros rf' [= <-] s. split; [auto|].
      intros [?|(_ & etype & ? & ? & ? & Hin & _)]; [done|].
      by apply elem_of_nil in Hin.
  - cbn [entity_references].
    destruct (entities_of fc args etype) as [entities|e] eqn:Hent.
    + cbn [mbind outcome_mbind outcome_bind].
      destruct (scan_entities_spec bucket_prefix entities rf) as [Hwf Hs].
      destruct (scan_entities bucket_prefix rf entities) as [rf1|e] eqn:Hscan.
      * cbn [mbind outcome_mbind outcome_bind].
        destruct (IH rf1) as [Hwfl Hsl]. split.
        -- rewrite <- Hwfl. split.
           ++ intros H etype' Hin. apply H. apply elem_of_cons. by right.
           ++ intros H etype' [->|Hin]%elem_of_cons; [|by apply H].
              exists entities. split; [done|]. apply Hwf. eauto.
        -- intros rf' Hrf' s. rewrite (Hsl rf' Hrf' s), (Hs rf1 eq_refl s).
           split.
           ++ intros [[?|(Hsw & entity & attr & ? & ? & ?)]
                     |(Hsw & etype' & ents & entity & attr & ? & ?)]; [auto|..].
              ** right. split; [done|]. exists etype, entities, entity, attr.
                 split; [apply elem_of_cons; by left|done].
              ** right. split; [done|]. exists etype', ents, entity, attr.
                 split; [apply elem_of_cons; by right|done].
           ++ intros [?|(Hsw & etype' & ents & entity & attr & Hin & Hents
                         & ? & ? & ?)]; [auto|].
              apply elem_of_cons in Hin as [->|Hin].
              ** left. right. split; [done|].
                 assert (ents = entities) as -> by congruence.
                 by exists entity, attr.
              ** right. split; [done|]. by exists etype', ents, entity, attr.
      * cbn [mbind outcome_mbind outcome_bind]. split; [|done]. split.
        -- intros H. destruct (H etype) as (ents & Hents & Hall);
             [apply elem_of_cons; by left|].
           assert (ents = entities) as -> by congruence.
           apply Hwf in Hall as [? ?]. done.
        -- by intros [? ?].
    + cbn [mbind outcome_mbind outcome_bind]. split; [|done]. split.
      * intros H. destruct (H etype) as (ents & Hents & _);
          [apply elem_of_cons; by left|]. congruence.
      * by intros [? ?].
Qed.

Lemma workspace_attributes_spec (bucket_prefix : string) (values : list json)
    (referenced_files : gset string) (s : string) :
  s ∈ foldl (add_workspace_attribute bucket_prefix) referenced_files values ↔
  s ∈ referenced_files ∨
  (PyStr.startswith s bucket_prefix = true ∧ JString s ∈ values).
Proof.
  revert referenced_files. induction values as [|v l IH]; intros rf.
  - simpl. split; [auto|]. intros [?|[_ Hin]]; [done|].
    by apply elem_of_nil in Hin.
  - cbn [foldl]. rewrite IH, elem_of_cons.
    destruct v; cbn [add_workspace_attribute];
      rewrite ?add_reference_elem_of; try (split; [tauto|];
        intros [?|[? [?|?]]]; by auto).
    split.
    + intros [[?|[? ->]]|[? ?]]; auto.
    + intros [?|[? [[= ->]|?]]]; auto.
Qed.

(** What [gather] returns, and when. *)
Lemma gather_spec (fc : firecloud) (args : mop_args) :
  (retrievable fc args ↔ ∃ referenced_files, gather fc args = Returns referenced_files) ∧
  ∀ referenced_files,
    gather fc args = Returns referenced_files →
    ∀ s, s ∈ referenced_files ↔
         PyStr.startswith s (bucket_prefix_of fc args) = true ∧
         workspace_reference fc args s.
Proof.
  unfold gather, retrievable, _check_response_code.
  destruct (decide (status_code (workspace_of fc args) = 200)) as [Hws|Hws].
  2: { rewrite (bool_decide_eq_false_2 _ Hws). simpl. split; [|done].
       split; [by intros [? _]|by intros [? ?]]. }
  rewrite (bool_decide_eq_true_2 _ Hws).
  cbn [mbind outcome_mbind outcome_bind].
  destruct (decide (status_code (entity_types_of fc args) = 200)) as [Hty|Hty].
  2: { rewrite (bool_decide_eq_false_2 _ Hty). simpl. split; [|done].
       split; [by intros (_ & ? & _)|by intros [? ?]]. }
  rewrite (bool_decide_eq_true_2 _ Hty).
  cbn [mbind outcome_mbind outcome_bind].
  match goal with
  | |- context [entity_references fc args ?p ?rf ?l] =>
      destruct (entity_references_spec fc args p l rf) as [Hwf Hs]
  end.
  split.
  - rewrite <- Hwf. tauto.
  - intros rf Hrf s. rewrite (Hs rf Hrf s), workspace_attributes_spec.
    unfold workspace_reference. rewrite elem_of_empty. tauto.
Qed.

(** ** Runs of the whole command *)

Section CmdRuns.

Context {A B : Type}.

Lemma cmd_bind_run (m : Cmd A) (k : A → Cmd B) (tr tr' : list event) (a : A) :
  m tr = (Returns a, tr') → (m ≫= k) tr = k a tr'.
Proof. unfold mbind, Cmd_mbind, Cmd_bind. by intros ->. Qed.

Lemma cmd_bind_raise (m : Cmd A) (k : A → Cmd B) (tr tr' : list event)
    (e : error) :
  m tr = (Raises e, tr') → (m ≫= k) tr = (Raises e, tr').
Proof. unfold mbind, Cmd_mbind, Cmd_bind. by intros ->. Qed.

End CmdRuns.

Lemma of_M_when_run (b : bool) (line : string) (tr : list event) :
  of_M (when b (print line)) tr =
  (Returns tt, tr ++ if b then [Print line] else []).
Proof. unfold of_M, print. by rewrite when_run. Qed.

Lemma harmless_print (b : bool) (line : string) :
  Forall harmless (if b then [Print line] else []).
Proof. destruct b; repeat constructor. Qed.

Lemma scan_entity_types_run (fc : firecloud) (args : mop_args)
    (bucket_prefix : string) (entity_types : list string)
    (referenced_files : gset string) (tr : list event) :
  ∃ evs,
    Forall harmless evs ∧
    scan_entity_types fc args bucket_prefix referenced_files entity_types tr =
    (entity_references fc args bucket_prefix referenced_files entity_types,
     tr ++ evs).
Proof.
  revert referenced_files tr.
  induction entity_types as [|etype l IH]; intros rf tr.
  - exists []. split; [constructor|]. simpl. by rewrite app_nil_r.
  - cbn [scan_entity_types entity_references].
    erewrite cmd_bind_run by apply of_M_when_run.
    fold (entities_of fc args etype).
    destruct (entities_of fc args etype) as [entities|e].
    + erewrite cmd_bind_run by reflexivity.
      cbn [mbind outcome_mbind outcome_bind].
      destruct (scan_entities bucket_prefix rf entities) as [rf1|e].
      * erewrite cmd_bind_run by reflexivity.
        cbn [mbind outcome_mbind outcome_bind].
        edestruct (IH rf1) as (evs & Hh & ->).
        eexists. rewrite <- app_assoc. split; [|done].
        apply Forall_app. split; [apply harmless_print|done].
      * erewrite cmd_bind_raise by reflexivity.
        eexists. split; [|done]. apply harmless_print.
    + erewrite cmd_bind_raise by reflexivity.
      eexists. split; [|done]. apply harmless_print.
Qed.

Section CommandRuns.

Variable fnmatchcase : string → string → bool.

(** A run of the command: the first part gathers the references and
    changes nothing; when it raises, the command ends there, and otherwise
    the bucket is cleaned with the set gathered. *)
Lemma mop_command_run (fc : firecloud) (w : world) (args : mop_args)
    (tr : list event) :
  ∃ evs,
    Forall harmless evs ∧
    mop_command fnmatchcase fc w args tr =
    match gather fc args with
    | Returns referenced_files =>
        of_M (mop fnmatchcase w (ws_info (r_json (workspace_of fc args)))
                referenced_files args) (tr ++ evs)
    | Raises e => (Raises e, tr ++ evs)
    end.
Proof.
  unfold mop_command, gather.
  erewrite cmd_bind_run by apply of_M_when_run.
  fold (workspace_of fc args).
  destruct (_check_response_code (workspace_of fc args) 200) as [[]|e].
  2: { erewrite cmd_bind_raise by reflexivity.
       eexists. split; [|done]. apply harmless_print. }
  erewrite cmd_bind_run by reflexivity.
  erewrite cmd_bind_run by apply of_M_when_run.
  fold (entity_types_of fc args).
  cbn [mbind outcome_mbind outcome_bind].
  destruct (_check_response_code (entity_types_of fc args) 200) as [[]|e].
  2: { erewrite cmd_bind_raise by reflexivity.
       eexists. rewrite <- app_assoc. split; [|done].
       apply Forall_app. split; apply harmless_print. }
  erewrite cmd_bind_run by reflexivity.
  cbn [mbind outcome_mbind outcome_bind].
  fold (bucket_prefix_of fc args).
  match goal with
  | |- context [scan_entity_types fc args ?p ?rf ?l] =>
      destruct (scan_entity_types_run fc args p l rf
                  ((tr ++ (if verbose args
                           then [Print "Retrieving workspace information..."]
                           else [])) ++
                   (if verbose args
                    then [Print (name (ws_info (r_json (workspace_of fc args)))
                                 +:+ " -- " +:+ bucket_prefix_of fc args)]
                    else [])))
        as (evs & Hh & Hrun);
      destruct (entity_references fc args p rf l) as [rf1|e]
  end.
  - erewrite cmd_bind_run by exact Hrun.
    erewrite cmd_bind_run by apply of_M_when_run.
    eexists. rewrite <- !app_assoc. split; [|done].
    repeat (apply Forall_app; split); try apply harmless_print. done.
  - erewrite cmd_bind_raise by exact Hrun.
    eexists. rewrite <- !app_assoc. split; [|done].
    repeat (apply Forall_app; split); try apply harmless_print. done.
Qed.

End CommandRuns.
Lemma harmless_no_delete (evs : list event) :
  Forall harmless evs → filter (λ ev, is_delete ev = true) evs = [].
Proof.
  induction 1 as [|ev evs [Hd _] _ IH]; [done|].
  rewrite filter_cons, decide_False by congruence. done.
Qed.

Lemma prefix_app (a b : string) : String.prefix a (a +:+ b) = true.
Proof.
  induction a as [|c a IH]; simpl; [by destruct b|].
  destruct (Ascii.ascii_dec c c); [apply IH|done].
Qed.

Lemma full_path_prefix (bucket_name filename : string) :
  PyStr.startswith (full_path_of bucket_name filename)
    ("gs://" +:+ bucket_name) = true.
Proof.
  unfold PyStr.startswith, full_path_of.
  rewrite <- (PyStrFacts.app_assoc "gs://"). apply prefix_app.
Qed.

(** The raw candidates are paths of the bucket. *)
Lemma potential_prefix (keep_one : bool) (bucket_name : string)
    (referenced_files ids potential : gset string)
    (bucket_dict : pydict file_metadata) (p : string) :
  inventory bucket_name referenced_files bucket_dict →
  potential_deletable_files keep_one bucket_dict
    (eligible_bucket_files bucket_dict ids) referenced_files = Ok potential →
  p ∈ potential → PyStr.startswith p ("gs://" +:+ bucket_name) = true.
Proof.
  intros [_ Hall] Hpot Hp.
  assert (p ∈ eligible_bucket_files bucket_dict ids) as Hel.
  { unfold potential_deletable_files in Hpot. destruct keep_one.
    - destruct (get_files_to_keep bucket_dict); [|done].
      simpl in Hpot. injection Hpot as <-.
      by apply elem_of_difference in Hp as [? _].
    - injection Hpot as <-. by apply elem_of_difference in Hp as [? _]. }
  apply elem_of_eligible in Hel as (md & Hin & <- & _).
  apply list_elem_of_fmap in Hin as ([k md'] & -> & Hin).
  eapply Forall_forall in Hall; [|exact Hin].
  destruct Hall as [_ [b Hb]]. simpl in *.
  destruct (blob_metadata_inv _ _ _ _ Hb) as (-> & _).
  apply full_path_prefix.
Qed.

(** X13. When the server answers all requests and the attribute values can
    be scanned, [mop] cleans the bucket with exactly this set of referenced
    files: the paths that start with [gs://] and the name of the bucket and
    that are the value of a workspace attribute or occur in an attribute of
    an entity. A path inside a list or another structure of a workspace
    attribute is not in the set. *)
Theorem mop_command_references (fnmatchcase : string → string → bool)
    (fc : firecloud) (w : world) (args : mop_args) (tr : list event) :
  retrievable fc args →
  ∃ referenced_files evs,
    (∀ s, s ∈ referenced_files ↔
          PyStr.startswith s (bucket_prefix_of fc args) = true ∧
          workspace_reference fc args s) ∧
    Forall harmless evs ∧
    mop_command fnmatchcase fc w args tr =
    of_M (mop fnmatchcase w (ws_info (r_json (workspace_of fc args)))
            referenced_files args) (tr ++ evs).
Proof.
  intros Hret. destruct (gather_spec fc args) as [Hiff Hspec].
  apply Hiff in Hret as [rf Hrf].
  destruct (mop_command_run fnmatchcase fc w args tr) as (evs & Hh & Hrun).
  rewrite Hrf in Hrun. exists rf, evs. split; [by apply Hspec|done].
Qed.

Lemma mop_command_references_witness :
  retrievable (sample_firecloud 200) plain_args ∧
  ∃ referenced_files evs,
    (∀ s, s ∈ referenced_files ↔
          PyStr.startswith s (bucket_prefix_of (sample_firecloud 200) plain_args)
            = true ∧
          workspace_reference (sample_firecloud 200) plain_args s) ∧
    Forall harmless evs ∧
    mop_command glob_fnmatchcase (sample_firecloud 200) (sample_world "y")
      plain_args [] =
    of_M (mop glob_fnmatchcase (sample_world "y")
            (ws_info (r_json (workspace_of (sample_firecloud 200) plain_args)))
            referenced_files plain_args) ([] ++ evs).
Proof.
  assert (retrievable (sample_firecloud 200) plain_args) as Hret.
  { split; [done|]. split; [done|].
    intros etype Hin. eexists. split; [reflexivity|].
    intros entity attr Hent Hattr.
    repeat (apply elem_of_cons in Hent as [->|Hent]);
      [..|by apply elem_of_nil in Hent];
      simpl in Hattr; apply list_elem_of_singleton in Hattr as ->.
    - constructor.
    - eapply well_formed_items; [reflexivity..|].
      intros a Ha.
      repeat (apply elem_of_cons in Ha as [->|Ha]);
        [..|by apply elem_of_nil in Ha]; constructor. }
  split; [exact Hret|].
  exact (mop_command_references glob_fnmatchcase (sample_firecloud 200)
           (sample_world "y") plain_args [] Hret).
Defined.


(** X15. When a request of the first part of [mop] is answered with a
    status other than 200, or an attribute value cannot be scanned, the
    command ends with the error: it has listed no bucket, asked no
    question, written no manifest and started no process. *)
Theorem mop_command_stops_on_error (fnmatchcase : string → string → bool)
    (fc : firecloud) (w : world) (args : mop_args) (tr : list event) :
  ¬ retrievable fc args →
  ∃ e evs,
    mop_command fnmatchcase fc w args tr = (Raises e, tr ++ evs) ∧
    Forall harmless evs.
Proof.
  intros Hnot.
  destruct (mop_command_run fnmatchcase fc w args tr) as (evs & Hh & Hrun).
  destruct (gather_spec fc args) as [Hiff _].
  destruct (gather fc args) as [rf|e].
  - exfalso. apply Hnot, Hiff. eauto.
  - by exists e, evs.
Qed.

Lemma mop_command_stops_on_error_witness :
  status_code (workspace_of (sample_firecloud 503) plain_args) = 503 ∧
  ∃ e evs,
    mop_command glob_fnmatchcase (sample_firecloud 503) (sample_world "y")
      plain_args [] = (Raises e, [] ++ evs) ∧
    Forall harmless evs.
Proof.
  split; [reflexivity|].
  apply (mop_command_stops_on_error glob_fnmatchcase (sample_firecloud 503)
           (sample_world "y") plain_args []).
  intros [Hws _]. vm_compute in Hws. discriminate Hws.
Defined.

(** ** Load files *)

Lemma valid_headerline_total (l model : string) :
  ∃ b, _valid_headerline l model = Ok b.
Proof.
  unfold _valid_headerline.
  destruct (bool_decide (l = "")); [eauto|].
  destruct (PyStr.split tab None l) as [|first_col headers] eqn:Hh.
  { by destruct (PyStrFacts.split_nonempty tab None l). }
  cbn [py_getitem lookup list_lookup mbind res_mbind res_bind].
  destruct (PyStr.split ":" None first_col) as [|t0 [|t1 [|t2 ts]]] eqn:Ht;
    eauto.
  cbn [py_getitem lookup list_lookup mbind res_mbind res_bind length].
  rewrite bool_decide_eq_false_2 by auto.
  cbn [py_getitem lookup list_lookup mbind res_mbind res_bind length].
  destruct (bool_decide (t0 ∈ ["entity"; "update"])).
  - destruct (bool_decide (model = "flexible")); eauto.
  - destruct (bool_decide (t0 = "membership")); [|eauto].
    destruct headers as [|h1 headers]; simpl; eauto.
Qed.

(** X16. [_valid_headerline] never raises, and a header that is valid for the
    default model is valid for the flexible model as well. *)
Theorem valid_headerline_flexible (l model : string) :
  (∃ b, _valid_headerline l model = Ok b) ∧
  (_valid_headerline l model = Ok true →
   _valid_headerline l "flexible" = Ok true).
Proof.
  unfold _valid_headerline.
  destruct (bool_decide (l = "")); [split; [eauto|done]|].
  destruct (PyStr.split tab None l) as [|first_col headers] eqn:Hh.
  { by destruct (PyStrFacts.split_nonempty tab None l). }
  cbn [py_getitem lookup list_lookup mbind res_mbind res_bind].
  destruct (PyStr.split ":" None first_col) as [|t0 [|t1 [|t2 ts]]] eqn:Ht;
    try (split; [eauto|done]).
  cbn [py_getitem lookup list_lookup mbind res_mbind res_bind length].
  rewrite bool_decide_eq_false_2 by auto.
  cbn [py_getitem lookup list_lookup mbind res_mbind res_bind length].
  destruct (bool_decide (t0 ∈ ["entity"; "update"])).
  - rewrite (bool_decide_eq_true_2 ("flexible" = "flexible")) by done.
    destruct (bool_decide (model = "flexible")); [split; [eauto|done]|].
    split; [eauto|]. intros [= Hin]. apply bool_decide_eq_true in Hin.
    unfold entity_id_columns in Hin.
    repeat (apply elem_of_cons in Hin as [->|Hin]); try done.
    by apply elem_of_nil in Hin.
  - destruct (bool_decide (t0 = "membership")); [|split; [eauto|done]].
    destruct headers as [|h1 headers]; [split; [eauto|done]|].
    simpl. split; [eauto|done].
Qed.
Lemma uploads_app (evs1 evs2 : list load_event) :
  uploads (evs1 ++ evs2) = uploads evs1 ++ uploads evs2.
Proof. apply omap_app. Qed.

(** The offsets of the chunks, and the rows of a chunk. *)
Lemma py_range_chunks (n chunk_size : Z) :
  0 < chunk_size →
  py_range 0 n chunk_size =
  (λ k, k * chunk_size) <$> seqZ 0 ((n + chunk_size - 1) `div` chunk_size).
Proof.
  intros Hc. unfold py_range. rewrite bool_decide_eq_true_2 by done.
  replace (n - 0 + chunk_size - 1) with (n + chunk_size - 1) by lia.
  apply list_fmap_ext. intros _ k _. lia.
Qed.

Lemma py_range_negative (n chunk_size : Z) :
  0 ≤ n → chunk_size < 0 → py_range 0 n chunk_size = [].
Proof.
  intros Hn Hc. unfold py_range. rewrite bool_decide_eq_false_2 by lia.
  assert ((0 - n - chunk_size - 1) `div` (- chunk_size) ≤ 0) as Hle.
  { assert ((0 - n - chunk_size - 1) `div` (- chunk_size) < 1); [|lia].
    apply Z.div_lt_upper_bound; lia. }
  unfold seqZ. replace (Z.to_nat _) with 0%nat by lia. done.
Qed.

Lemma py_slice_chunk {A} (l : list A) (k : nat) (chunk_size : Z) :
  0 < chunk_size →
  py_slice l (Z.of_nat k * chunk_size) (Z.of_nat k * chunk_size + chunk_size) =
  take (Z.to_nat chunk_size) (drop (k * Z.to_nat chunk_size) l).
Proof.
  intros Hc. unfold py_slice. rewrite take_drop_commute. f_equal; [lia|].
  f_equal. lia.
Qed.

(** The chunks of [count] successive slices make up the first
    [count * chunk_size] rows. *)
Lemma concat_chunks {A} (l : list A) (c count : nat) :
  concat ((λ k, take c (drop (k * c) l)) <$> seq 0 count) = take (count * c) l.
Proof.
  revert l. induction count as [|count IH]; intros l; [done|].
  rewrite <- cons_seq, fmap_cons. cbn [concat].
  rewrite <- fmap_S_seq, <- list_fmap_compose.
  rewrite (list_fmap_ext _ (λ k, take c (drop (k * c) (drop c l))) (seq 0 count)).
  2: { intros _ k _. simpl. by rewrite drop_drop. }
  rewrite IH. simpl. rewrite drop_0.
  by rewrite take_take_drop.
Qed.
(** A valid header has a first column with two parts. *)
Lemma valid_header_etype (headerline model : string) :
  _valid_headerline headerline model = Ok true →
  ∃ etype,
    (first_col ← py_getitem (PyStr.split tab None headerline) 0;
     tsplit_1 ← py_getitem (PyStr.split ":" None first_col) 1;
     Ok (py_replace tsplit_1 "_id" "")) = Ok etype.
Proof.
  unfold _valid_headerline.
  destruct (bool_decide (headerline = "")); [done|].
  destruct (PyStr.split tab None headerline) as [|first_col headers];
    [done|].
  cbn [py_getitem lookup list_lookup mbind res_mbind res_bind].
  destruct (PyStr.split ":" None first_col) as [|t0 [|t1 [|t2 ts]]];
    try done.
  intros _. cbn [py_getitem lookup list_lookup mbind res_mbind res_bind].
  eauto.
Qed.

Section BatchLoadRuns.

Variable upload_entities : Z → string → string → string → string → response unit.
Variable verbosity : bool.
Variable int_of_quotient : Z → Z → Z.

Lemma upload_chunks_ok (project workspace headerline : string)
    (entity_data : list string) (chunk_size : Z) (model : string)
    (etype update_type : string) (total : Z)
    (offsets : list Z) (batch : Z) (tr : list load_event) :
  (∀ b data, batch < b ≤ batch + Z.of_nat (length offsets) →
     status_code (upload_entities b project workspace data model) = 200) →
  ∃ evs,
    upload_chunks upload_entities verbosity project workspace headerline
      entity_data chunk_size model etype update_type total offsets batch tr =
    (Returns tt, tr ++ evs) ∧
    uploads evs =
    (λ i, chunk_data headerline (py_slice entity_data i (i + chunk_size)))
      <$> offsets.
Proof.
  revert batch tr. induction offsets as [|i offsets IH]; intros batch tr Hok.
  - exists []. by rewrite app_nil_r.
  - cbn [upload_chunks]. unfold _check_response_code.
    rewrite bool_decide_eq_true_2 by (apply Hok; simpl; lia).
    edestruct (IH (batch + 1)) as (evs & -> & Hup).
    { intros b data Hb. apply Hok. simpl. lia. }
    destruct verbosity.
    + eexists. rewrite <- !app_assoc. split; [done|].
      rewrite !uploads_app, Hup. done.
    + eexists. rewrite <- !app_assoc. split; [done|].
      rewrite !uploads_app, Hup. done.
Qed.

Lemma upload_chunks_fail (project workspace headerline : string)
    (entity_data : list string) (chunk_size : Z) (model : string)
    (etype update_type : string) (total : Z)
    (pre post : list Z) (i : Z) (batch : Z) (tr : list load_event) :
  (∀ b data, batch < b ≤ batch + Z.of_nat (length pre) →
     status_code (upload_entities b project workspace data model) = 200) →
  status_code
    (upload_entities (batch + Z.of_nat (length pre) + 1) project workspace
       (chunk_data headerline (py_slice entity_data i (i + chunk_size)))
       model) ≠ 200 →
  ∃ evs,
    upload_chunks upload_entities verbosity project workspace headerline
      entity_data chunk_size model etype update_type total
      (pre ++ i :: post) batch tr =
    (Raises (FireCloudServerError
               (status_code
                  (upload_entities (batch + Z.of_nat (length pre) + 1)
                     project workspace
                     (chunk_data headerline
                        (py_slice entity_data i (i + chunk_size)))
                     model))),
     tr ++ evs) ∧
    uploads evs =
    (λ i, chunk_data headerline (py_slice entity_data i (i + chunk_size)))
      <$> (pre ++ [i]).
Proof.
  revert batch tr. induction pre as [|i0 pre IH]; intros batch tr Hok Hfail.
  - cbn [app upload_chunks]. unfold _check_response_code.
    cbn [length] in *. change (Z.of_nat 0) with 0 in *.
    rewrite Z.add_0_r in *.
    fold (chunk_data headerline (py_slice entity_data i (i + chunk_size))).
    rewrite bool_decide_eq_false_2 by done.
    destruct verbosity; eexists; rewrite <- ?app_assoc; (split; [done|]);
      by rewrite ?uploads_app.
  - cbn [app upload_chunks]. unfold _check_response_code.
    rewrite bool_decide_eq_true_2 by (apply Hok; simpl; lia).
    edestruct (IH (batch + 1)) as (evs & Hrun & Hup).
    { intros b data Hb. apply Hok. simpl. lia. }
    { replace (batch + 1 + Z.of_nat (length pre) + 1)
        with (batch + Z.of_nat (length (i0 :: pre)) + 1) by (simpl; lia).
      exact Hfail. }
    rewrite Hrun.
    replace (batch + 1 + Z.of_nat (length pre) + 1)
      with (batch + Z.of_nat (length (i0 :: pre)) + 1) by (simpl; lia).
    destruct verbosity; eexists; rewrite <- !app_assoc; (split; [done|]);
      rewrite !uploads_app, Hup; done.
Qed.

(** The offsets of the loop, counted in chunks. *)
Lemma offsets_chunks (entity_data : list string) (chunk_size : Z) :
  0 < chunk_size →
  let c := Z.to_nat chunk_size in
  let count := Z.to_nat ((Z.of_nat (length entity_data) + chunk_size - 1)
                         `div` chunk_size) in
  py_range 0 (Z.of_nat (length entity_data)) chunk_size =
    (λ k : nat, Z.of_nat k * chunk_size) <$> seq 0 count ∧
  (length entity_data ≤ count * c)%nat ∧
  (∀ k, (k < count)%nat → (k * c < length entity_data)%nat).
Proof.
  intros Hc c count. split; [|split].
  - rewrite py_range_chunks by done. unfold seqZ.
    rewrite <- list_fmap_compose. apply list_fmap_ext. intros _ k _.
    simpl. f_equal. lia.
  - assert (Z.of_nat (length entity_data) ≤ Z.of_nat count * chunk_size);
      [|unfold c; nia].
    unfold count. rewrite Z2Nat.id by (apply Z.div_pos; lia).
    pose proof (Z.mod_pos_bound
                  (Z.of_nat (length entity_data) + chunk_size - 1)
                  chunk_size Hc).
    pose proof (Z.div_mod (Z.of_nat (length entity_data) + chunk_size - 1)
                  chunk_size ltac:(lia)).
    nia.
  - intros k Hk.
    assert (Z.of_nat k * chunk_size < Z.of_nat (length entity_data));
      [|unfold c; nia].
    assert (Z.of_nat k + 1 ≤ (Z.of_nat (length entity_data) + chunk_size - 1)
                              `div` chunk_size) as Hle by (unfold count in Hk; lia).
    pose proof (Z.mul_div_le (Z.of_nat (length entity_data) + chunk_size - 1)
                  chunk_size Hc).
    nia.
Qed.

Lemma chunks_rows (headerline : string) (entity_data : list string)
    (chunk_size : Z) (count : nat) :
  0 < chunk_size →
  (λ i, chunk_data headerline (py_slice entity_data i (i + chunk_size))) <$>
    ((λ k : nat, Z.of_nat k * chunk_size) <$> seq 0 count) =
  chunk_data headerline <$>
    ((λ k, take (Z.to_nat chunk_size)
             (drop (k * Z.to_nat chunk_size) entity_data)) <$> seq 0 count).
Proof.
  intros Hc. rewrite <- !list_fmap_compose. apply list_fmap_ext.
  intros _ k _. simpl. by rewrite py_slice_chunk.
Qed.

Lemma chunk_length (entity_data : list string) (c k : nat) :
  (0 < c)%nat → (k * c < length entity_data)%nat →
  (0 < length (take c (drop (k * c) entity_data)) ≤ c)%nat.
Proof. intros Hc Hk. rewrite length_take, length_drop. lia. Qed.

(** X17. With a valid header, a positive chunk size and a server that
    accepts every upload, [_batch_load] returns 0 and has uploaded the rows
    once each and in their order: the uploads are the header followed by
    the rows of a chunk, the chunks are not empty and not longer than the
    chunk size, and put together they are the rows given. *)
Theorem batch_load_uploads_all (project workspace headerline : string)
    (entity_data : list string) (chunk_size : Z) (model : string)
    (tr : list load_event) :
  _valid_headerline headerline model = Ok true →
  0 < chunk_size →
  (∀ b data,
     status_code (upload_entities b project workspace data model) = 200) →
  ∃ chunks evs,
    _batch_load upload_entities verbosity int_of_quotient project workspace
      headerline entity_data chunk_size model tr = (Returns 0, tr ++ evs) ∧
    uploads evs = chunk_data headerline <$> chunks ∧
    concat chunks = entity_data ∧
    Forall (λ chunk, (0 < length chunk ≤ Z.to_nat chunk_size)%nat) chunks.
Proof.
  intros Hvalid Hc Hok. unfold _batch_load. rewrite Hvalid.
  destruct (valid_header_etype _ _ Hvalid) as [etype ->].
  rewrite bool_decide_eq_false_2 by lia.
  destruct (offsets_chunks entity_data chunk_size Hc) as (-> & Hcover & Hin).
  match goal with
  | |- context [upload_chunks _ _ ?p ?w ?h ?d ?c ?m ?e ?u ?t ?o ?b ?tr0] =>
      destruct (upload_chunks_ok p w h d c m e u t o b tr0) as (evs & -> & Hup)
  end.
  { intros b data _. apply Hok. }
  rewrite chunks_rows in Hup by done.
  eexists _, ((if verbosity then [_] else []) ++ evs). split.
  - destruct verbosity; [rewrite <- app_assoc|]; done.
  - split.
    + destruct verbosity; [rewrite uploads_app|]; exact Hup.
    + split.
      * rewrite concat_chunks. apply take_ge. lia.
      * apply Forall_fmap, Forall_forall. intros k Hk.
        apply elem_of_seq in Hk. simpl. apply chunk_length; [lia|].
        apply Hin. lia.
Qed.

(** X18. With a valid header and a positive chunk size, when the server
    refuses an upload, [_batch_load] raises the error of the server at
    once: the chunks before it have been uploaded and stay so, and no row
    after the chunk refused is sent. *)
Theorem batch_load_stops_at_refusal (project workspace headerline : string)
    (entity_data : list string) (chunk_size : Z) (model : string)
    (tr : list load_event) (k : nat) (code : Z) :
  _valid_headerline headerline model = Ok true →
  0 < chunk_size →
  (k * Z.to_nat chunk_size < length entity_data)%nat →
  (∀ b data, 1 ≤ b ≤ Z.of_nat k →
     status_code (upload_entities b project workspace data model) = 200) →
  status_code
    (upload_entities (Z.of_nat k + 1) project workspace
       (chunk_data headerline
          (take (Z.to_nat chunk_size)
             (drop (k * Z.to_nat chunk_size) entity_data)))
       model) = code →
  code ≠ 200 →
  ∃ chunks evs,
    _batch_load upload_entities verbosity int_of_quotient project workspace
      headerline entity_data chunk_size model tr =
      (Raises (FireCloudServerError code), tr ++ evs) ∧
    uploads evs = chunk_data headerline <$> chunks ∧
    length chunks = S k ∧
    concat chunks = take (S k * Z.to_nat chunk_size) entity_data.
Proof.
  intros Hvalid Hc Hk Hok Hcode Hne. unfold _batch_load. rewrite Hvalid.
  destruct (valid_header_etype _ _ Hvalid) as [etype ->].
  rewrite bool_decide_eq_false_2 by lia.
  destruct (offsets_chunks entity_data chunk_size Hc) as (-> & Hcover & Hin).
  set (count := Z.to_nat ((Z.of_nat (length entity_data) + chunk_size - 1)
                          `div` chunk_size)) in *.
  assert (k < count)%nat as Hlt.
  { destruct (decide (k < count)%nat) as [|Hge]; [done|]. exfalso.
    assert (count * Z.to_nat chunk_size ≤ k * Z.to_nat chunk_size)%nat
      by (apply Nat.mul_le_mono_r; lia). lia. }
  assert (seq 0 count = seq 0 k ++ k :: seq (S k) (count - S k)) as Hsplit.
  { replace count with (k + S (count - S k))%nat at 1 by lia.
    by rewrite seq_app. }
  rewrite Hsplit, fmap_app, fmap_cons.
  match goal with
  | |- context [upload_chunks _ _ ?p ?w ?h ?d ?c ?m ?e ?u ?t
                  (?pre ++ ?i :: ?post) ?b ?tr0] =>
      destruct (upload_chunks_fail p w h d c m e u t pre post i b tr0)
        as (evs & -> & Hup)
  end.
  { intros b data Hb. apply Hok. rewrite length_fmap, length_seq in Hb. lia. }
  { rewrite length_fmap, length_seq, py_slice_chunk by done.
    rewrite Z.add_0_l, Hcode. done. }
  rewrite length_fmap, length_seq, py_slice_chunk, Z.add_0_l, Hcode by done.
  replace (((λ k0 : nat, Z.of_nat k0 * chunk_size) <$> seq 0 k) ++
           [Z.of_nat k * chunk_size])
    with ((λ k0 : nat, Z.of_nat k0 * chunk_size) <$> seq 0 (S k)) in Hup
    by (by rewrite seq_S, fmap_app).
  rewrite chunks_rows in Hup by done.
  eexists _, ((if verbosity then [_] else []) ++ evs). split.
  - destruct verbosity; [rewrite <- app_assoc|]; done.
  - split.
    + destruct verbosity; [rewrite uploads_app|]; exact Hup.
    + split; [by rewrite !length_fmap, length_seq|apply concat_chunks].
Qed.

(** X19. [_batch_load] uploads nothing when the header is not valid (it
    then returns 1), and nothing when the chunk size is not positive: with
    the chunk size 0 the division raises, and with a negative chunk size
    the loop has no turn and the load returns 0 as after a success. *)
Theorem batch_load_uploads_nothing (project workspace headerline : string)
    (entity_data : list string) (chunk_size : Z) (model : string)
    (tr : list load_event) :
  _valid_headerline headerline model = Ok false ∨ chunk_size ≤ 0 →
  ∃ evs,
    uploads evs = [] ∧
    _batch_load upload_entities verbosity int_of_quotient project workspace
      headerline entity_data chunk_size model tr =
    (match _valid_headerline headerline model with
     | Ok true =>
         if bool_decide (chunk_size = 0) then Raises ZeroDivisionError
         else Returns 0
     | _ => Returns 1
     end, tr ++ evs).
Proof.
  intros Hcase. unfold _batch_load.
  destruct (valid_headerline_total headerline model) as [[|] Hv]; rewrite Hv.
  - destruct Hcase as [?|Hc]; [congruence|].
    destruct (valid_header_etype _ _ Hv) as [etype ->].
    destruct (bool_decide (chunk_size = 0)) eqn:Hz.
    + exists (if verbosity
              then [Stdout ("Batching " +:+ pretty (length entity_data) +:+
                            " updates to Firecloud...")]
              else []).
      destruct verbosity; [done|]. by rewrite app_nil_r.
    + apply bool_decide_eq_false in Hz.
      rewrite py_range_negative by lia. cbn [upload_chunks].
      exists (if verbosity
              then [Stdout ("Batching " +:+ pretty (length entity_data) +:+
                            " updates to Firecloud...")]
              else []).
      destruct verbosity; [done|]. by rewrite app_nil_r.
  - exists ((if verbosity
             then [Stdout ("Batching " +:+ pretty (length entity_data) +:+
                           " updates to Firecloud...")]
             else []) ++
            [Stderr ("Invalid loadfile header:" +:+ nl +:+ headerline)]).
    destruct verbosity; [by rewrite <- app_assoc|done].
Qed.

End BatchLoadRuns.

Lemma batch_load_uploads_all_witness :
  ∃ chunks evs,
    _batch_load accepting true Z.quot "p" "w" sample_header sample_rows 2
      "firecloud" [] = (Returns 0, [] ++ evs) ∧
    uploads evs = chunk_data sample_header <$> chunks ∧
    concat chunks = sample_rows ∧
    Forall (λ chunk, (0 < length chunk ≤ Z.to_nat 2)%nat) chunks.
Proof.
  apply (batch_load_uploads_all accepting true Z.quot "p" "w" sample_header
           sample_rows 2 "firecloud" []); [reflexivity|lia|reflexivity].
Defined.

Lemma batch_load_stops_at_refusal_witness :
  ∃ chunks evs,
    _batch_load (refusing_from 2) true Z.quot "p" "w" sample_header
      sample_rows 1 "firecloud" [] =
      (Raises (FireCloudServerError 500), [] ++ evs) ∧
    uploads evs = chunk_data sample_header <$> chunks ∧
    length chunks = 2%nat ∧
    concat chunks = take (2 * Z.to_nat 1) sample_rows.
Proof.
  apply (batch_load_stops_at_refusal (refusing_from 2) true Z.quot "p" "w"
           sample_header sample_rows 1 "firecloud" [] 1 500);
    [reflexivity|lia|simpl; lia| |reflexivity|lia].
  intros b data Hb. unfold refusing_from. simpl.
  rewrite bool_decide_eq_true_2 by lia. done.
Defined.

Lemma batch_load_uploads_nothing_witness :
  ∃ evs,
    uploads evs = [] ∧
    _batch_load accepting true Z.quot "p" "w" sample_header sample_rows (-5)
      "firecloud" [] = (Returns 0, [] ++ evs).
Proof.
  apply (batch_load_uploads_nothing accepting true Z.quot "p" "w"
           sample_header sample_rows (-5) "firecloud" []).
  right. lia.
Defined.
